(** * git-secret-scanner: scanner, filter engine and cleaner

    A shallow embedding of the Python package [gitsecret] (modules
    [config], [scanner], [analyzer], [cleaner]) together with the
    properties its specification states about it.

    Conventions of the embedding.
    - A Python [str] is a [string]; a character of the embedding stands for
      one code point, and [str.lower] is modelled on the ASCII letters.
    - A Python value that may be [None] is an [option].
    - A Python [dict] that is iterated (the scanner index, [allowed_files])
      is an association list in insertion order; a [set] of strings is a
      [gset string]; the files on disk are a [gmap] from path to content.
    - What a subprocess or the file system answers is an explicit argument
      of the function that asks. *)

From Stdlib Require Import Ascii ZArith Lia Bool.
From Stdlib Require String OrderedTypeEx.
From Stdlib Require Import Sorted.
From stdpp Require Import base option list gmap sets strings.

(** ** Python string primitives *)

Module Str.

Definition len (s : string) : nat := String.length s.

(** ["c" * n] *)
Fixpoint repeat_char (c : ascii) (n : nat) : string :=
  match n with
  | O => EmptyString
  | S n' => String c (repeat_char c n')
  end.

(** [s[:n]] for [n >= 0] *)
Fixpoint take (n : nat) (s : string) : string :=
  match n, s with
  | S n', String c s' => String c (take n' s')
  | _, _ => EmptyString
  end.

(** [s[n:]] for [n >= 0] *)
Fixpoint drop (n : nat) (s : string) : string :=
  match n, s with
  | S n', String _ s' => drop n' s'
  | _, _ => s
  end.

(** [s[-n:]] for [n > 0]: the whole string when it is shorter than [n] *)
Definition last_n (n : nat) (s : string) : string := drop (len s - n) s.

(** [s.startswith(p)] *)
Fixpoint startswith (s p : string) : bool :=
  match p, s with
  | EmptyString, _ => true
  | String a p', String b s' => if Ascii.eqb a b then startswith s' p' else false
  | String _ _, EmptyString => false
  end.

(** [s.endswith(p)] *)
Definition endswith (s p : string) : bool :=
  (len p <=? len s)%nat && String.eqb (drop (len s - len p) s) p.

(** [sub in s] *)
Fixpoint contains (sub s : string) : bool :=
  startswith s sub ||
  match s with
  | EmptyString => false
  | String _ s' => contains sub s'
  end.

Definition is_upper (c : ascii) : bool :=
  let n := nat_of_ascii c in (65 <=? n)%nat && (n <=? 90)%nat.
Definition is_lower (c : ascii) : bool :=
  let n := nat_of_ascii c in (97 <=? n)%nat && (n <=? 122)%nat.
Definition is_digit (c : ascii) : bool :=
  let n := nat_of_ascii c in (48 <=? n)%nat && (n <=? 57)%nat.

Definition lower_char (c : ascii) : ascii :=
  if is_upper c then ascii_of_nat (nat_of_ascii c + 32) else c.

(** [s.lower()] *)
Fixpoint lower (s : string) : string :=
  match s with
  | EmptyString => EmptyString
  | String c s' => String (lower_char c) (lower s')
  end.

(** [s.count(c)] for a one-character [c] *)
Fixpoint count_char (c : ascii) (s : string) : nat :=
  match s with
  | EmptyString => O
  | String a s' => (if Ascii.eqb a c then 1 else 0) + count_char c s'
  end.

(** [s.split(sep, 1)] for a non-empty [sep]: [Some (before, after)] at the
    leftmost occurrence of [sep], [None] when [sep] does not occur. *)
Fixpoint split_once (sep s : string) : option (string * string) :=
  if startswith s sep then Some (EmptyString, drop (len sep) s)
  else match s with
       | EmptyString => None
       | String c s' =>
           match split_once sep s' with
           | Some (a, b) => Some (String c a, b)
           | None => None
           end
       end.

(** The scan of [str.replace] for a non-empty [old]: [skip] characters of
    a match that has just been replaced are still to be passed over. *)
Fixpoint replace_from (old new : string) (skip : nat) (s : string) : string :=
  match s with
  | EmptyString => EmptyString
  | String c s' =>
      match skip with
      | S k => replace_from old new k s'
      | O =>
          if startswith s old
          then new +:+ replace_from old new (len old - 1) s'
          else String c (replace_from old new 0 s')
      end
  end.

(** [str.replace] with an empty [old] puts [new] before every character
    and at the end. *)
Fixpoint intersperse (new s : string) : string :=
  match s with
  | EmptyString => new
  | String c s' => new +:+ String c (intersperse new s')
  end.

(** [s.replace(old, new)] *)
Definition replace (old new s : string) : string :=
  match old with
  | EmptyString => intersperse new s
  | String _ _ => replace_from old new 0 s
  end.

(** [str(n)] for a non-negative integer *)
Definition of_nat (n : nat) : string := pretty.pretty_nat n.

(** [s.split(sep, maxsplit)] for a non-empty [sep] *)
Fixpoint split_max (sep : string) (maxsplit : nat) (s : string) : list string :=
  match maxsplit with
  | O => [s]
  | S n =>
      match split_once sep s with
      | None => [s]
      | Some (a, b) => a :: split_max sep n b
      end
  end.

(** [s.rstrip("\n")] *)
Fixpoint rstrip_nl (s : string) : string :=
  match s with
  | EmptyString => EmptyString
  | String c s' =>
      match rstrip_nl s' with
      | EmptyString => if Ascii.eqb c "010" then EmptyString else String c EmptyString
      | r => String c r
      end
  end.

(** [s.split(sep)] for a non-empty [sep] *)
Definition split_all (sep s : string) : list string := split_max sep (len s) s.

(** [c.isspace()] *)
Definition is_space (c : ascii) : bool :=
  let n := nat_of_ascii c in
  ((9 <=? n) && (n <=? 13) || (28 <=? n) && (n <=? 32)
   || (n =? 133) || (n =? 160))%nat.

Fixpoint lstrip (s : string) : string :=
  match s with
  | EmptyString => EmptyString
  | String c s' => if is_space c then lstrip s' else s
  end.

Fixpoint rstrip (s : string) : string :=
  match s with
  | EmptyString => EmptyString
  | String c s' =>
      match rstrip s' with
      | EmptyString => if is_space c then EmptyString else String c EmptyString
      | r => String c r
      end
  end.

(** [s.strip()] *)
Definition strip (s : string) : string := rstrip (lstrip s).

(** [sep.join(l)] *)
Definition join (sep : string) (l : list string) : string := String.concat sep l.

(** [x in l] for a list of strings *)
Definition mem (x : string) (l : list string) : bool :=
  existsb (String.eqb x) l.

(** [sorted(l, key=len, reverse=True)]: the sort is stable, in reverse
    too, so an element goes behind the longer ones and in front of the
    others. *)
Fixpoint insert_longest_first (x : string) (l : list string) : list string :=
  match l with
  | [] => [x]
  | y :: l' => if (len x <? len y)%nat then y :: insert_longest_first x l' else x :: l
  end.
Definition sorted_longest_first (l : list string) : list string :=
  foldr insert_longest_first [] l.

(** [s[:k]]: a negative [k] counts from the end of [s] *)
Definition slice_to (s : string) (k : Z) : string :=
  if (0 <=? k)%Z then take (Z.to_nat k) s
  else take (len s - Z.to_nat (- k)) s.

End Str.

(** ** config.py *)

Module Config.

Record Settings := {
  min_secret_length : Z;
  max_secret_length : Z;
  case_sensitive : bool
}.

Record KeywordGroup := {
  kg_name : string;
  kg_patterns : list string
}.

(** A compiled regular expression is the function [regex.search] followed
    by [match.groups()]: [None] when the line has no match, otherwise the
    captured groups, a group that took no part in the match being [None]. *)
Record CompiledPattern := {
  cp_name : string;
  regex : string -> option (list (option string));
  value_group : Z
}.

Record Config := {
  keywords : list KeywordGroup;
  ignored_values : list string;
  ignored_files : list string;
  exclude_binary_extensions : list string;
  settings : Settings
}.

Definition get_all_keywords (cfg : Config) : list string :=
  flat_map kg_patterns (keywords cfg).

Definition _match_pattern (pattern file_path : string) : bool :=
  if Str.contains "**" pattern then
    let prefix :=
      match Str.split_once "**" pattern with
      | Some (a, _) => a
      | None => pattern
      end in
    Str.startswith file_path prefix
  else if Str.startswith pattern "*." then
    Str.endswith file_path (Str.drop 1 pattern)
  else if Str.endswith pattern "/" then
    Str.startswith file_path pattern
  else String.eqb file_path pattern.

Definition should_ignore_file (cfg : Config) (file_path : string) : bool :=
  existsb (fun pattern => _match_pattern pattern file_path) (ignored_files cfg).

Definition is_ident_char (c : ascii) : bool :=
  Str.is_lower c || Str.is_upper c || Str.is_digit c || Ascii.eqb c "_".

Fixpoint all_chars (p : ascii -> bool) (s : string) : bool :=
  match s with
  | EmptyString => true
  | String c s' => p c && all_chars p s'
  end.

Definition code_keywords : list string :=
  ["func "; "return "; "if "; "for "; "range "; "make("; "append("; "new("; "len("].

Definition _looks_like_code (value : string) : bool :=
  if Str.contains "(" value && Str.contains ")" value then true
  else if Str.contains "[" value && Str.contains "]" value then true
  else if Str.startswith value "{" || Str.endswith value "}" then true
  else if (2 <? Str.count_char "." value)%nat then true
  else if
    (Str.count_char "." value =? 1)%nat &&
    match Str.split_once "." value with
    | Some (part0, String first_char part1') =>
        negb (String.eqb part0 "") &&
        Str.is_upper first_char &&
        all_chars is_ident_char part0
    | _ => false
    end
  then true
  else existsb (Str.startswith value) code_keywords.

Definition url_prefixes : list string :=
  ["http://"; "https://"; "ftp://"; "ssh://"; "file://"; "mailto:"].

Definition common_keywords : list string :=
  ["password"; "secret"; "token"; "key"; "credential"; "auth"; "pass"; "pwd"].

Definition should_ignore_value (cfg : Config) (value : string) : bool :=
  let n := Z.of_nat (Str.len value) in
  if (n <? min_secret_length (settings cfg))%Z
     || (max_secret_length (settings cfg) <? n)%Z then true
  else if _looks_like_code value then true
  else
    let value_lower := Str.lower value in
    if existsb (Str.startswith value_lower) url_prefixes then true
    else if existsb (String.eqb value_lower) common_keywords then true
    else
      existsb
        (fun ignored =>
           let ignored_lower :=
             if negb (case_sensitive (settings cfg))
             then Str.lower ignored else ignored in
           Str.contains ignored_lower value_lower)
        (ignored_values cfg).

(** [default_config()]: the keyword groups, the ignored values and files,
    the binary extensions and the settings. (Its extraction patterns are
    regular expressions; a scanner is given their compiled form.) *)
Definition default_config : Config :=
  {| keywords :=
       [ {| kg_name := "password";
            kg_patterns := ["password"; "passwd"; "pwd"; "pass"; "mot_de_passe"] |};
         {| kg_name := "secret";
            kg_patterns := ["secret"; "client_secret"; "app_secret"; "api_secret"] |};
         {| kg_name := "api_key";
            kg_patterns := ["api_key"; "apikey"; "api-key"] |};
         {| kg_name := "token";
            kg_patterns := ["token"; "access_token"; "auth_token"; "bearer"] |};
         {| kg_name := "credentials";
            kg_patterns := ["credential"; "credentials"; "auth"] |};
         {| kg_name := "private_key";
            kg_patterns := ["private_key"; "privatekey"; "private-key"; "rsa_private"] |};
         {| kg_name := "connection_string";
            kg_patterns := ["connection_string"; "connectionstring"; "conn_str";
                            "database_url"; "db_url"] |};
         {| kg_name := "oauth";
            kg_patterns := ["oauth"; "client_id"; "client_secret"; "refresh_token"] |};
         {| kg_name := "aws";
            kg_patterns := ["aws_access_key"; "aws_secret"; "aws_key"] |};
         {| kg_name := "encryption";
            kg_patterns := ["encryption_key"; "encrypt_key"; "aes_key"; "cipher"] |} ];
     ignored_values :=
       [ "<empty>"; "<none>"; "<null>"; "null"; "nil"; "undefined"; "none"; "N/A";
         "${"; "{{"; "%s"; "<value>"; "<your_"; "[your_";
         "PLACEHOLDER"; "your_"; "YOUR_"; "example"; "EXAMPLE"; "sample";
         "xxx"; "XXX"; "***"; "----"; "____";
         "REMOVED"; "REDACTED"; "HIDDEN"; "MASKED"; "changeme"; "CHANGEME";
         "change_me"; "TODO"; "FIXME";
         "default"; "DEFAULT" ];
     ignored_files :=
       [ "*.md"; "*.txt"; "*.rst"; "*.lock";
         "*.go"; "*.js"; "*.ts"; "*.jsx"; "*.tsx"; "*.py"; "*.java"; "*.rb";
         "*.php"; "*.c"; "*.cpp"; "*.h"; "*.cs"; "*.swift"; "*.kt"; "*.rs";
         "*.scala";
         "*.json"; "*.jsonl";
         "node_modules/**"; "vendor/**"; ".git/**";
         "*.min.js"; "*.min.css" ];
     exclude_binary_extensions :=
       [ ".jar"; ".war"; ".zip"; ".tar"; ".gz"; ".rar";
         ".png"; ".jpg"; ".jpeg"; ".gif"; ".ico"; ".svg";
         ".pdf"; ".doc"; ".docx"; ".xls"; ".xlsx";
         ".exe"; ".dll"; ".so"; ".dylib";
         ".class"; ".pyc"; ".o"; ".a" ];
     settings :=
       {| min_secret_length := 3; max_secret_length := 500;
          case_sensitive := false |} |}.

End Config.

(** ** Exceptions

    A Python function that may raise returns an [outcome]. *)

Inductive outcome (A : Type) : Type :=
| Return (a : A)
| Raise.
Arguments Return {A} a.
Arguments Raise {A}.

(** [t[i]] on a tuple or list: negative indices count from the end, an index
    out of range is an [IndexError] ([None] here). *)
Definition py_index {A : Type} (t : list A) (i : Z) : option A :=
  let n := Z.of_nat (length t) in
  if (0 <=? i)%Z then nth_error t (Z.to_nat i)
  else if (- n <=? i)%Z then nth_error t (Z.to_nat (n + i))
  else None.

(** ** scanner.py *)

Module Scanner.

Import Config.

Record SecretValue := {
  value : string;
  masked_value : string;
  commits : list (option string);
  authors : list (option string);
  first_seen : option string;
  last_seen : option string
}.

Record Secret := {
  file : string;
  key : string;
  type : string;
  change_count : nat;
  total_occurrences : nat;
  s_authors : list (option string);
  history : list SecretValue
}.

Record ScanResult := {
  repository : string;
  branch : string;
  secrets_found : nat;
  total_values : nat;
  secrets : list Secret;
  scan_date : string
}.

Record StreamEntry := {
  e_file : string;
  e_key : string;
  e_value : string;
  e_masked_value : string;
  e_type : string;
  e_commit : option string;
  e_author : option string;
  e_date : option string
}.

Definition mask_secret (value : string) : string :=
  if (Str.len value <=? 4)%nat then "****"
  else
    let first_two := Str.take 2 value in
    let last_two := Str.last_n 2 value in
    let num_asterisks := Nat.min (Str.len value - 4) 16 in
    first_two +:+ Str.repeat_char "*" num_asterisks +:+ last_two.

(** The scanner object: its configuration and the patterns compiled from
    it when it was built. *)
Record t := {
  config : Config;
  compiled_patterns : list CompiledPattern
}.

(** The loop of [extract_key_value] over the patterns still to be tried.
    The result is the triple [(key, value, found)]. An empty [groups()]
    makes [groups[0]] raise, and a value group that took no part in the
    match is [None], on which [should_ignore_value] raises. *)
Fixpoint extract_loop (cfg : Config) (pats : list CompiledPattern) (line : string)
  : outcome (option string * option string * bool) :=
  match pats with
  | [] => Return (None, None, false)
  | compiled_pattern :: rest =>
      match regex compiled_pattern line with
      | None => extract_loop cfg rest line
      | Some groups =>
          if (value_group compiled_pattern <=? Z.of_nat (length groups))%Z then
            match py_index groups 0 with
            | None => Raise
            | Some key =>
                let value_index := (value_group compiled_pattern - 1)%Z in
                if (value_index <? Z.of_nat (length groups))%Z then
                  match py_index groups value_index with
                  | None => Raise
                  | Some None => Raise
                  | Some (Some value) =>
                      if should_ignore_value cfg value
                      then extract_loop cfg rest line
                      else Return (key, Some value, true)
                  end
                else extract_loop cfg rest line
            end
          else extract_loop cfg rest line
      end
  end.

Definition extract_key_value (self : t) (line : string)
  : outcome (option string * option string * bool) :=
  extract_loop (config self) (compiled_patterns self) line.

(** [secret_type]: the name of the first keyword group that lists [key] *)
Fixpoint secret_type_of (groups : list KeywordGroup) (key : string) : string :=
  match groups with
  | [] => "unknown"
  | keyword_group :: rest =>
      if Str.mem key (kg_patterns keyword_group) then kg_name keyword_group
      else secret_type_of rest key
  end.

(** *** The diff-stream parser

    [_search_keyword] and [_stream_keyword] read the output of
    [git log -S<keyword> --pretty=format:COMMIT_START|%H|%an|%aI -p] with
    the same loop head; it is embedded once, as [read_line]. *)

Record cursor := {
  current_file : option string;
  current_commit : option string;
  current_author : option string;
  current_date : option string
}.

Definition initial_cursor : cursor :=
  {| current_file := None; current_commit := None;
     current_author := None; current_date := None |}.

Fixpoint until_newline (s : string) : string :=
  match s with
  | EmptyString => EmptyString
  | String c s' => if Ascii.eqb c "010" then EmptyString else String c (until_newline s')
  end.

(** [re.search(r' b/(.+)$', line)], group 1: at the leftmost [" b/"] that
    is followed by at least one character other than a newline, these
    running up to the end of the line (or to a final newline). *)
Fixpoint b_path (line : string) : option string :=
  let here :=
    if Str.startswith line " b/" then
      let rest := Str.drop 3 line in
      let path := until_newline rest in
      let after := Str.drop (Str.len path) rest in
      if negb (String.eqb path "")
         && (String.eqb after "" || String.eqb after (String "010" ""))
      then Some path else None
    else None in
  match here with
  | Some path => Some path
  | None =>
      match line with
      | EmptyString => None
      | String _ line' => b_path line'
      end
  end.

(** What one added line that passed every test hands to the rest of the
    loop body. *)
Record hit := {
  h_file : string;
  h_key : string;
  h_value : string;
  h_commit : option string;
  h_author : option string;
  h_date : option string
}.

(** One iteration of the loop up to the point where the two callers
    differ: the new cursor and, for an added line that is kept, its hit.
    [Raise] is an exception of [extract_key_value]. *)
Definition read_line (self : t) (keyword : string) (cur : cursor) (raw : string)
  : cursor * outcome (option hit) :=
  let line := Str.rstrip_nl raw in
  if Str.startswith line "COMMIT_START|" then
    match Str.split_max "|" 3 line with
    | [_; p1; p2; p3] =>
        ({| current_file := current_file cur; current_commit := Some p1;
            current_author := Some p2; current_date := Some p3 |}, Return None)
    | _ => (cur, Return None)
    end
  else if Str.startswith line "diff --git" then
    match b_path line with
    | Some path =>
        ({| current_file := Some path; current_commit := current_commit cur;
            current_author := current_author cur; current_date := current_date cur |},
         Return None)
    | None => (cur, Return None)
    end
  else if Str.startswith line "+" && negb (Str.startswith line "+++") then
    match current_file cur with
    | Some (String _ _ as file) =>
        if Str.contains keyword line then
          let content := Str.drop 1 line in
          match extract_key_value self content with
          | Raise => (cur, Raise)
          | Return (Some (String _ _ as key), Some (String _ _ as value), true) =>
              if should_ignore_file (config self) file then (cur, Return None)
              else (cur, Return (Some {| h_file := file; h_key := key; h_value := value;
                                         h_commit := current_commit cur;
                                         h_author := current_author cur;
                                         h_date := current_date cur |}))
          | Return _ => (cur, Return None)
          end
        else (cur, Return None)
    | _ => (cur, Return None)
    end
  else (cur, Return None).

(** *** The index: [Dict[str, Dict[str, SecretValue]]] *)

Section Dict.
Context {V : Type}.

(** [d.get(k)] *)
Fixpoint dict_get (d : list (string * V)) (k : string) : option V :=
  match d with
  | [] => None
  | (k', v) :: d' => if String.eqb k' k then Some v else dict_get d' k
  end.

(** [d[k] = v]: in place for a key that is there, at the end otherwise *)
Fixpoint dict_set (d : list (string * V)) (k : string) (v : V) : list (string * V) :=
  match d with
  | [] => [(k, v)]
  | (k', v') :: d' =>
      if String.eqb k' k then (k', v) :: d' else (k', v') :: dict_set d' k v
  end.
End Dict.

Abbreviation file_index_t := (list (string * SecretValue)).
Abbreviation index_t := (list (string * list (string * SecretValue))).

(** [x] followed by the elements of a list where it is not found yet *)
Definition append_new (x : option string) (l : list (option string)) : list (option string) :=
  if decide (x ∈ l) then l else l ++ [x].

(** [a < b] where [b] is a string: comparing [None] with it raises *)
Definition py_lt (a : option string) (b : string) : outcome bool :=
  match a with
  | None => Raise
  | Some a' => Return (String.ltb a' b)
  end.
Definition py_gt (a : option string) (b : string) : outcome bool :=
  match a with
  | None => Raise
  | Some a' => Return (String.ltb b a')
  end.

(** [not seen or date < seen], and the same with [>] *)
Definition unset_or (cmp : option string -> string -> outcome bool)
    (seen date : option string) : outcome bool :=
  match seen with
  | Some (String _ _ as s) => cmp date s
  | _ => Return true
  end.

Definition with_commits (sv : SecretValue) (c : list (option string)) : SecretValue :=
  {| value := value sv; masked_value := masked_value sv; commits := c;
     authors := authors sv; first_seen := first_seen sv; last_seen := last_seen sv |}.
Definition with_authors (sv : SecretValue) (a : list (option string)) : SecretValue :=
  {| value := value sv; masked_value := masked_value sv; commits := commits sv;
     authors := a; first_seen := first_seen sv; last_seen := last_seen sv |}.
Definition with_first_seen (sv : SecretValue) (d : option string) : SecretValue :=
  {| value := value sv; masked_value := masked_value sv; commits := commits sv;
     authors := authors sv; first_seen := d; last_seen := last_seen sv |}.
Definition with_last_seen (sv : SecretValue) (d : option string) : SecretValue :=
  {| value := value sv; masked_value := masked_value sv; commits := commits sv;
     authors := authors sv; first_seen := first_seen sv; last_seen := d |}.

(** The updates of the record found under [(file, key)]; the flag tells
    that a date comparison raised, after the updates made before it. *)
Definition touch (secret_value : SecretValue) (h : hit) : SecretValue * bool :=
  let sv1 := with_commits secret_value (append_new (h_commit h) (commits secret_value)) in
  let sv2 := with_authors sv1 (append_new (h_author h) (authors sv1)) in
  match unset_or py_lt (first_seen sv2) (h_date h) with
  | Raise => (sv2, true)
  | Return b1 =>
      let sv3 := if b1 then with_first_seen sv2 (h_date h) else sv2 in
      match unset_or py_gt (last_seen sv3) (h_date h) with
      | Raise => (sv3, true)
      | Return b2 =>
          (if b2 then with_last_seen sv3 (h_date h) else sv3, false)
      end
  end.

(** The critical section of [_search_keyword] (the body of [with lock]). *)
Definition merge (index : index_t) (h : hit) : index_t * bool :=
  let masked := mask_secret (h_value h) in
  let index1 :=
    match dict_get index (h_file h) with
    | None => dict_set index (h_file h) []
    | Some _ => index
    end in
  let file_index := default [] (dict_get index1 (h_file h)) in
  let file_index1 :=
    match dict_get file_index (h_key h) with
    | None =>
        dict_set file_index (h_key h)
          {| value := h_value h; masked_value := masked; commits := [];
             authors := []; first_seen := Some ""; last_seen := Some "" |}
    | Some _ => file_index
    end in
  match dict_get file_index1 (h_key h) with
  | None => (dict_set index1 (h_file h) file_index1, false)
  | Some secret_value =>
      let '(sv, raised) := touch secret_value h in
      (dict_set index1 (h_file h) (dict_set file_index1 (h_key h) sv), raised)
  end.

(** The loop of [_search_keyword] over the lines of the driver's output.
    An exception ends the task; what was merged before it stays. *)
Fixpoint search_loop (self : t) (keyword : string) (cur : cursor)
    (lines : list string) (index : index_t) : index_t :=
  match lines with
  | [] => index
  | raw :: rest =>
      match read_line self keyword cur raw with
      | (_, Raise) => index
      | (cur', Return None) => search_loop self keyword cur' rest index
      | (cur', Return (Some h)) =>
          match merge index h with
          | (index', true) => index'
          | (index', false) => search_loop self keyword cur' rest index'
          end
      end
  end.

(** [stdout] is what [git log] prints for this keyword, [None] when the
    process cannot be started. *)
Definition _search_keyword (self : t) (stdout : option (list string))
    (keyword : string) (index : index_t) : index_t :=
  match stdout with
  | None => index
  | Some lines => search_loop self keyword initial_cursor lines index
  end.

(** [(a.file, a.key) < (b.file, b.key)] *)
Definition file_key_lt (a b : Secret) : bool :=
  String.ltb (file a) (file b)
  || (String.eqb (file a) (file b) && String.ltb (key a) (key b)).

(** [list.sort] is stable: an element goes in front of the first later
    element that is not smaller than it. *)
Fixpoint insert_sorted (x : Secret) (l : list Secret) : list Secret :=
  match l with
  | [] => [x]
  | y :: l' => if file_key_lt y x then y :: insert_sorted x l' else x :: l
  end.
Definition sort_by_file_key (l : list Secret) : list Secret :=
  foldr insert_sorted [] l.

Definition secret_of (self : t) (file_path : string) (kv : string * SecretValue) : Secret :=
  let '(key, secret_value) := kv in
  {| file := file_path; key := key;
     type := secret_type_of (keywords (config self)) key;
     change_count := length (commits secret_value);
     total_occurrences := length (commits secret_value);
     s_authors := authors secret_value;
     history := [secret_value] |}.

Definition _build_secrets (self : t) (index : index_t) : list Secret :=
  sort_by_file_key
    (flat_map (fun '(file_path, key_values) => map (secret_of self file_path) key_values)
              index).

(** [sum(len(v) for v in index.values())] *)
Definition count_values (index : index_t) : nat :=
  foldr (fun fv acc => length (snd fv) + acc) 0 index.

(** The keyword tasks share the index and take the lock for every merge;
    they are run here one after the other, in the order of submission.
    [driver keyword] is the output of [git log] for that keyword. *)
Definition scan_index (self : t) (driver : string -> option (list string)) : index_t :=
  foldl (fun index keyword => _search_keyword self (driver keyword) keyword index)
        [] (get_all_keywords (config self)).

Definition scan (self : t) (driver : string -> option (list string))
    (repo_path branch now : string) : ScanResult :=
  let index := scan_index self driver in
  let secrets := _build_secrets self index in
  let total_values := count_values index in
  {| repository := repo_path; branch := branch;
     secrets_found := length secrets; total_values := total_values;
     secrets := secrets; scan_date := now |}.

(** *** The working tree

    One file that [os.walk] yields outside [.git]: [size] is [None] when
    [os.path.getsize] raises, [content] is [None] when the file cannot be
    opened, and otherwise its lines, terminators included. *)
Record tree_file := {
  rel_path : string;
  filename : string;
  size : option N;
  content : option (list string)
}.

Definition MAX_FILE_SIZE : N := 1024 * 1024.

(** The tests of the walk that skip a file, and the lines to search. *)
Definition lines_to_search (self : t) (f : tree_file) : option (list string) :=
  if should_ignore_file (config self) (rel_path f) then None
  else if existsb (Str.endswith (filename f)) (exclude_binary_extensions (config self))
  then None
  else match size f with
       | None => None
       | Some n => if (MAX_FILE_SIZE <? n)%N then None else content f
       end.

(** [scan_current]: the body of [if found and key and value] *)
Definition record_current (index : index_t) (rel key value now : string) : index_t :=
  let index1 :=
    match dict_get index rel with
    | None => dict_set index rel []
    | Some _ => index
    end in
  let file_index := default [] (dict_get index1 rel) in
  match dict_get file_index key with
  | None =>
      dict_set index1 rel
        (dict_set file_index key
           {| value := value; masked_value := mask_secret value; commits := [];
              authors := []; first_seen := Some now; last_seen := Some now |})
  | Some _ => index1
  end.

(** [for keyword in keywords] on one line; the flag tells that
    [extract_key_value] raised. *)
Fixpoint current_keywords (self : t) (rel line now : string)
    (kws : list string) (index : index_t) : index_t * bool :=
  match kws with
  | [] => (index, false)
  | keyword :: rest =>
      if Str.contains keyword line then
        match extract_key_value self line with
        | Raise => (index, true)
        | Return (Some (String _ _ as key), Some (String _ _ as value), true) =>
            current_keywords self rel line now rest
              (record_current index rel key value now)
        | Return _ => current_keywords self rel line now rest index
        end
      else current_keywords self rel line now rest index
  end.

(** The lines of one file; an exception leaves the file ([continue]). *)
Fixpoint current_lines (self : t) (rel now : string) (kws lines : list string)
    (index : index_t) : index_t :=
  match lines with
  | [] => index
  | line :: rest =>
      match current_keywords self rel line now kws index with
      | (index', true) => index'
      | (index', false) => current_lines self rel now kws rest index'
      end
  end.

Definition current_index (self : t) (tree : list tree_file) (now : string) : index_t :=
  foldl (fun index f =>
           match lines_to_search self f with
           | None => index
           | Some lines =>
               current_lines self (rel_path f) now
                 (get_all_keywords (config self)) lines index
           end)
        [] tree.

(** [tree] is the walk of the working tree, [now] the reading of the
    clock (successive readings are not told apart). *)
Definition scan_current (self : t) (tree : list tree_file)
    (repo_path now : string) : ScanResult :=
  let index := current_index self tree now in
  let secrets := _build_secrets self index in
  let total_values := count_values index in
  {| repository := repo_path; branch := "HEAD";
     secrets_found := length secrets; total_values := total_values;
     secrets := secrets; scan_date := now |}.

(** [f"{secret.file}|{secret.key}"] *)
Definition both_key (s : Secret) : string := file s +:+ "|" +:+ key s.

Definition scan_both (self : t) (driver : string -> option (list string))
    (tree : list tree_file) (repo_path branch now : string) : ScanResult :=
  let result := scan self driver repo_path branch now in
  let current_result := scan_current self tree repo_path now in
  let all_secrets1 :=
    foldl (fun all_secrets secret => dict_set all_secrets (both_key secret) secret)
          [] (secrets result) in
  let all_secrets2 :=
    foldl (fun all_secrets secret =>
             match dict_get all_secrets (both_key secret) with
             | None => dict_set all_secrets (both_key secret) secret
             | Some _ => all_secrets
             end)
          all_secrets1 (secrets current_result) in
  let merged_secrets := sort_by_file_key (map snd all_secrets2) in
  {| repository := repo_path; branch := branch;
     secrets_found := length merged_secrets;
     total_values := total_values result + total_values current_result;
     secrets := merged_secrets; scan_date := now |}.

(** *** Streaming

    The JSONL file is the list of the entries written to it, one per
    line; [json.loads] gives back the entry that [json.dumps] wrote. *)

(** [f"{file}|{key}|{value}"] *)
Definition dedup_key (file key value : string) : string :=
  file +:+ "|" +:+ key +:+ "|" +:+ value.

(** The loop of [_stream_keyword]: the lines written and the set [seen]. *)
Fixpoint stream_loop (self : t) (keyword : string) (cur : cursor)
    (lines : list string) (out : list StreamEntry) (seen : gset string)
  : list StreamEntry * gset string :=
  match lines with
  | [] => (out, seen)
  | raw :: rest =>
      match read_line self keyword cur raw with
      | (_, Raise) => (out, seen)
      | (cur', Return None) => stream_loop self keyword cur' rest out seen
      | (cur', Return (Some h)) =>
          let k := dedup_key (h_file h) (h_key h) (h_value h) in
          if decide (k ∈ seen) then stream_loop self keyword cur' rest out seen
          else
            let entry :=
              {| e_file := h_file h; e_key := h_key h; e_value := h_value h;
                 e_masked_value := mask_secret (h_value h);
                 e_type := secret_type_of (keywords (config self)) (h_key h);
                 e_commit := h_commit h; e_author := h_author h;
                 e_date := h_date h |} in
            stream_loop self keyword cur' rest (out ++ [entry]) ({[ k ]} ∪ seen)
      end
  end.

Definition _stream_keyword (self : t) (stdout : option (list string))
    (keyword : string) (out : list StreamEntry) (seen : gset string)
  : list StreamEntry * gset string :=
  match stdout with
  | None => (out, seen)
  | Some lines => stream_loop self keyword initial_cursor lines out seen
  end.

Definition scan_stream (self : t) (driver : string -> option (list string))
  : list StreamEntry :=
  fst (foldl (fun '(out, seen) keyword =>
                _stream_keyword self (driver keyword) keyword out seen)
             ([], ∅) (get_all_keywords (config self))).

(** [scan_current_stream]: one line of a file against every keyword *)
Fixpoint stream_current_keywords (self : t) (rel line now : string)
    (kws : list string) (out : list StreamEntry) (seen : gset string)
  : list StreamEntry * gset string * bool :=
  match kws with
  | [] => (out, seen, false)
  | keyword :: rest =>
      if Str.contains keyword line then
        match extract_key_value self line with
        | Raise => (out, seen, true)
        | Return (Some (String _ _ as key), Some (String _ _ as value), true) =>
            let k := dedup_key rel key value in
            if decide (k ∈ seen)
            then stream_current_keywords self rel line now rest out seen
            else
              let entry :=
                {| e_file := rel; e_key := key; e_value := value;
                   e_masked_value := mask_secret value;
                   e_type := secret_type_of (keywords (config self)) key;
                   e_commit := Some "HEAD"; e_author := Some "";
                   e_date := Some now |} in
              stream_current_keywords self rel line now rest
                (out ++ [entry]) ({[ k ]} ∪ seen)
        | Return _ => stream_current_keywords self rel line now rest out seen
        end
      else stream_current_keywords self rel line now rest out seen
  end.

Fixpoint stream_current_lines (self : t) (rel now : string) (kws lines : list string)
    (out : list StreamEntry) (seen : gset string) : list StreamEntry * gset string :=
  match lines with
  | [] => (out, seen)
  | line :: rest =>
      match stream_current_keywords self rel line now kws out seen with
      | (out', seen', true) => (out', seen')
      | (out', seen', false) => stream_current_lines self rel now kws rest out' seen'
      end
  end.

Definition scan_current_stream (self : t) (tree : list tree_file) (now : string)
  : list StreamEntry :=
  fst (foldl (fun '(out, seen) f =>
                match lines_to_search self f with
                | None => (out, seen)
                | Some lines =>
                    stream_current_lines self (rel_path f) now
                      (get_all_keywords (config self)) lines out seen
                end)
             ([], ∅) tree).

(** The loop of [scan_both_stream] that copies the temporary file into
    the output through [seen]. *)
Fixpoint copy_unseen (tmp : list StreamEntry) (out : list StreamEntry)
    (seen : gset string) : list StreamEntry * gset string :=
  match tmp with
  | [] => (out, seen)
  | entry :: rest =>
      let dedup := dedup_key (e_file entry) (e_key entry) (e_value entry) in
      if decide (dedup ∈ seen) then copy_unseen rest out seen
      else copy_unseen rest (out ++ [entry]) ({[ dedup ]} ∪ seen)
  end.

Definition scan_both_stream (self : t) (driver : string -> option (list string))
    (tree : list tree_file) (now : string) : list StreamEntry :=
  let '(out1, seen1) := copy_unseen (scan_stream self driver) [] ∅ in
  let '(out2, _) := copy_unseen (scan_current_stream self tree now) out1 seen1 in
  out2.

(** *** [get_all_values]

    [set_order] is the order in which Python goes over a set of
    strings. *)
Definition get_all_values (set_order : gset string -> list string)
    (scan_result : ScanResult) : list string :=
  let values :=
    foldl (fun values secret =>
             foldl (fun values secret_value => {[ value secret_value ]} ∪ values)
                   values (history secret))
          (∅ : gset string) (secrets scan_result) in
  Str.sorted_longest_first (set_order values).

End Scanner.

(** ** analyzer.py *)

Module Analyzer.

Definition mask_secret (value : string) : string :=
  if (Str.len value <=? 4)%nat then "****"
  else Str.take 2 value +:+ Str.repeat_char "*" (Str.len value - 4)
       +:+ Str.last_n 2 value.

Definition _truncate (s : string) (max_len : Z) : string :=
  if (Z.of_nat (Str.len s) <=? max_len)%Z then s
  else Str.slice_to s (max_len - 3) +:+ "...".

(** *** The analysis of a scan file

    One object of the file after the six [entry.get(..., '')]: the file,
    the key, the value and the type are strings (the empty string when
    the object has no such field); the author and the date are strings or
    [None], which is what a [null] of the file loads as. *)
Record entry := {
  a_file : string;
  a_key : string;
  a_value : string;
  a_type : string;
  a_author : option string;
  a_date : option string
}.

(** [index[secret_key]['values'][value]] *)
Record value_data := {
  vd_occurrences : nat;
  vd_authors : gset (option string);
  vd_dates : list (option string)
}.

(** [index[secret_key]] *)
Record secret_data := {
  sd_file : string;
  sd_key : string;
  sd_type : string;
  sd_values : list (string * value_data);
  sd_authors : gset (option string);
  sd_dates : list (option string);
  sd_change_count : nat
}.

(** [f"{file}|{key}"] *)
Definition secret_key (e : entry) : string := a_file e +:+ "|" +:+ a_key e.

(** The body of the loop of [analyze_json] and of [analyze_jsonl]. *)
Definition index_entry (index : list (string * secret_data)) (e : entry)
  : list (string * secret_data) :=
  let index1 :=
    match Scanner.dict_get index (secret_key e) with
    | None =>
        Scanner.dict_set index (secret_key e)
          {| sd_file := a_file e; sd_key := a_key e; sd_type := a_type e;
             sd_values := []; sd_authors := ∅; sd_dates := [];
             sd_change_count := 0 |}
    | Some _ => index
    end in
  match Scanner.dict_get index1 (secret_key e) with
  | None => index1
  | Some sd =>
      let values1 :=
        match Scanner.dict_get (sd_values sd) (a_value e) with
        | None =>
            Scanner.dict_set (sd_values sd) (a_value e)
              {| vd_occurrences := 0; vd_authors := ∅; vd_dates := [] |}
        | Some _ => sd_values sd
        end in
      match Scanner.dict_get values1 (a_value e) with
      | None => index1
      | Some vd =>
          let vd1 :=
            {| vd_occurrences := vd_occurrences vd + 1;
               vd_authors := {[ a_author e ]} ∪ vd_authors vd;
               vd_dates := vd_dates vd ++ [a_date e] |} in
          Scanner.dict_set index1 (secret_key e)
            {| sd_file := sd_file sd; sd_key := sd_key sd; sd_type := sd_type sd;
               sd_values := Scanner.dict_set values1 (a_value e) vd1;
               sd_authors := {[ a_author e ]} ∪ sd_authors sd;
               sd_dates := sd_dates sd ++ [a_date e];
               sd_change_count := sd_change_count sd + 1 |}
      end
  end.

Record AuthorStat := { as_author : option string; as_count : nat }.
Record FileStat := { fs_file : string; fs_count : nat }.
Record TypeStat := { ts_type : string; ts_count : nat }.

Record ValueEntry := {
  ve_value : string;
  ve_masked_value : string;
  ve_occurrences : nat;
  ve_authors : list (option string);
  ve_first_seen : option string;
  ve_last_seen : option string
}.

Record Secret := {
  file : string;
  key : string;
  type : string;
  change_count : nat;
  total_occurrences : nat;
  authors : list (option string);
  first_seen : option string;
  last_seen : option string;
  history : list ValueEntry
}.

Record Stats := {
  total_entries : nat;
  unique_secrets : nat;
  unique_values : nat;
  top_authors : list AuthorStat;
  top_files : list FileStat;
  type_breakdown : list TypeStat
}.

Record Analysis := {
  stats : Stats;
  secrets : list Secret
}.

(** [d[k] = d.get(k, 0) + 1] *)
Fixpoint count_up {K : Type} `{EqDecision K} (d : list (K * nat)) (k : K)
  : list (K * nat) :=
  match d with
  | [] => [(k, 1)]
  | (k', n) :: d' =>
      if decide (k' = k) then (k', n + 1) :: d' else (k', n) :: count_up d' k
  end.

(** [sorted(l, key=..., reverse=True)] for a key that is a number: the
    sort is stable. *)
Fixpoint insert_by_count {A : Type} (count : A -> nat) (x : A) (l : list A) : list A :=
  match l with
  | [] => [x]
  | y :: l' =>
      if (count x <? count y)%nat then y :: insert_by_count count x l' else x :: l
  end.
Definition sorted_by_count {A : Type} (count : A -> nat) (l : list A) : list A :=
  foldr (insert_by_count count) [] l.

(** The body of the loop of [_build_stats] over [index.values()], on the
    three dicts of counts and [unique_values]; [set_order] is the order
    in which Python goes over a set of authors. *)
Definition stats_step (set_order : gset (option string) -> list (option string))
    (acc : list (option string * nat) * list (string * nat) * list (string * nat) * nat)
    (kv : string * secret_data)
  : list (option string * nat) * list (string * nat) * list (string * nat) * nat :=
  let '(author_counts, file_counts, type_counts, unique_values) := acc in
  let secret_data := snd kv in
  (foldl count_up author_counts (set_order (sd_authors secret_data)),
   count_up file_counts (sd_file secret_data),
   count_up type_counts (sd_type secret_data),
   unique_values + length (sd_values secret_data)).

Definition _build_stats (set_order : gset (option string) -> list (option string))
    (index : list (string * secret_data)) (total_entries : nat) : Stats :=
  let '(author_counts, file_counts, type_counts, unique_values) :=
    foldl (stats_step set_order) ([], [], [], 0) index in
  {| total_entries := total_entries;
     unique_secrets := length index;
     unique_values := unique_values;
     top_authors :=
       take 10 (sorted_by_count as_count
                  (map (fun '(author, count) =>
                          {| as_author := author; as_count := count |})
                       author_counts));
     top_files :=
       take 10 (sorted_by_count fs_count
                  (map (fun '(file, count) => {| fs_file := file; fs_count := count |})
                       file_counts));
     type_breakdown :=
       sorted_by_count ts_count
         (map (fun '(type_, count) => {| ts_type := type_; ts_count := count |})
              type_counts) |}.

Fixpoint insert_string (x : string) (l : list string) : list string :=
  match l with
  | [] => [x]
  | y :: l' => if String.ltb y x then y :: insert_string x l' else x :: l
  end.

Fixpoint all_strings (l : list (option string)) : option (list string) :=
  match l with
  | [] => Some []
  | None :: _ => None
  | Some x :: l' =>
      match all_strings l' with
      | Some xs => Some (x :: xs)
      | None => None
      end
  end.

(** [sorted(l)] for a list of strings and [None]: a list of two or more
    elements has each of them compared with another, and a comparison
    with [None] raises. *)
Definition py_sorted (l : list (option string)) : outcome (list (option string)) :=
  match l with
  | [] => Return l
  | [_] => Return l
  | _ =>
      match all_strings l with
      | Some xs => Return (map Some (foldr insert_string [] xs))
      | None => Raise
      end
  end.

Definition bind {A B : Type} (m : outcome A) (f : A -> outcome B) : outcome B :=
  match m with
  | Return a => f a
  | Raise => Raise
  end.

Fixpoint map_outcome {A B : Type} (f : A -> outcome B) (l : list A) : outcome (list B) :=
  match l with
  | [] => Return []
  | x :: l' =>
      bind (f x) (fun y => bind (map_outcome f l') (fun ys => Return (y :: ys)))
  end.

(** [dates[0] if dates else ''] and [dates[-1] if dates else ''] *)
Definition first_or_empty (dates : list (option string)) : option string :=
  match dates with
  | [] => Some ""
  | d :: _ => d
  end.
Definition last_or_empty (dates : list (option string)) : option string :=
  List.last dates (Some "").

Definition value_entry_of (set_order : gset (option string) -> list (option string))
    (kv : string * value_data) : outcome ValueEntry :=
  let '(value, value_data) := kv in
  bind (py_sorted (vd_dates value_data)) (fun value_dates =>
  bind (py_sorted (set_order (vd_authors value_data))) (fun value_authors =>
  Return {| ve_value := value; ve_masked_value := mask_secret value;
            ve_occurrences := vd_occurrences value_data;
            ve_authors := value_authors;
            ve_first_seen := first_or_empty value_dates;
            ve_last_seen := last_or_empty value_dates |})).

Definition secret_of_data (set_order : gset (option string) -> list (option string))
    (secret_data : secret_data) : outcome Secret :=
  bind (py_sorted (set_order (sd_authors secret_data))) (fun authors =>
  bind (py_sorted (sd_dates secret_data)) (fun dates =>
  bind (map_outcome (value_entry_of set_order) (sd_values secret_data))
    (fun value_entries =>
  let history := sorted_by_count ve_occurrences value_entries in
  Return {| file := sd_file secret_data; key := sd_key secret_data;
            type := sd_type secret_data;
            change_count := sd_change_count secret_data;
            total_occurrences := sum_list (map ve_occurrences history);
            authors := authors;
            first_seen := first_or_empty dates;
            last_seen := last_or_empty dates;
            history := history |}))).

Definition _build_analysis (set_order : gset (option string) -> list (option string))
    (index : list (string * secret_data)) (stats : Stats) : outcome Analysis :=
  bind (map_outcome (fun kv => secret_of_data set_order (snd kv)) index)
    (fun secrets =>
  Return {| stats := stats; secrets := sorted_by_count change_count secrets |}).

(** [entries] are the objects of the lines of the file that are not
    blank. *)
Definition analyze_jsonl (set_order : gset (option string) -> list (option string))
    (entries : list entry) : outcome Analysis :=
  let index := foldl index_entry [] entries in
  let stats := _build_stats set_order index (length entries) in
  _build_analysis set_order index stats.

(** What [json.load] gives for the file: an object with or without the
    field [results], an array, or something else. *)
Inductive scan_data :=
| Object (results : option (list entry))
| Array (entries : list entry)
| Other.

Definition analyze_json (set_order : gset (option string) -> list (option string))
    (data : scan_data) : outcome Analysis :=
  let results :=
    match data with
    | Object (Some results) => results
    | Object None => []
    | Array entries => entries
    | Other => []
    end in
  analyze_jsonl set_order results.

End Analyzer.

(** ** cleaner.py *)

Module Cleaner.

Record CleanOptions := {
  tool : string;
  source : string;
  file_paths : option (list (string * bool));
  dry_run : bool;
  force : bool;
  no_backup : bool
}.

Record CleanResult := {
  r_tool : string;
  r_source : string;
  secrets_removed : nat;
  patterns_used : nat;
  files_modified : nat;
  success : bool;
  message : string;
  backup_branch : string;
  r_dry_run : bool;
  preview_secrets : option (list string)
}.

(** The repository as the cleaner changes it: the text of the regular
    files of the working tree by path, the branches, the rewrites of the
    history that were run (tool and the rules or secrets handed to it) and
    the number of garbage collections. [files] holds what the cleaner
    itself writes in [_clean_current_files]; what a rewrite tool or the
    garbage collection does to the repository, and the temporary file of
    rules that a rewrite creates in the repository directory and unlinks
    afterwards, are outside this state: a rewrite is recorded by what it
    was called with only. *)
Record repo := {
  files : gmap string string;
  branches : list string;
  rewrites : list (string * list string);
  collections : nat
}.

(** What the environment answers: which tools respond to [--version], the
    process id, the text of the error if [git branch], a rewrite or the
    collection fails, and the output of [git ls-files] ([None] when it
    times out). *)
Record env := {
  filter_repo_found : bool;
  bfg_found : bool;
  getpid : nat;
  branch_error : option string;
  ls_files : option string;
  rewrite_error : string -> option string;
  gc_error : option string
}.

Definition has_filter_repo (e : env) : bool := filter_repo_found e.
Definition has_bfg (e : env) : bool := bfg_found e.

Definition mask_secret (value : string) : string :=
  if (Str.len value <=? 4)%nat then "****"
  else
    let mask_len := Nat.min (Str.len value - 4) 16 in
    Str.take 2 value +:+ Str.repeat_char "*" mask_len +:+ Str.last_n 2 value.

Definition _select_best_tool (e : env) : string :=
  if has_filter_repo e then "filter-repo"
  else if has_bfg e then "bfg"
  else "filter-branch".

(** The characters that [re.escape] protects. *)
Definition special_chars : string :=
  String "009" (String "010" (String "011" (String "012" (String "013"
    " #$&()*+-.?[\]^{|}~")))).

Fixpoint has_char (c : ascii) (s : string) : bool :=
  match s with
  | EmptyString => false
  | String a s' => Ascii.eqb a c || has_char c s'
  end.

Fixpoint re_escape (s : string) : string :=
  match s with
  | EmptyString => EmptyString
  | String c s' =>
      if has_char c special_chars then String "\" (String c (re_escape s'))
      else String c (re_escape s')
  end.

(** The loop of [_group_secrets_into_patterns]: the patterns so far and
    the batch that is being filled. *)
Fixpoint group_loop (secrets : list string) (patterns batch : list string)
  : list string :=
  match secrets with
  | [] =>
      match batch with
      | [] => patterns
      | _ => patterns ++ [Str.join "|" batch]
      end
  | secret :: rest =>
      let batch1 := batch ++ [re_escape secret] in
      if (100 <=? length batch1)%nat
      then group_loop rest (patterns ++ [Str.join "|" batch1]) []
      else group_loop rest patterns batch1
  end.

Definition _group_secrets_into_patterns (secrets : list string) : list string :=
  group_loop secrets [] [].

Definition REMOVED : string := "***REMOVED***".

(** [for secret in secrets: content = content.replace(secret, ...)] *)
Definition scrub (secrets : list string) (content : string) : string :=
  foldl (fun content secret => Str.replace secret REMOVED content) content secrets.

(** One turn of the loop over [allowed_files]: the files and the count *)
Definition clean_file (secrets : list string) (st : gmap string string * nat)
    (file_path : string) : gmap string string * nat :=
  let '(fs, modified_count) := st in
  match fs !! file_path with
  | None => st
  | Some original_content =>
      let content := scrub secrets original_content in
      if String.eqb content original_content then st
      else (<[file_path := content]> fs, S modified_count)
  end.

(** [{f: True for f in tracked_files if f}]: the keys of the dict *)
Fixpoint tracked_keys (tracked_files : list string) (seen : list string) : list string :=
  match tracked_files with
  | [] => seen
  | f :: rest =>
      if String.eqb f "" || Str.mem f seen then tracked_keys rest seen
      else tracked_keys rest (seen ++ [f])
  end.

(** [allowed_files] is given by its keys. *)
Definition _clean_current_files (e : env) (secrets : list string)
    (allowed_files : list string) (fs : gmap string string)
  : gmap string string * nat :=
  match allowed_files with
  | [] =>
      match ls_files e with
      | None => (fs, 0)
      | Some stdout =>
          let tracked_files := Str.split_all (String "010" "") (Str.strip stdout) in
          foldl (clean_file secrets) (fs, 0) (tracked_keys tracked_files [])
      end
  | _ => foldl (clean_file secrets) (fs, 0) allowed_files
  end.

(** The rules that the backend is given. *)
Definition filter_repo_rules (patterns : list string) : list string :=
  map (fun pattern => "regex:" +:+ pattern +:+ "===>" +:+ REMOVED) patterns.

Definition filter_branch_script (patterns : list string) : list string :=
  [Str.join ";"
     (map (fun pattern =>
             "s~" +:+ Str.replace "~" "\~" pattern +:+ "~" +:+ REMOVED +:+ "~g")
          patterns)].

Definition with_files (w : repo) (fs : gmap string string) : repo :=
  {| files := fs; branches := branches w; rewrites := rewrites w;
     collections := collections w |}.

Definition clean (e : env) (secrets : list string) (opts : CleanOptions) (w : repo)
  : CleanResult * repo :=
  match secrets with
  | [] =>
      ({| r_tool := ""; r_source := ""; secrets_removed := 0; patterns_used := 0;
          files_modified := 0; success := true; message := "No secrets to clean";
          backup_branch := ""; r_dry_run := false; preview_secrets := None |}, w)
  | _ =>
      let source := if String.eqb (source opts) "" then "both" else source opts in
      let tool := if String.eqb (tool opts) "auto" then _select_best_tool e
                  else tool opts in
      let patterns := _group_secrets_into_patterns secrets in
      if dry_run opts then
        let preview := map mask_secret (take 10 secrets) in
        ({| r_tool := tool; r_source := source; secrets_removed := 0;
            patterns_used := length patterns; files_modified := 0;
            success := true;
            message := "Dry run: would remove " +:+ Str.of_nat (length secrets)
                       +:+ " secrets using " +:+ tool;
            backup_branch := ""; r_dry_run := true;
            preview_secrets := Some preview |}, w)
      else
        let backup_name := "backup-before-clean-" +:+ Str.of_nat (getpid e) in
        let failed (backup : string) (modified : nat) (msg : string) (w' : repo) :=
          ({| r_tool := tool; r_source := source; secrets_removed := 0;
              patterns_used := length patterns; files_modified := modified;
              success := false; message := msg; backup_branch := backup;
              r_dry_run := false; preview_secrets := None |}, w') in
        match (if no_backup opts then None else branch_error e) with
        | Some err => failed "" 0 ("Failed to create backup branch: " +:+ err) w
        | None =>
            let backup := if no_backup opts then "" else backup_name in
            let w1 :=
              if no_backup opts then w
              else {| files := files w; branches := branches w ++ [backup_name];
                      rewrites := rewrites w; collections := collections w |} in
            let '(fs2, modified) :=
              if String.eqb source "current" || String.eqb source "both" then
                _clean_current_files e secrets
                  (map fst (default [] (file_paths opts))) (files w1)
              else (files w1, 0) in
            let w2 := with_files w1 fs2 in
            let history := String.eqb source "history" || String.eqb source "both" in
            let rules :=
              if String.eqb tool "filter-repo" then filter_repo_rules patterns
              else if String.eqb tool "bfg" then secrets
              else filter_branch_script patterns in
            match (if history then rewrite_error e tool else None) with
            | Some err =>
                failed backup modified
                  ("Failed to clean history with " +:+ tool +:+ ": " +:+ err) w2
            | None =>
                let w3 :=
                  if history
                  then {| files := files w2; branches := branches w2;
                          rewrites := rewrites w2 ++ [(tool, rules)];
                          collections := collections w2 |}
                  else w2 in
                match gc_error e with
                | Some err => failed backup modified ("Failed to clean up git: " +:+ err) w3
                | None =>
                    ({| r_tool := tool; r_source := source;
                        secrets_removed := length secrets;
                        patterns_used := length patterns;
                        files_modified := modified; success := true;
                        message := "Successfully cleaned " +:+ Str.of_nat (length secrets)
                                   +:+ " secrets from " +:+ source;
                        backup_branch := backup; r_dry_run := false;
                        preview_secrets := None |},
                     {| files := files w3; branches := branches w3;
                        rewrites := rewrites w3; collections := S (collections w3) |})
                end
            end
        end
  end.

(** *** Loading the secrets of a scan file

    One object of a scan file, as far as the loaders read it: the fields
    [value] and [file], when the object has them, are strings; the field
    [commit] can be absent, [null] or a string. *)
Record item := {
  i_value : option string;
  i_file : option string;
  i_commit : option (option string)
}.

Record LoadSecretsResult := {
  l_secrets : list string;
  l_file_paths : list string;
  l_file_map : list (string * nat);
  l_source : string
}.

(** The body of the loop over the objects, on the lists [secrets] and
    [file_paths], the dict [file_map] and the set [source_set]. *)
Definition load_item
    (st : list string * list string * list (string * nat) * gset string)
    (it : item) : list string * list string * list (string * nat) * gset string :=
  let '(secrets, file_paths, file_map, source_set) := st in
  let secrets1 :=
    match i_value it with
    | Some v => secrets ++ [v]
    | None => secrets
    end in
  let '(file_paths1, file_map1) :=
    match i_file it with
    | Some fp =>
        (if Str.mem fp file_paths then file_paths else file_paths ++ [fp],
         Scanner.dict_set file_map fp (default 0 (Scanner.dict_get file_map fp) + 1))
    | None => (file_paths, file_map)
    end in
  let source_set1 :=
    match i_commit it with
    | Some (Some (String _ _)) => {[ "history" ]} ∪ source_set
    | _ => {[ "current" ]} ∪ source_set
    end in
  (secrets1, file_paths1, file_map1, source_set1).

Definition source_str (source_set : gset string) : string :=
  if decide ("history" ∈ source_set /\ "current" ∈ source_set) then "both"
  else if decide ("history" ∈ source_set) then "history"
  else "current".

(** [items] are the objects of the lines of the file that are not blank;
    [set_order] is the order in which Python goes over a set of
    strings. *)
Definition load_secrets_from_jsonl (set_order : gset string -> list string)
    (items : list item) : LoadSecretsResult :=
  let '(secrets, file_paths, file_map, source_set) :=
    foldl load_item ([], [], [], ∅) items in
  {| l_secrets := set_order (list_to_set secrets);
     l_file_paths := file_paths; l_file_map := file_map;
     l_source := source_str source_set |}.

(** [results] is the field of that name of the object of the file,
    [None] when it has none. *)
Definition load_secrets_from_json (set_order : gset string -> list string)
    (results : option (list item)) : LoadSecretsResult :=
  let '(secrets, file_paths, file_map, source_set) :=
    match results with
    | Some items => foldl load_item ([], [], [], ∅) items
    | None => ([], [], [], ∅)
    end in
  {| l_secrets := Str.sorted_longest_first (set_order (list_to_set secrets));
     l_file_paths := file_paths; l_file_map := file_map;
     l_source := source_str source_set |}.

End Cleaner.

(** * Definitions used by the statements

    Concrete inputs, and the notions of the specification that the
    functions above are compared with. *)

(** ** Concrete inputs *)

Definition case_sensitive_config (ignored : list string) : Config.Config :=
  {| Config.keywords := []; Config.ignored_values := ignored;
     Config.ignored_files := []; Config.exclude_binary_extensions := [];
     Config.settings :=
       {| Config.min_secret_length := 3; Config.max_secret_length := 500;
          Config.case_sensitive := true |} |}.


(** A pattern with two groups: a non-empty key before the first [sep] and
    the value after it. *)
Definition around (sep : string) (line : string) : option (list (option string)) :=
  match Str.split_once sep line with
  | Some (String c k, v) => Some [Some (String c k); Some v]
  | _ => None
  end.

Definition key_equals_value : Config.CompiledPattern :=
  {| Config.cp_name := "key_equals_value"; Config.regex := around "=";
     Config.value_group := 2 |}.

Definition yaml_colon : Config.CompiledPattern :=
  {| Config.cp_name := "yaml_colon"; Config.regex := around ":";
     Config.value_group := 2 |}.

Definition demo_config : Config.Config :=
  {| Config.keywords :=
       [ {| Config.kg_name := "password"; Config.kg_patterns := ["password"; "pwd"] |};
         {| Config.kg_name := "api_key"; Config.kg_patterns := ["api_key"; "apikey"] |} ];
     Config.ignored_values := ["null"; "changeme"];
     Config.ignored_files := ["*.md"; "node_modules/**"];
     Config.exclude_binary_extensions := [".png"];
     Config.settings :=
       {| Config.min_secret_length := 3; Config.max_secret_length := 500;
          Config.case_sensitive := false |} |}.

Definition demo_scanner : Scanner.t :=
  {| Scanner.config := demo_config;
     Scanner.compiled_patterns := [key_equals_value; yaml_colon] |}.

(** A pattern whose value group is optional, as [^([^=]+)=(.+)?$] of an
    [extractionPatterns] entry with [valueGroup] 2: a non-empty key
    before the first [sep]; the second group is the text after it, and
    took no part in the match when there is none ([match.groups()] has
    [None] there). *)
Definition optional_after (sep : string) (line : string)
  : option (list (option string)) :=
  match Str.split_once sep line with
  | Some (String c k, EmptyString) => Some [Some (String c k); None]
  | Some (String c k, v) => Some [Some (String c k); Some v]
  | _ => None
  end.

Definition optional_value : Config.CompiledPattern :=
  {| Config.cp_name := "optional_value"; Config.regex := optional_after "=";
     Config.value_group := 2 |}.

(** The scanner of a configuration whose first pattern has an optional
    value group. *)
Definition optional_scanner : Scanner.t :=
  {| Scanner.config := demo_config;
     Scanner.compiled_patterns := [optional_value; yaml_colon] |}.

Definition demo_env : Cleaner.env :=
  {| Cleaner.filter_repo_found := false; Cleaner.bfg_found := true;
     Cleaner.getpid := 4242; Cleaner.branch_error := None;
     Cleaner.ls_files := Some "a.env
b.env
";
     Cleaner.rewrite_error := fun _ => None; Cleaner.gc_error := None |}.

Definition demo_repo : Cleaner.repo :=
  {| Cleaner.files := <["a.env" := "password=hunter2"]> (<["b.env" := "x=1"]> ∅);
     Cleaner.branches := ["main"]; Cleaner.rewrites := [];
     Cleaner.collections := 0 |}.

Definition dry_run_options : Cleaner.CleanOptions :=
  {| Cleaner.tool := "auto"; Cleaner.source := ""; Cleaner.file_paths := None;
     Cleaner.dry_run := true; Cleaner.force := false; Cleaner.no_backup := false |}.

(** ** The extraction as the specification words it *)

Module Spec.

Import Config.

(** On a match, capture group 1 is the key and group [valueGroupIndex]
    the value. *)
Definition candidate (line : string) (p : CompiledPattern) : option (string * string) :=
  match regex p line with
  | None => None
  | Some groups =>
      match groups !! 0, groups !! Z.to_nat (value_group p - 1) with
      | Some (Some key), Some (Some value) => Some (key, value)
      | _, _ => None
      end
  end.

(** The first pair, in the declared order of the patterns, whose value
    [shouldIgnoreValue] does not reject. *)
Definition extractKeyValue (cfg : Config) (pats : list CompiledPattern)
    (line : string) : option (string * string) :=
  head (filter (fun kv => should_ignore_value cfg kv.2 = false)
               (omap (candidate line) pats)).

(** A pattern whose match on [line], if any, has its key group and its
    value group. *)
Definition groups_present (line : string) (p : CompiledPattern) : bool :=
  match regex p line with
  | None => true
  | Some groups =>
      (1 <=? value_group p)%Z && (value_group p <=? Z.of_nat (length groups))%Z
      && match groups !! 0, groups !! Z.to_nat (value_group p - 1) with
         | Some (Some _), Some (Some _) => true
         | _, _ => false
         end
  end.

End Spec.

(** ** Shapes of the lines of the diff stream *)

(** A content line: it starts with [+] but not with [+++]. *)
Definition added_line (raw : string) : bool :=
  let line := Str.rstrip_nl raw in
  Str.startswith line "+" && negb (Str.startswith line "+++").

(** A file header: it starts with [diff --git]. *)
Definition file_header (raw : string) : bool :=
  Str.startswith (Str.rstrip_nl raw) "diff --git".

(** ** Repositories for the scenarios *)



(** A history of one commit and a working tree that still has the line. *)
Definition one_commit_driver (keyword : string) : option (list string) :=
  if String.eqb keyword "api_key"
  then Some [ "COMMIT_START|c1|alice|2020-01-01T10:00:00+00:00";
              "diff --git a/.env b/.env";
              "+++ b/.env";
              "+api_key=AAA111" ]
  else Some [].

Definition one_file_tree : list Scanner.tree_file :=
  [ {| Scanner.rel_path := ".env"; Scanner.filename := ".env";
       Scanner.size := Some 15%N; Scanner.content := Some ["api_key=AAA111"] |} ].

(** ** Shape of the index *)

(** The [(file, key)] pair that a secret stands for. *)
Definition pair_of (s : Scanner.Secret) : string * string :=
  (Scanner.file s, Scanner.key s).

(** A dictionary has each of its keys once. *)
Definition dict_ok {V : Type} (d : list (string * V)) : Prop := NoDup (map fst d).

(** The index is a dictionary of dictionaries. *)
Definition index_ok (index : Scanner.index_t) : Prop :=
  dict_ok index /\ Forall dict_ok (map snd index).

(** An index that holds [AAA111] under [(.env, api_key)], and the event of a
    later commit that has [BBB222] there. *)
Definition first_value : Scanner.SecretValue :=
  {| Scanner.value := "AAA111"; Scanner.masked_value := "AA**11";
     Scanner.commits := [Some "c1"]; Scanner.authors := [Some "alice"];
     Scanner.first_seen := Some "2020-01-01T10:00:00+00:00";
     Scanner.last_seen := Some "2020-01-01T10:00:00+00:00" |}.


Definition second_value_hit : Scanner.hit :=
  {| Scanner.h_file := ".env"; Scanner.h_key := "api_key";
     Scanner.h_value := "BBB222"; Scanner.h_commit := Some "c2";
     Scanner.h_author := Some "bob";
     Scanner.h_date := Some "2021-06-01T10:00:00+00:00" |}.

(** The index after the merges of a sequence of events, from the empty
    index: what [scan] holds under any interleaving of its keyword tasks,
    each merge being made under the lock. *)
Definition merged (hits : list Scanner.hit) : Scanner.index_t :=
  foldl (fun index h => (Scanner.merge index h).1) [] hits.

(** ** What a streaming scan comes upon

    The entries that a streaming scan would write if nothing had been seen
    before, in the order in which it meets them. *)

(** [(file, key, value)] of an entry, and the string under which the
    streaming scans remember it. *)
Definition triple (e : Scanner.StreamEntry) : string * string * string :=
  (Scanner.e_file e, Scanner.e_key e, Scanner.e_value e).

Definition rendering (e : Scanner.StreamEntry) : string :=
  Scanner.dedup_key (Scanner.e_file e) (Scanner.e_key e) (Scanner.e_value e).

Definition entry_of_hit (self : Scanner.t) (h : Scanner.hit) : Scanner.StreamEntry :=
  {| Scanner.e_file := Scanner.h_file h; Scanner.e_key := Scanner.h_key h;
     Scanner.e_value := Scanner.h_value h;
     Scanner.e_masked_value := Scanner.mask_secret (Scanner.h_value h);
     Scanner.e_type :=
       Scanner.secret_type_of (Config.keywords (Scanner.config self)) (Scanner.h_key h);
     Scanner.e_commit := Scanner.h_commit h; Scanner.e_author := Scanner.h_author h;
     Scanner.e_date := Scanner.h_date h |}.

Definition entry_of_current (self : Scanner.t) (rel key value now : string)
  : Scanner.StreamEntry :=
  {| Scanner.e_file := rel; Scanner.e_key := key; Scanner.e_value := value;
     Scanner.e_masked_value := Scanner.mask_secret value;
     Scanner.e_type := Scanner.secret_type_of (Config.keywords (Scanner.config self)) key;
     Scanner.e_commit := Some "HEAD"; Scanner.e_author := Some "";
     Scanner.e_date := Some now |}.

(** The hits of one keyword, up to an exception. *)
Fixpoint keyword_candidates (self : Scanner.t) (keyword : string)
    (cur : Scanner.cursor) (lines : list string) : list Scanner.StreamEntry :=
  match lines with
  | [] => []
  | raw :: rest =>
      match Scanner.read_line self keyword cur raw with
      | (_, Raise) => []
      | (cur', Return None) => keyword_candidates self keyword cur' rest
      | (cur', Return (Some h)) =>
          entry_of_hit self h :: keyword_candidates self keyword cur' rest
      end
  end.

Definition history_candidates (self : Scanner.t)
    (driver : string -> option (list string)) : list Scanner.StreamEntry :=
  flat_map (fun keyword =>
              match driver keyword with
              | None => []
              | Some lines =>
                  keyword_candidates self keyword Scanner.initial_cursor lines
              end)
           (Config.get_all_keywords (Scanner.config self)).

(** The extractions of one line of a file, and whether one raised. *)
Fixpoint line_candidates (self : Scanner.t) (rel line now : string)
    (kws : list string) : list Scanner.StreamEntry * bool :=
  match kws with
  | [] => ([], false)
  | keyword :: rest =>
      if Str.contains keyword line then
        match Scanner.extract_key_value self line with
        | Raise => ([], true)
        | Return (Some (String _ _ as key), Some (String _ _ as value), true) =>
            (entry_of_current self rel key value now
               :: (line_candidates self rel line now rest).1,
             (line_candidates self rel line now rest).2)
        | Return _ => line_candidates self rel line now rest
        end
      else line_candidates self rel line now rest
  end.

Fixpoint file_candidates (self : Scanner.t) (rel now : string)
    (kws lines : list string) : list Scanner.StreamEntry :=
  match lines with
  | [] => []
  | line :: rest =>
      match line_candidates self rel line now kws with
      | (l, true) => l
      | (l, false) => l ++ file_candidates self rel now kws rest
      end
  end.

Definition current_candidates (self : Scanner.t) (tree : list Scanner.tree_file)
    (now : string) : list Scanner.StreamEntry :=
  flat_map (fun f =>
              match Scanner.lines_to_search self f with
              | None => []
              | Some lines =>
                  file_candidates self (Scanner.rel_path f) now
                    (Config.get_all_keywords (Scanner.config self)) lines
              end)
           tree.

(** The candidates that get written when nothing has been seen. *)
Definition written (l : list Scanner.StreamEntry) : list Scanner.StreamEntry :=
  (Scanner.copy_unseen l [] ∅).1.

(** Two candidates with different triples and one rendering, the first of
    which is the first candidate with that rendering. *)
Definition collide_in (l : list Scanner.StreamEntry) (e1 e2 : Scanner.StreamEntry) : Prop :=
  exists pre mid post,
    l = pre ++ e1 :: mid ++ e2 :: post
    /\ Forall (fun x => rendering x <> rendering e1) pre
    /\ rendering e1 = rendering e2
    /\ triple e1 <> triple e2.

(** A history and a working tree in which the file [a] has the line
    [k=v|my_api_key_1] and the file [a|k] the line [v=my_api_key_1]. *)
Definition colliding_driver (keyword : string) : option (list string) :=
  if String.eqb keyword "api_key"
  then Some [ "COMMIT_START|c2|bob|2021-06-01T10:00:00+00:00";
              "";
              "diff --git a/a b/a";
              "new file mode 100644";
              "--- /dev/null";
              "+++ b/a";
              "@@ -0,0 +1 @@";
              "+k=v|my_api_key_1";
              "diff --git a/a|k b/a|k";
              "new file mode 100644";
              "--- /dev/null";
              "+++ b/a|k";
              "@@ -0,0 +1 @@";
              "+v=my_api_key_1" ]
  else Some [].

Definition colliding_tree : list Scanner.tree_file :=
  [ {| Scanner.rel_path := "a"; Scanner.filename := "a";
       Scanner.size := Some 18%N; Scanner.content := Some ["k=v|my_api_key_1"] |};
    {| Scanner.rel_path := "a|k"; Scanner.filename := "a|k";
       Scanner.size := Some 16%N; Scanner.content := Some ["v=my_api_key_1"] |} ].

(** ** The working-tree pass of the cleaner *)

(** The paths that [_clean_current_files] goes over: [allowed_files], or
    the tracked files when it is empty; [None] when [git ls-files] fails. *)
Definition files_to_clean (e : Cleaner.env) (allowed_files : list string)
  : option (list string) :=
  match allowed_files with
  | [] =>
      match Cleaner.ls_files e with
      | None => None
      | Some stdout =>
          Some (Cleaner.tracked_keys
                  (Str.split_all (String "010" "") (Str.strip stdout)) [])
      end
  | _ => Some allowed_files
  end.

(** No secret occurs in [content]. *)
Definition free_of (secrets : list string) (content : string) : bool :=
  forallb (fun secret => negb (Str.contains secret content)) secrets.

(** The file at [path], if there is one, has none of the secrets. *)
Definition settled (secrets : list string) (fs : gmap string string) (path : string)
  : bool :=
  match fs !! path with
  | None => true
  | Some content => free_of secrets content
  end.

(** No secret occurs in any of the files at [paths]. *)
Definition no_secret_left (secrets : list string) (fs : gmap string string)
    (paths : option (list string)) : bool :=
  match paths with
  | None => true
  | Some l => forallb (settled secrets fs) l
  end.

(** No character of [a] occurs in [b]. *)
Definition apart (a b : string) : bool :=
  Config.all_chars (fun c => negb (Cleaner.has_char c b)) a.

(** A secret that is not empty and has no character of the marker. *)
Definition plain (secret : string) : bool :=
  negb (String.eqb secret "") && apart Cleaner.REMOVED secret.

Definition removed_env : Cleaner.env :=
  {| Cleaner.filter_repo_found := false; Cleaner.bfg_found := false;
     Cleaner.getpid := 4242; Cleaner.branch_error := None;
     Cleaner.ls_files := Some "a.env
";
     Cleaner.rewrite_error := fun _ => None; Cleaner.gc_error := None |}.

Definition removed_files : gmap string string :=
  <["a.env" := "token=REMOVED"]> ∅.

(** ** What the scans let through *)

(** An event that passed the tests of the loop head: its file is set and
    not ignored, its key and value are not empty and its value is not
    rejected. *)
Definition good_hit (self : Scanner.t) (h : Scanner.hit) : Prop :=
  Scanner.h_file h <> "" /\ Scanner.h_key h <> "" /\ Scanner.h_value h <> ""
  /\ Config.should_ignore_file (Scanner.config self) (Scanner.h_file h) = false
  /\ Config.should_ignore_value (Scanner.config self) (Scanner.h_value h) = false.

(** Every record of the index, with the file and the key it is under,
    satisfies [R]. *)
Definition index_all (R : string -> string -> Scanner.SecretValue -> Prop)
    (index : Scanner.index_t) : Prop :=
  forall f fi k sv, (f, fi) ∈ index -> (k, sv) ∈ fi -> R f k sv.

(** The record that [merge] creates for a pair that is new. *)
Definition fresh_value (h : Scanner.hit) : Scanner.SecretValue :=
  {| Scanner.value := Scanner.h_value h;
     Scanner.masked_value := Scanner.mask_secret (Scanner.h_value h);
     Scanner.commits := []; Scanner.authors := [];
     Scanner.first_seen := Some ""; Scanner.last_seen := Some "" |}.

(** The record that [scan_current] creates. *)
Definition current_value (value now : string) : Scanner.SecretValue :=
  {| Scanner.value := value; Scanner.masked_value := Scanner.mask_secret value;
     Scanner.commits := []; Scanner.authors := [];
     Scanner.first_seen := Some now; Scanner.last_seen := Some now |}.

(** What the loops of [scan_both] keep of [all_secrets], given the secrets
    [A] of the history and [B] of the working tree: every secret sits under
    its own key and is one of [A], or one of [B] whose key no secret of [A]
    has. *)
Definition both_ok (A B : list Scanner.Secret)
    (all_secrets : list (string * Scanner.Secret)) : Prop :=
  Forall (fun kv =>
            kv.1 = Scanner.both_key kv.2
            /\ (kv.2 ∈ A
                \/ (kv.2 ∈ B /\ forall h, h ∈ A -> Scanner.both_key h <> kv.1)))
         all_secrets.

(** The dictionary that [scan_both] ends with. *)
Definition both_dict (R Rc : Scanner.ScanResult) : list (string * Scanner.Secret) :=
  foldl (fun all_secrets secret =>
           match Scanner.dict_get all_secrets (Scanner.both_key secret) with
           | None => Scanner.dict_set all_secrets (Scanner.both_key secret) secret
           | Some _ => all_secrets
           end)
        (foldl (fun all_secrets secret =>
                  Scanner.dict_set all_secrets (Scanner.both_key secret) secret)
               [] (Scanner.secrets R))
        (Scanner.secrets Rc).

(** The secret that the scans of the one-commit history report. *)
Definition found_secret : Scanner.Secret :=
  {| Scanner.file := ".env"; Scanner.key := "api_key"; Scanner.type := "api_key";
     Scanner.change_count := 1; Scanner.total_occurrences := 1;
     Scanner.s_authors := [Some "alice"];
     Scanner.history := [first_value] |}.

(** The secret that the walk of the one-file tree reports at [now]. *)
Definition walked_secret (now : string) : Scanner.Secret :=
  {| Scanner.file := ".env"; Scanner.key := "api_key"; Scanner.type := "api_key";
     Scanner.change_count := 0; Scanner.total_occurrences := 0;
     Scanner.s_authors := [];
     Scanner.history := [current_value "AAA111" now] |}.

(** The record of an accepted pair, under a file that is not ignored. *)
Definition accepted_record (self : Scanner.t) (f k : string) (sv : Scanner.SecretValue)
  : Prop :=
  Config.should_ignore_file (Scanner.config self) f = false
  /\ k <> "" /\ Scanner.value sv <> ""
  /\ Config.should_ignore_value (Scanner.config self) (Scanner.value sv) = false
  /\ Scanner.masked_value sv = Scanner.mask_secret (Scanner.value sv).

(** The commits and the authors of a record are listed once each, and
    there is at least one of each. *)
Definition distinct_record (sv : Scanner.SecretValue) : Prop :=
  NoDup (Scanner.commits sv) /\ NoDup (Scanner.authors sv)
  /\ Scanner.commits sv <> [] /\ Scanner.authors sv <> [].

(** ** Order of the secrets *)

(** [(a.file, a.key) < (b.file, b.key)] as a relation. *)
Definition file_key_before (a b : Scanner.Secret) : Prop :=
  Scanner.file_key_lt a b = true.

(** ** Dates of a record *)

(** When both dates of a record are set, the last is not before the
    first (strings compare as Python compares them, character by
    character). *)
Definition dated_record (sv : Scanner.SecretValue) : Prop :=
  forall a b, Scanner.first_seen sv = Some a -> Scanner.last_seen sv = Some b ->
              String.ltb b a = false.

(** The lengths that the settings accept. *)
Definition within_bounds (cfg : Config.Config) (value : string) : Prop :=
  (Config.min_secret_length (Config.settings cfg) <= Z.of_nat (Str.len value)
   <= Config.max_secret_length (Config.settings cfg))%Z.

(** ** Entries of the streams *)

(** An entry that stands for an accepted pair under a file that is not
    ignored, with the mask and the type that the scanner gives it. *)
Definition accepted_entry (self : Scanner.t) (e : Scanner.StreamEntry) : Prop :=
  Config.should_ignore_file (Scanner.config self) (Scanner.e_file e) = false
  /\ Scanner.e_key e <> "" /\ Scanner.e_value e <> ""
  /\ Config.should_ignore_value (Scanner.config self) (Scanner.e_value e) = false
  /\ Scanner.e_masked_value e = Scanner.mask_secret (Scanner.e_value e)
  /\ Scanner.e_type e
     = Scanner.secret_type_of (Config.keywords (Scanner.config self)) (Scanner.e_key e).

(** [key] has the type [ty] under [groups]: the name of the first group
    whose patterns have [key] as an element, ["unknown"] when no group
    has. *)
Definition typed_by (groups : list Config.KeywordGroup) (key ty : string) : Prop :=
  ((key ∉ flat_map Config.kg_patterns groups) /\ ty = "unknown")
  \/ (exists pre g post,
        groups = pre ++ g :: post
        /\ key ∈ Config.kg_patterns g
        /\ Forall (fun g' => key ∉ Config.kg_patterns g') pre
        /\ ty = Config.kg_name g).

(** ** A configuration whose ignored file pattern starts with [**] *)

Definition star_scanner : Scanner.t :=
  {| Scanner.config :=
       {| Config.keywords := Config.keywords demo_config;
          Config.ignored_values := Config.ignored_values demo_config;
          Config.ignored_files := ["**/*.min.js"];
          Config.exclude_binary_extensions := [];
          Config.settings := Config.settings demo_config |};
     Scanner.compiled_patterns := [key_equals_value; yaml_colon] |}.

(** ** A scanner with the default configuration *)

Definition default_scanner : Scanner.t :=
  {| Scanner.config := Config.default_config;
     Scanner.compiled_patterns := [key_equals_value; yaml_colon] |}.

(** ** Counting the files that the working-tree pass rewrites *)

(** The file at [path] exists and scrubbing changes its text. *)
Definition changed (secrets : list string) (fs : gmap string string) (path : string)
  : bool :=
  match fs !! path with
  | None => false
  | Some content => negb (String.eqb (Cleaner.scrub secrets content) content)
  end.

(** [ceil(n / 100)] *)
Definition batches (n : nat) : nat := (n + 99) / 100.

(** ** What a run of the cleaner does to the repository *)

(** The name of the backup branch. *)
Definition backup_name (e : Cleaner.env) : string :=
  "backup-before-clean-" +:+ Str.of_nat (Cleaner.getpid e).

(** [opts.source] after [if not opts.source: opts.source = "both"]. *)
Definition source_of (opts : Cleaner.CleanOptions) : string :=
  if String.eqb (Cleaner.source opts) "" then "both" else Cleaner.source opts.

(** [opts.tool], with ["auto"] resolved. *)
Definition tool_of (e : Cleaner.env) (opts : Cleaner.CleanOptions) : string :=
  if String.eqb (Cleaner.tool opts) "auto" then Cleaner._select_best_tool e
  else Cleaner.tool opts.

(** An environment in which [git branch] fails, and options that ask for
    a real run on the working tree and the history. *)
Definition no_branch_env : Cleaner.env :=
  {| Cleaner.filter_repo_found := false; Cleaner.bfg_found := true;
     Cleaner.getpid := 4242; Cleaner.branch_error := Some "fatal: not a valid branch";
     Cleaner.ls_files := Some "a.env
b.env
";
     Cleaner.rewrite_error := fun _ => None; Cleaner.gc_error := None |}.

Definition run_options : Cleaner.CleanOptions :=
  {| Cleaner.tool := "auto"; Cleaner.source := ""; Cleaner.file_paths := None;
     Cleaner.dry_run := false; Cleaner.force := false; Cleaner.no_backup := false |}.

(** ** Sets, and the objects of a stream file *)

(** [set_order] lists the elements of every set, each one once. *)
Definition enumerates (set_order : gset string -> list string) : Prop :=
  forall X, NoDup (set_order X) /\ forall x, x ∈ set_order X <-> x ∈ X.

(** No element is shorter than one that follows it. *)
Definition longest_first (l : list string) : Prop :=
  StronglySorted (fun a b => Str.len b <= Str.len a) l.

(** The object that [json.loads] gives back for the line of an entry. *)
Definition item_of_entry (e : Scanner.StreamEntry) : Cleaner.item :=
  {| Cleaner.i_value := Some (Scanner.e_value e);
     Cleaner.i_file := Some (Scanner.e_file e);
     Cleaner.i_commit := Some (Scanner.e_commit e) |}.

(** An object whose [commit] is there and counts as true. *)
Definition from_history (it : Cleaner.item) : bool :=
  match Cleaner.i_commit it with
  | Some (Some (String _ _)) => true
  | _ => false
  end.

(** The number of objects with the file [fp]. *)
Definition objects_of_file (items : list Cleaner.item) (fp : string) : nat :=
  length (List.filter (fun it => bool_decide (Cleaner.i_file it = Some fp)) items).

(** The options that the interface builds from a loaded file. *)
Definition options_of (tool : string) (dry_run : bool)
    (result : Cleaner.LoadSecretsResult) : Cleaner.CleanOptions :=
  {| Cleaner.tool := tool; Cleaner.source := Cleaner.l_source result;
     Cleaner.file_paths :=
       Some (map (fun fp => (fp, true)) (Cleaner.l_file_paths result));
     Cleaner.dry_run := dry_run; Cleaner.force := false;
     Cleaner.no_backup := false |}.

(** What the loop of the loaders has built from the objects [done]: the
    values in order, the distinct files in the order of their first
    object, the number of objects of every file, and the two marks of
    the source set. *)
Definition load_inv (done : list Cleaner.item)
    (st : list string * list string * list (string * nat) * gset string) : Prop :=
  let '(secrets, file_paths, file_map, source_set) := st in
  secrets = omap Cleaner.i_value done
  /\ NoDup file_paths
  /\ (forall fp, fp ∈ file_paths <-> exists it, it ∈ done /\ Cleaner.i_file it = Some fp)
  /\ map fst file_map = file_paths
  /\ (forall fp, default 0 (Scanner.dict_get file_map fp) = objects_of_file done fp)
  /\ ("history" ∈ source_set <-> existsb from_history done = true)
  /\ ("current" ∈ source_set <-> forallb from_history done = false).

(** ** What the index of the analyzer holds *)

(** The entries with the key string [k], and those of them with the value
    [v]. *)
Definition of_key (k : string) (e : Analyzer.entry) : bool :=
  String.eqb (Analyzer.secret_key e) k.
Definition of_value (k v : string) (e : Analyzer.entry) : bool :=
  of_key k e && String.eqb (Analyzer.a_value e) v.

(** The record of the value [v] under [k] accounts for the entries
    [done]. *)
Definition value_acc (done : list Analyzer.entry) (k v : string)
    (vd : Analyzer.value_data) : Prop :=
  Analyzer.vd_occurrences vd = length (List.filter (of_value k v) done)
  /\ Analyzer.vd_dates vd = map Analyzer.a_date (List.filter (of_value k v) done)
  /\ (forall x, x ∈ Analyzer.vd_authors vd
                <-> x ∈ map Analyzer.a_author (List.filter (of_value k v) done)).

(** The record under [k] accounts for the entries [done]. *)
Definition secret_acc (done : list Analyzer.entry) (k : string)
    (sd : Analyzer.secret_data) : Prop :=
  k = Analyzer.sd_file sd +:+ "|" +:+ Analyzer.sd_key sd
  /\ NoDup (map fst (Analyzer.sd_values sd))
  /\ Analyzer.sd_change_count sd = length (List.filter (of_key k) done)
  /\ Analyzer.sd_dates sd = map Analyzer.a_date (List.filter (of_key k) done)
  /\ (forall x, x ∈ Analyzer.sd_authors sd
                <-> x ∈ map Analyzer.a_author (List.filter (of_key k) done))
  /\ sum_list (map (fun kv => Analyzer.vd_occurrences (snd kv)) (Analyzer.sd_values sd))
     = Analyzer.sd_change_count sd
  /\ (forall v vd, (v, vd) ∈ Analyzer.sd_values sd ->
                   value_acc done k v vd /\ 1 <= Analyzer.vd_occurrences vd)
  /\ (forall e, e ∈ done -> of_key k e = true ->
                Analyzer.a_value e ∈ map fst (Analyzer.sd_values sd)).

Definition analyzer_index_ok (done : list Analyzer.entry)
    (index : list (string * Analyzer.secret_data)) : Prop :=
  NoDup (map fst index)
  /\ (forall k sd, (k, sd) ∈ index ->
                   secret_acc done k sd /\ 1 <= Analyzer.sd_change_count sd)
  /\ sum_list (map (fun kv => Analyzer.sd_change_count (snd kv)) index) = length done
  /\ (forall e, e ∈ done -> Analyzer.secret_key e ∈ map fst index).

(** [f"{file}|{key}"] of a secret of the analysis. *)
Definition analysis_key (s : Analyzer.Secret) : string :=
  Analyzer.file s +:+ "|" +:+ Analyzer.key s.

(** The secret [s] of the analysis accounts for the entries. *)
Definition secret_accounts (entries : list Analyzer.entry) (s : Analyzer.Secret) : Prop :=
  Analyzer.change_count s = length (List.filter (of_key (analysis_key s)) entries)
  /\ 1 <= Analyzer.change_count s
  /\ Analyzer.total_occurrences s = Analyzer.change_count s
  /\ Analyzer.history s <> []
  /\ NoDup (map Analyzer.ve_value (Analyzer.history s))
  /\ (forall ve, ve ∈ Analyzer.history s ->
        Analyzer.ve_occurrences ve
        = length (List.filter (of_value (analysis_key s) (Analyzer.ve_value ve)) entries)
        /\ 1 <= Analyzer.ve_occurrences ve
        /\ Analyzer.ve_masked_value ve = Analyzer.mask_secret (Analyzer.ve_value ve))
  /\ Analyzer.total_occurrences s
     = sum_list (map Analyzer.ve_occurrences (Analyzer.history s)).

(** The sets of authors are gone over in some order, each author once. *)
Definition enumerates_authors
    (set_order : gset (option string) -> list (option string)) : Prop :=
  forall X, NoDup (set_order X) /\ forall x, x ∈ set_order X <-> x ∈ X.

(** No element has a smaller count than one that follows it. *)
Definition largest_first {A : Type} (count : A -> nat) (l : list A) : Prop :=
  StronglySorted (fun a b => count b <= count a) l.

(** The entry that the analyzer reads from the line of a stream entry. *)
Definition entry_of_stream (e : Scanner.StreamEntry) : Analyzer.entry :=
  {| Analyzer.a_file := Scanner.e_file e; Analyzer.a_key := Scanner.e_key e;
     Analyzer.a_value := Scanner.e_value e; Analyzer.a_type := Scanner.e_type e;
     Analyzer.a_author := Scanner.e_author e; Analyzer.a_date := Scanner.e_date e |}.

(** The value entry [ve] is the one built from the record of [kv]. *)
Definition entry_built (kv : string * Analyzer.value_data) (ve : Analyzer.ValueEntry)
  : Prop :=
  Analyzer.ve_value ve = fst kv
  /\ Analyzer.ve_occurrences ve = Analyzer.vd_occurrences (snd kv)
  /\ Analyzer.ve_masked_value ve = Analyzer.mask_secret (fst kv).

(** The secret [s] is the one built from the record [sd]. *)
Definition secret_built (sd : Analyzer.secret_data) (s : Analyzer.Secret) : Prop :=
  Analyzer.file s = Analyzer.sd_file sd
  /\ Analyzer.key s = Analyzer.sd_key sd
  /\ Analyzer.type s = Analyzer.sd_type sd
  /\ Analyzer.change_count s = Analyzer.sd_change_count sd
  /\ Analyzer.total_occurrences s
     = sum_list (map Analyzer.ve_occurrences (Analyzer.history s))
  /\ largest_first Analyzer.ve_occurrences (Analyzer.history s)
  /\ exists value_entries,
       Analyzer.history s ≡ₚ value_entries
       /\ Forall2 entry_built (Analyzer.sd_values sd) value_entries.

(** What the loop of [_build_stats] has counted over the records [done]
    of the index. *)
Definition stats_inv (done : list (string * Analyzer.secret_data))
    (acc : list (option string * nat) * list (string * nat) * list (string * nat) * nat)
  : Prop :=
  let '(author_counts, file_counts, type_counts, unique_values) := acc in
  NoDup (map fst author_counts) /\ NoDup (map fst file_counts)
  /\ NoDup (map fst type_counts)
  /\ sum_list (map snd file_counts) = length done
  /\ sum_list (map snd type_counts) = length done
  /\ unique_values
     = sum_list (map (fun kv => length (Analyzer.sd_values (snd kv))) done).

(** Two entries of a file for the scenarios of the analyzer. *)
Definition demo_entries : list Analyzer.entry :=
  [ {| Analyzer.a_file := ".env"; Analyzer.a_key := "api_key";
       Analyzer.a_value := "AAA111"; Analyzer.a_type := "api_key";
       Analyzer.a_author := Some "alice";
       Analyzer.a_date := Some "2020-01-01T10:00:00+00:00" |};
    {| Analyzer.a_file := ".env"; Analyzer.a_key := "api_key";
       Analyzer.a_value := "BBB222"; Analyzer.a_type := "api_key";
       Analyzer.a_author := Some "bob";
       Analyzer.a_date := Some "2021-06-01T10:00:00+00:00" |} ].

(** The order of a set of authors that the scenarios use. *)
Definition authors_in_order (X : gset (option string)) : list (option string) :=
  elements X.

(** The string that the analyzer tells the values of the entries apart
    by: the key string of the entry and its value. *)
Definition value_key (e : Analyzer.entry) : string :=
  Analyzer.secret_key e +:+ "|" +:+ Analyzer.a_value e.

(** ** The dates of a record after an event *)





(** ** The order of first appearance *)

(** The strings of [l], each one once, at the place of its first
    occurrence. *)
Fixpoint distinct_in_order (l : list string) : list string :=
  match l with
  | [] => []
  | x :: l' => x :: List.filter (fun y => negb (String.eqb y x)) (distinct_in_order l')
  end.

(** Three objects of a stream file: two of [b.env], between them one of
    [a.env] that has no commit. *)
Definition demo_items : list Cleaner.item :=
  [ {| Cleaner.i_value := Some "hunter2"; Cleaner.i_file := Some "b.env";
       Cleaner.i_commit := Some (Some "HEAD") |};
    {| Cleaner.i_value := Some "s3cr3t"; Cleaner.i_file := Some "a.env";
       Cleaner.i_commit := None |};
    {| Cleaner.i_value := Some "hunter2"; Cleaner.i_file := Some "b.env";
       Cleaner.i_commit := Some (Some "abc123") |} ].

(** ** The types of the statistics *)

(** The secrets of the type [t]. *)
Definition secrets_of_type (t : string) (secrets : list Analyzer.Secret)
  : list Analyzer.Secret :=
  List.filter (fun s => String.eqb (Analyzer.type s) t) secrets.

(** What [type_counts] holds after the records [done] of the index: the
    types of the records, each with the number of records that have it. *)
Definition types_counted (done : list (string * Analyzer.secret_data))
    (type_counts : list (string * nat)) : Prop :=
  (forall t, t ∈ map fst type_counts
             <-> exists kv, kv ∈ done /\ Analyzer.sd_type (snd kv) = t)
  /\ forall t, default 0 (Scanner.dict_get type_counts t)
               = length (List.filter
                           (fun kv => String.eqb (Analyzer.sd_type (snd kv)) t) done).
(** * Properties *)

(** ** Strings *)

Lemma len_append (a b : string) : Str.len (a +:+ b) = Str.len a + Str.len b.
Proof. induction a as [|c a IH]; simpl; [done | by rewrite IH]. Qed.

Lemma len_repeat_char (c : ascii) (n : nat) : Str.len (Str.repeat_char c n) = n.
Proof. induction n as [|n IH]; simpl; [done | by rewrite IH]. Qed.

Lemma len_take (n : nat) (s : string) : Str.len (Str.take n s) = Nat.min n (Str.len s).
Proof.
  revert s; induction n as [|n IH]; intros [|c s]; simpl; try done.
  by rewrite IH.
Qed.

Lemma len_drop (n : nat) (s : string) : Str.len (Str.drop n s) = Str.len s - n.
Proof.
  revert s; induction n as [|n IH]; intros [|c s]; simpl; auto.
Qed.

Lemma len_last_n (n : nat) (s : string) :
  Str.len (Str.last_n n s) = Nat.min n (Str.len s).
Proof. unfold Str.last_n. rewrite len_drop. lia. Qed.

(** ** Masking *)

(** The scanner's mask is four asterisks for a short value and otherwise
    has the length of the value, capped at twenty. *)
Lemma scanner_mask_secret_len (v : string) :
  Str.len (Scanner.mask_secret v) =
  if (Str.len v <=? 4)%nat then 4 else Nat.min (Str.len v) 20.
Proof.
  unfold Scanner.mask_secret.
  destruct (Nat.leb_spec (Str.len v) 4) as [H|H]; [done|].
  rewrite !len_append, len_take, len_repeat_char, len_last_n. lia.
Qed.

(** The cleaner masks as the scanner does. *)
Lemma cleaner_mask_secret_eq (v : string) :
  Cleaner.mask_secret v = Scanner.mask_secret v.
Proof. reflexivity. Qed.

(** The analyzer's mask always has the length of the value. *)
Lemma analyzer_mask_secret_len (v : string) :
  Str.len (Analyzer.mask_secret v) =
  if (Str.len v <=? 4)%nat then 4 else Str.len v.
Proof.
  unfold Analyzer.mask_secret.
  destruct (Nat.leb_spec (Str.len v) 4) as [H|H]; [done|].
  rewrite !len_append, len_take, len_repeat_char, len_last_n. lia.
Qed.

(** Up to twenty characters the three masks agree. *)
Lemma analyzer_mask_secret_short (v : string) :
  Str.len v <= 20 -> Analyzer.mask_secret v = Scanner.mask_secret v.
Proof.
  intros H. unfold Analyzer.mask_secret, Scanner.mask_secret.
  destruct (Str.len v <=? 4)%nat; [done|].
  by replace (Nat.min (Str.len v - 4) 16) with (Str.len v - 4) by lia.
Qed.

(** Beyond twenty characters the analyzer's mask is longer than the
    scanner's. *)
Lemma analyzer_mask_secret_long (v : string) :
  20 < Str.len v -> Analyzer.mask_secret v <> Scanner.mask_secret v.
Proof.
  intros H E. apply (f_equal Str.len) in E.
  rewrite analyzer_mask_secret_len, scanner_mask_secret_len in E.
  destruct (Nat.leb_spec (Str.len v) 4); lia.
Qed.

(** C2. The masked rendering is first two characters, [min(|v| - 4, 16)]
    asterisks, last two characters in the scanner and in the cleaner, but
    not in the analyzer: on a value of 21 characters its [mask_secret] puts
    17 asterisks between the first two and the last two characters, where
    the other two put 16. *)
Theorem analyzer_mask_secret_21 :
  Str.len "abcdefghijklmnopqrstu" = 21
  /\ Analyzer.mask_secret "abcdefghijklmnopqrstu" = "ab*****************tu"
  /\ Scanner.mask_secret "abcdefghijklmnopqrstu" = "ab****************tu"
  /\ Cleaner.mask_secret "abcdefghijklmnopqrstu" = "ab****************tu".
Proof. by vm_compute. Qed.

(** ** Ignored values *)

(** With [case_sensitive] set, the entry as written is looked for in the
    lowered value. *)
Lemma should_ignore_value_case_sensitive (cfg : Config.Config) (v : string) :
  Config.case_sensitive (Config.settings cfg) = true ->
  Config.should_ignore_value cfg v = true <->
  ((Z.of_nat (Str.len v) <? Config.min_secret_length (Config.settings cfg))%Z
   || (Config.max_secret_length (Config.settings cfg) <? Z.of_nat (Str.len v))%Z) = true
  \/ Config._looks_like_code v = true
  \/ existsb (Str.startswith (Str.lower v)) Config.url_prefixes = true
  \/ existsb (String.eqb (Str.lower v)) Config.common_keywords = true
  \/ exists ignored, In ignored (Config.ignored_values cfg)
                     /\ Str.contains ignored (Str.lower v) = true.
Proof.
  intros Hcs. unfold Config.should_ignore_value. rewrite Hcs. simpl negb. cbv zeta.
  repeat match goal with
         | |- context [if ?b then true else _] =>
             destruct b eqn:?; [ intuition auto | ]
         end.
  rewrite existsb_exists. intuition (try discriminate).
Qed.

(** Without it, entry and value are both lowered. *)
Lemma should_ignore_value_case_insensitive (cfg : Config.Config) (v : string) :
  Config.case_sensitive (Config.settings cfg) = false ->
  Config.should_ignore_value cfg v = true <->
  ((Z.of_nat (Str.len v) <? Config.min_secret_length (Config.settings cfg))%Z
   || (Config.max_secret_length (Config.settings cfg) <? Z.of_nat (Str.len v))%Z) = true
  \/ Config._looks_like_code v = true
  \/ existsb (Str.startswith (Str.lower v)) Config.url_prefixes = true
  \/ existsb (String.eqb (Str.lower v)) Config.common_keywords = true
  \/ exists ignored, In ignored (Config.ignored_values cfg)
                     /\ Str.contains (Str.lower ignored) (Str.lower v) = true.
Proof.
  intros Hcs. unfold Config.should_ignore_value. rewrite Hcs. simpl negb. cbv zeta.
  repeat match goal with
         | |- context [if ?b then true else _] =>
             destruct b eqn:?; [ intuition auto | ]
         end.
  rewrite existsb_exists. intuition (try discriminate).
Qed.

(** C4. When [caseSensitive] is true an entry that occurs in the value
    exactly as written is to reject it; the code tests the entry against the
    lowered value instead: the entry [XXX] does not reject [abXXXcd], in
    which it occurs, and the entry [xxx], which does not occur in it,
    rejects it. *)
Theorem should_ignore_value_case_sensitive_lowers_value :
  Str.contains "XXX" "abXXXcd" = true
  /\ Config.should_ignore_value (case_sensitive_config ["XXX"]) "abXXXcd" = false
  /\ Str.contains "xxx" "abXXXcd" = false
  /\ Config.should_ignore_value (case_sensitive_config ["xxx"]) "abXXXcd" = true.
Proof. by vm_compute. Qed.

(** ** Extraction *)

Lemma py_index_nonneg {A : Type} (t : list A) (i : Z) :
  (0 <= i)%Z -> py_index t i = t !! Z.to_nat i.
Proof.
  intros H. unfold py_index.
  destruct (Z.leb_spec 0 i); [|lia].
  revert t. generalize (Z.to_nat i). intros n t.
  revert n; induction t as [|x t IH]; intros [|n]; simpl; auto.
Qed.

(** Where every match has its key group and its value group, the patterns
    are tried in declared order; a match whose value [should_ignore_value]
    rejects passes the turn to the next pattern; the result is the pair of
    the first pattern whose value is accepted, and a failure when there is
    none. *)
Theorem extract_key_value_first_accepted (self : Scanner.t) (line : string) :
  forallb (Spec.groups_present line) (Scanner.compiled_patterns self) = true ->
  Scanner.extract_key_value self line =
  Return
    match Spec.extractKeyValue (Scanner.config self) (Scanner.compiled_patterns self) line with
    | Some (key, value) => (Some key, Some value, true)
    | None => (None, None, false)
    end.
Proof.
  unfold Scanner.extract_key_value, Spec.extractKeyValue.
  generalize (Scanner.config self) as cfg.
  induction (Scanner.compiled_patterns self) as [|p pats IH]; intros cfg Hwf.
  - reflexivity.
  - simpl in Hwf. apply andb_prop in Hwf as [Hp Hps].
    specialize (IH cfg Hps).
    simpl. unfold Spec.groups_present in Hp. unfold Spec.candidate at 1.
    destruct (Config.regex p line) as [groups|] eqn:Hre; [|exact IH].
    apply andb_prop in Hp as [Hvg Hg].
    apply andb_prop in Hvg as [Hlo Hhi].
    apply Z.leb_le in Hlo, Hhi.
    rewrite (proj2 (Z.leb_le _ _) Hhi).
    destruct (groups !! 0) as [[key|]|] eqn:Hk; try discriminate.
    destruct (groups !! Z.to_nat (Config.value_group p - 1)) as [[value|]|] eqn:Hv;
      try discriminate.
    rewrite (py_index_nonneg groups 0) by lia.
    change (Z.to_nat 0) with 0. rewrite Hk.
    destruct (Z.ltb_spec (Config.value_group p - 1) (Z.of_nat (length groups))); [|lia].
    rewrite py_index_nonneg by lia. rewrite Hv.
    rewrite filter_cons. simpl.
    destruct (Config.should_ignore_value cfg value) eqn:Hig.
    + rewrite decide_False by discriminate. exact IH.
    + rewrite decide_True by reflexivity. reflexivity.
Qed.

(** On [token=null:hunter2] the first pattern yields a rejected value and
    the second one the result. *)
Lemma extract_key_value_first_accepted_witness :
  forallb (Spec.groups_present "token=null:hunter2")
          (Scanner.compiled_patterns demo_scanner) = true
  /\ Scanner.extract_key_value demo_scanner "token=null:hunter2" =
     Return (Some "token=null", Some "hunter2", true).
Proof.
  split; [reflexivity|].
  apply (extract_key_value_first_accepted demo_scanner "token=null:hunter2").
  reflexivity.
Defined.

(** C6. A value group that took no part in the match is [None] in
    [match.groups()], and [should_ignore_value] raises on it (it takes
    [len(value)]). With a first pattern whose value group is optional,
    the line [token=], on which no pattern yields an accepted value, makes
    [extract_key_value] raise where a failure is to be reported; and the
    line [db:hunter2=], on which the second pattern yields the accepted
    pair [(db, hunter2=)], makes it raise where that pair is to be
    returned. With the value group present (and empty, hence rejected)
    both lines give what is claimed. *)
Theorem extract_key_value_raises_on_an_absent_value :
  Config.regex optional_value "token=" = Some [Some "token"; None]
  /\ Spec.extractKeyValue demo_config [optional_value; yaml_colon] "token=" = None
  /\ Scanner.extract_key_value optional_scanner "token=" = Raise
  /\ Config.regex optional_value "db:hunter2=" = Some [Some "db:hunter2"; None]
  /\ Spec.extractKeyValue demo_config [optional_value; yaml_colon] "db:hunter2="
     = Some ("db", "hunter2=")
  /\ Scanner.extract_key_value optional_scanner "db:hunter2=" = Raise
  /\ Scanner.extract_key_value demo_scanner "token=" = Return (None, None, false)
  /\ Scanner.extract_key_value demo_scanner "db:hunter2="
     = Return (Some "db", Some "hunter2=", true).
Proof. by vm_compute. Qed.

(** ** Dry run *)

(** C9. With a non-empty list of secrets and [dry_run] set, [clean]
    returns at once: [success] is true, [preview_secrets] are the masks of
    the first ten secrets at most, the message names the selected tool and
    the number of secrets, no backup branch is made and the repository is
    as it was. *)
Theorem clean_dry_run (e : Cleaner.env) (secrets : list string)
    (opts : Cleaner.CleanOptions) (w : Cleaner.repo) :
  secrets <> [] ->
  Cleaner.dry_run opts = true ->
  let tool :=
    if String.eqb (Cleaner.tool opts) "auto" then Cleaner._select_best_tool e
    else Cleaner.tool opts in
  let result := fst (Cleaner.clean e secrets opts w) in
  snd (Cleaner.clean e secrets opts w) = w
  /\ Cleaner.success result = true
  /\ Cleaner.r_dry_run result = true
  /\ Cleaner.preview_secrets result = Some (map Cleaner.mask_secret (take 10 secrets))
  /\ (exists preview, Cleaner.preview_secrets result = Some preview /\ length preview <= 10)
  /\ Cleaner.r_tool result = tool
  /\ Cleaner.message result =
     "Dry run: would remove " +:+ Str.of_nat (length secrets) +:+ " secrets using " +:+ tool
  /\ Cleaner.backup_branch result = ""
  /\ Cleaner.files_modified result = 0
  /\ Cleaner.secrets_removed result = 0.
Proof.
  intros Hne Hdry. unfold Cleaner.clean.
  destruct secrets as [|s secrets]; [done|].
  rewrite Hdry. cbv zeta. cbn [fst snd].
  repeat split; try reflexivity.
  eexists; split; [reflexivity|].
  rewrite length_map, length_take. lia.
Qed.

Lemma clean_dry_run_witness :
  ["hunter2"; "s3cr3t-value"; "tok"] <> []
  /\ Cleaner.dry_run dry_run_options = true
  /\ snd (Cleaner.clean demo_env ["hunter2"; "s3cr3t-value"; "tok"] dry_run_options demo_repo)
     = demo_repo
  /\ Cleaner.preview_secrets
       (fst (Cleaner.clean demo_env ["hunter2"; "s3cr3t-value"; "tok"] dry_run_options demo_repo))
     = Some ["hu***r2"; "s3********ue"; "****"].
Proof.
  split; [discriminate|]. split; [reflexivity|].
  pose proof (clean_dry_run demo_env ["hunter2"; "s3cr3t-value"; "tok"]
                dry_run_options demo_repo ltac:(discriminate) eq_refl) as H.
  split; [apply H|]. apply H.
Defined.

(** ** The diff-stream parser *)

(** Before the first file header no line sets the current file nor yields a
    hit, and none raises. *)
Lemma read_line_no_file (self : Scanner.t) (keyword : string)
    (cur : Scanner.cursor) (raw : string) :
  Scanner.current_file cur = None ->
  file_header raw = false ->
  exists cur', Scanner.read_line self keyword cur raw = (cur', Return None)
               /\ Scanner.current_file cur' = None.
Proof.
  intros Hcur Hhdr. unfold file_header in Hhdr. unfold Scanner.read_line.
  cbv zeta. rewrite Hhdr.
  destruct (Str.startswith (Str.rstrip_nl raw) "COMMIT_START|").
  - destruct (Str.split_max "|" 3 (Str.rstrip_nl raw)) as [|? [|? [|? [|? [|? ?]]]]];
      eauto.
  - rewrite Hcur. destruct (_ && _); eauto.
Qed.

(** A content line leaves the cursor as it is. *)
Lemma read_line_added_no_file (self : Scanner.t) (keyword : string)
    (cur : Scanner.cursor) (raw : string) :
  Scanner.current_file cur = None ->
  added_line raw = true ->
  Scanner.read_line self keyword cur raw = (cur, Return None).
Proof.
  intros Hcur Hadd. unfold added_line in Hadd. cbv zeta in Hadd.
  apply andb_prop in Hadd as [Hplus Hnot].
  unfold Scanner.read_line. cbv zeta.
  destruct (Str.startswith (Str.rstrip_nl raw) "COMMIT_START|") eqn:Hc.
  { destruct (Str.rstrip_nl raw) as [|a s]; [done|].
    cbn [Str.startswith] in Hplus, Hc.
    destruct (Ascii.eqb_spec "+" a) as [<-|]; done. }
  destruct (Str.startswith (Str.rstrip_nl raw) "diff --git") eqn:Hd.
  { destruct (Str.rstrip_nl raw) as [|a s]; [done|].
    cbn [Str.startswith] in Hplus, Hd.
    destruct (Ascii.eqb_spec "+" a) as [<-|]; done. }
  rewrite Hplus, Hnot, Hcur. reflexivity.
Qed.

Lemma loops_skip_added_line (self : Scanner.t) (keyword : string)
    (pre : list string) (raw : string) (rest : list string) (cur : Scanner.cursor) :
  Scanner.current_file cur = None ->
  forallb (fun l => negb (file_header l)) pre = true ->
  added_line raw = true ->
  (forall index,
      Scanner.search_loop self keyword cur (pre ++ raw :: rest) index
      = Scanner.search_loop self keyword cur (pre ++ rest) index)
  /\ (forall out seen,
      Scanner.stream_loop self keyword cur (pre ++ raw :: rest) out seen
      = Scanner.stream_loop self keyword cur (pre ++ rest) out seen).
Proof.
  intros Hcur Hpre Hadd. revert cur Hcur.
  induction pre as [|l pre IH]; intros cur Hcur.
  - simpl. rewrite (read_line_added_no_file self keyword cur raw Hcur Hadd). done.
  - simpl in Hpre. apply andb_prop in Hpre as [Hl Hpre].
    apply negb_true_iff in Hl.
    destruct (read_line_no_file self keyword cur l Hcur Hl) as (cur' & E & Hcur').
    destruct (IH Hpre cur' Hcur') as [IH1 IH2].
    simpl. rewrite E. split; intros; [apply IH1 | apply IH2].
Qed.

(** A content line is treated the same whatever the commit fields of the
    cursor are: with a current file, the keyword in the line, an extracted
    pair and a file that is not ignored, it yields a hit that carries these
    fields as they are, set or not. *)
Lemma read_line_added_hit (self : Scanner.t) (keyword : string)
    (cur : Scanner.cursor) (raw file key value : string) :
  added_line raw = true ->
  Scanner.current_file cur = Some file -> file <> "" -> key <> "" -> value <> "" ->
  Str.contains keyword (Str.rstrip_nl raw) = true ->
  Scanner.extract_key_value self (Str.drop 1 (Str.rstrip_nl raw))
  = Return (Some key, Some value, true) ->
  Config.should_ignore_file (Scanner.config self) file = false ->
  Scanner.read_line self keyword cur raw
  = (cur, Return (Some {| Scanner.h_file := file; Scanner.h_key := key;
                          Scanner.h_value := value;
                          Scanner.h_commit := Scanner.current_commit cur;
                          Scanner.h_author := Scanner.current_author cur;
                          Scanner.h_date := Scanner.current_date cur |})).
Proof.
  intros Hadd Hcur Hf Hk Hv Hkw Hex Hig.
  unfold added_line in Hadd. cbv zeta in Hadd.
  apply andb_prop in Hadd as [Hplus Hnot].
  unfold Scanner.read_line. cbv zeta.
  destruct (Str.startswith (Str.rstrip_nl raw) "COMMIT_START|") eqn:Hc.
  { destruct (Str.rstrip_nl raw) as [|a s]; [done|].
    cbn [Str.startswith] in Hplus, Hc.
    destruct (Ascii.eqb_spec "+" a) as [<-|]; done. }
  destruct (Str.startswith (Str.rstrip_nl raw) "diff --git") eqn:Hd.
  { destruct (Str.rstrip_nl raw) as [|a s]; [done|].
    cbn [Str.startswith] in Hplus, Hd.
    destruct (Ascii.eqb_spec "+" a) as [<-|]; done. }
  rewrite Hplus, Hnot, Hcur. cbn [andb].
  destruct file as [|c0 file]; [done|]. rewrite Hkw, Hex.
  destruct key as [|c1 key]; [done|]. destruct value as [|c2 value]; [done|].
  by rewrite Hig.
Qed.

(** C5, as the code has it. A content line that arrives before any file
    header is discarded: the in-memory scan and the streaming scan of a
    keyword give what they give without that line. The commit header plays
    no part: a content line that yields a hit yields it with the commit,
    author and date of the cursor, whether a commit header has set them or
    not. *)
Theorem added_line_before_file_header_discarded (self : Scanner.t)
    (keyword : string) (pre : list string) (raw : string) (rest : list string)
    (index : Scanner.index_t) (out : list Scanner.StreamEntry) (seen : gset string) :
  forallb (fun l => negb (file_header l)) pre = true ->
  added_line raw = true ->
  (Scanner._search_keyword self (Some (pre ++ raw :: rest)) keyword index
   = Scanner._search_keyword self (Some (pre ++ rest)) keyword index
   /\ Scanner._stream_keyword self (Some (pre ++ raw :: rest)) keyword out seen
      = Scanner._stream_keyword self (Some (pre ++ rest)) keyword out seen)
  /\ (forall (cur : Scanner.cursor) (file key value : string),
        Scanner.current_file cur = Some file -> file <> "" -> key <> "" -> value <> "" ->
        Str.contains keyword (Str.rstrip_nl raw) = true ->
        Scanner.extract_key_value self (Str.drop 1 (Str.rstrip_nl raw))
        = Return (Some key, Some value, true) ->
        Config.should_ignore_file (Scanner.config self) file = false ->
        Scanner.read_line self keyword cur raw
        = (cur, Return (Some {| Scanner.h_file := file; Scanner.h_key := key;
                                Scanner.h_value := value;
                                Scanner.h_commit := Scanner.current_commit cur;
                                Scanner.h_author := Scanner.current_author cur;
                                Scanner.h_date := Scanner.current_date cur |}))).
Proof.
  intros Hpre Hadd. split.
  - unfold Scanner._search_keyword, Scanner._stream_keyword.
    destruct (loops_skip_added_line self keyword pre raw rest Scanner.initial_cursor
                eq_refl Hpre Hadd) as [H1 H2].
    split; [apply H1 | apply H2].
  - intros cur file key value. by apply read_line_added_hit.
Qed.

Lemma added_line_before_file_header_discarded_witness :
  forallb (fun l => negb (file_header l)) ["COMMIT_START|c1|alice|2020-01-01T10:00:00+00:00"]
  = true
  /\ added_line "+api_key=AAA111" = true
  /\ Scanner._search_keyword demo_scanner
       (Some (["COMMIT_START|c1|alice|2020-01-01T10:00:00+00:00"]
              ++ "+api_key=AAA111" :: ["diff --git a/.env b/.env"; "+api_key=BBB222"]))
       "api_key" []
     = Scanner._search_keyword demo_scanner
         (Some (["COMMIT_START|c1|alice|2020-01-01T10:00:00+00:00"]
                ++ ["diff --git a/.env b/.env"; "+api_key=BBB222"]))
         "api_key" []
  /\ Scanner.read_line demo_scanner "api_key"
       {| Scanner.current_file := Some ".env"; Scanner.current_commit := None;
          Scanner.current_author := None; Scanner.current_date := None |}
       "+api_key=AAA111"
     = ({| Scanner.current_file := Some ".env"; Scanner.current_commit := None;
           Scanner.current_author := None; Scanner.current_date := None |},
        Return (Some {| Scanner.h_file := ".env"; Scanner.h_key := "api_key";
                        Scanner.h_value := "AAA111"; Scanner.h_commit := None;
                        Scanner.h_author := None; Scanner.h_date := None |})).
Proof.
  split; [reflexivity|]. split; [reflexivity|].
  pose proof (added_line_before_file_header_discarded demo_scanner "api_key"
                ["COMMIT_START|c1|alice|2020-01-01T10:00:00+00:00"] "+api_key=AAA111"
                ["diff --git a/.env b/.env"; "+api_key=BBB222"] [] [] ∅
                eq_refl eq_refl) as [[H1 _] H2].
  split; [exact H1|].
  apply (H2 {| Scanner.current_file := Some ".env"; Scanner.current_commit := None;
               Scanner.current_author := None; Scanner.current_date := None |}
            ".env" "api_key" "AAA111");
    try reflexivity; discriminate.
Defined.

(** C5, as stated, fails: after a file header but before any commit header
    a content line is kept. It is merged into the index, and written to the
    stream, with no commit, author or date. *)
Lemma added_line_before_commit_header_kept :
  added_line "+api_key=AAA111" = true
  /\ Scanner._search_keyword demo_scanner
       (Some ["diff --git a/.env b/.env"; "+api_key=AAA111"]) "api_key" []
     = [(".env",
         [("api_key",
           {| Scanner.value := "AAA111"; Scanner.masked_value := "AA**11";
              Scanner.commits := [None]; Scanner.authors := [None];
              Scanner.first_seen := None; Scanner.last_seen := None |})])]
  /\ Scanner._search_keyword demo_scanner
       (Some ["diff --git a/.env b/.env"]) "api_key" [] = []
  /\ fst (Scanner._stream_keyword demo_scanner
            (Some ["diff --git a/.env b/.env"; "+api_key=AAA111"]) "api_key" [] ∅)
     = [ {| Scanner.e_file := ".env"; Scanner.e_key := "api_key";
            Scanner.e_value := "AAA111"; Scanner.e_masked_value := "AA**11";
            Scanner.e_type := "api_key"; Scanner.e_commit := None;
            Scanner.e_author := None; Scanner.e_date := None |} ]
  /\ fst (Scanner._stream_keyword demo_scanner
            (Some ["diff --git a/.env b/.env"]) "api_key" [] ∅) = [].
Proof. by vm_compute. Qed.

(** ** The index and the secrets built from it *)

Lemma insert_sorted_perm (x : Scanner.Secret) (l : list Scanner.Secret) :
  Scanner.insert_sorted x l ≡ₚ x :: l.
Proof.
  induction l as [|y l IH]; simpl; [done|].
  destruct (Scanner.file_key_lt y x); [|done].
  rewrite IH. apply Permutation_swap.
Qed.

Lemma sort_by_file_key_perm (l : list Scanner.Secret) :
  Scanner.sort_by_file_key l ≡ₚ l.
Proof.
  induction l as [|x l IH]; simpl; [done|].
  unfold Scanner.sort_by_file_key in *. simpl.
  by rewrite insert_sorted_perm, IH.
Qed.

Lemma flat_map_secrets_length (self : Scanner.t) (index : Scanner.index_t) :
  length (flat_map (fun '(file_path, key_values) =>
                      map (Scanner.secret_of self file_path) key_values) index)
  = Scanner.count_values index.
Proof.
  induction index as [|[f fi] index IH]; simpl; [done|].
  by rewrite length_app, length_map, IH.
Qed.

Lemma build_secrets_length (self : Scanner.t) (index : Scanner.index_t) :
  length (Scanner._build_secrets self index) = Scanner.count_values index.
Proof.
  unfold Scanner._build_secrets.
  rewrite (Permutation_length (sort_by_file_key_perm _)).
  apply flat_map_secrets_length.
Qed.

(** Every secret that [_build_secrets] makes has a history of one entry,
    the record found under its file and key. *)
Lemma build_secrets_history (self : Scanner.t) (index : Scanner.index_t)
    (s : Scanner.Secret) :
  s ∈ Scanner._build_secrets self index ->
  exists key_values secret_value,
    (Scanner.file s, key_values) ∈ index
    /\ (Scanner.key s, secret_value) ∈ key_values
    /\ Scanner.history s = [secret_value]
    /\ Scanner.change_count s = length (Scanner.commits secret_value).
Proof.
  intros Hs. unfold Scanner._build_secrets in Hs.
  rewrite sort_by_file_key_perm in Hs.
  apply list_elem_of_In, in_flat_map in Hs as ([f fi] & Hf & Hs).
  apply in_map_iff in Hs as ([k sv] & <- & Hk).
  exists fi, sv. simpl. by rewrite !list_elem_of_In.
Qed.

(** *** Dictionaries *)

Section DictFacts.
Context {V : Type}.
Implicit Types (d : list (string * V)) (k : string) (v : V).

Lemma dict_get_None d k : Scanner.dict_get d k = None <-> k ∉ map fst d.
Proof.
  induction d as [|[k' v'] d IH]; simpl.
  - split; [intros _; apply not_elem_of_nil | done].
  - rewrite not_elem_of_cons.
    destruct (String.eqb_spec k' k) as [->|Hne].
    + split; [done | intros [? _]; done].
    + rewrite IH. split; [intros ?; split; [congruence | done] | intros [_ ?]; done].
Qed.

Lemma dict_get_Some d k v : Scanner.dict_get d k = Some v -> (k, v) ∈ d.
Proof.
  induction d as [|[k' v'] d IH]; simpl; [done|].
  destruct (String.eqb_spec k' k) as [->|Hne].
  - intros [= ->]. apply list_elem_of_here.
  - intros H. apply list_elem_of_further, IH, H.
Qed.

Lemma dict_set_absent d k v :
  Scanner.dict_get d k = None -> Scanner.dict_set d k v = d ++ [(k, v)].
Proof.
  induction d as [|[k' v'] d IH]; simpl; [done|].
  destruct (String.eqb_spec k' k) as [->|Hne]; [done|].
  intros H. by rewrite IH.
Qed.

Lemma dict_set_present_keys d k v v0 :
  Scanner.dict_get d k = Some v0 ->
  map fst (Scanner.dict_set d k v) = map fst d.
Proof.
  induction d as [|[k' v'] d IH]; simpl; [done|].
  destruct (String.eqb_spec k' k) as [->|Hne]; [done|].
  intros H. simpl. by rewrite IH.
Qed.

Lemma dict_get_set d k v : Scanner.dict_get (Scanner.dict_set d k v) k = Some v.
Proof.
  induction d as [|[k' v'] d IH]; simpl.
  - by rewrite String.eqb_refl.
  - destruct (String.eqb_spec k' k) as [->|Hne]; simpl.
    + by rewrite String.eqb_refl.
    + by destruct (String.eqb_spec k' k).
Qed.

Lemma dict_set_length d k v : length (Scanner.dict_set d k v) <= S (length d).
Proof.
  induction d as [|[k' v'] d IH]; simpl; [lia|].
  destruct (String.eqb k' k); simpl; lia.
Qed.


Lemma dict_set_ok d k v : dict_ok d -> dict_ok (Scanner.dict_set d k v).
Proof.
  unfold dict_ok. intros Hd.
  destruct (Scanner.dict_get d k) as [v0|] eqn:Hk.
  - by rewrite (dict_set_present_keys _ _ _ _ Hk).
  - rewrite (dict_set_absent _ _ _ Hk), map_app. simpl.
    apply NoDup_app. split_and!; [done| |apply NoDup_singleton].
    intros x Hx ->%list_elem_of_singleton. by apply dict_get_None in Hk.
Qed.

Lemma dict_set_values (P : V -> Prop) d k v :
  Forall P (map snd d) -> P v -> Forall P (map snd (Scanner.dict_set d k v)).
Proof.
  intros Hd Hv. induction d as [|[k' v'] d IH]; simpl.
  - by constructor.
  - apply Forall_cons in Hd as [Hv' Hd].
    destruct (String.eqb k' k); simpl; constructor; auto.
Qed.

Lemma dict_get_values (P : V -> Prop) d k v :
  Forall P (map snd d) -> Scanner.dict_get d k = Some v -> P v.
Proof.
  intros Hd Hk. apply dict_get_Some in Hk.
  rewrite Forall_forall in Hd. apply Hd.
  apply list_elem_of_In in Hk. apply list_elem_of_In, in_map_iff. by exists (k, v).
Qed.
End DictFacts.

(** *** The index keeps its shape *)

Lemma index_ok_nil : index_ok [].
Proof. split; [apply NoDup_nil_2 | constructor]. Qed.

Lemma index_ok_open (index : Scanner.index_t) (f : string) :
  index_ok index ->
  index_ok (match Scanner.dict_get index f with
            | None => Scanner.dict_set index f []
            | Some _ => index
            end).
Proof.
  intros [Hd Hv]. destruct (Scanner.dict_get index f); [done|].
  split; [by apply dict_set_ok|].
  apply dict_set_values; [done | apply NoDup_nil_2].
Qed.

Lemma index_ok_file (index : Scanner.index_t) (f : string) :
  index_ok index -> dict_ok (default [] (Scanner.dict_get index f)).
Proof.
  intros [_ Hv]. destruct (Scanner.dict_get index f) as [fi|] eqn:E; simpl.
  - by apply (dict_get_values dict_ok index f fi).
  - apply NoDup_nil_2.
Qed.

Lemma index_ok_set (index : Scanner.index_t) (f : string)
    (fi : list (string * Scanner.SecretValue)) :
  index_ok index -> dict_ok fi -> index_ok (Scanner.dict_set index f fi).
Proof.
  intros [Hd Hv] Hfi. split; [by apply dict_set_ok | by apply dict_set_values].
Qed.

Lemma merge_ok (index : Scanner.index_t) (h : Scanner.hit) :
  index_ok index -> index_ok (fst (Scanner.merge index h)).
Proof.
  intros Hok. unfold Scanner.merge. cbv zeta.
  pose proof (index_ok_open index (Scanner.h_file h) Hok) as Hok1.
  set (index1 := match Scanner.dict_get index (Scanner.h_file h) with
                 | None => _ | Some _ => _ end) in *.
  pose proof (index_ok_file index1 (Scanner.h_file h) Hok1) as Hfi.
  set (fi := default [] (Scanner.dict_get index1 (Scanner.h_file h))) in *.
  assert (dict_ok (match Scanner.dict_get fi (Scanner.h_key h) with
                   | None => Scanner.dict_set fi (Scanner.h_key h)
                               {| Scanner.value := Scanner.h_value h;
                                  Scanner.masked_value := Scanner.mask_secret (Scanner.h_value h);
                                  Scanner.commits := []; Scanner.authors := [];
                                  Scanner.first_seen := Some "";
                                  Scanner.last_seen := Some "" |}
                   | Some _ => fi
                   end)) as Hfi1.
  { destruct (Scanner.dict_get fi (Scanner.h_key h)); [done | by apply dict_set_ok]. }
  match goal with |- context [Scanner.dict_get ?d (Scanner.h_key h)] =>
    match d with fi => fail 1 | _ => set (fi1 := d) in * end end.
  destruct (Scanner.dict_get fi1 (Scanner.h_key h)) as [sv|].
  - destruct (Scanner.touch sv h) as [sv' raised]. simpl.
    apply index_ok_set; [done | by apply dict_set_ok].
  - simpl. by apply index_ok_set.
Qed.

Lemma record_current_ok (index : Scanner.index_t) (rel key value now : string) :
  index_ok index -> index_ok (Scanner.record_current index rel key value now).
Proof.
  intros Hok. unfold Scanner.record_current. cbv zeta.
  pose proof (index_ok_open index rel Hok) as Hok1.
  set (index1 := match Scanner.dict_get index rel with
                 | None => _ | Some _ => _ end) in *.
  pose proof (index_ok_file index1 rel Hok1) as Hfi.
  destruct (Scanner.dict_get _ key); [done|].
  apply index_ok_set; [done | by apply dict_set_ok].
Qed.

(** What every merge keeps, the loops keep. *)
Lemma search_loop_keeps (P : Scanner.index_t -> Prop) (self : Scanner.t)
    (keyword : string) :
  (forall index h, P index -> P (fst (Scanner.merge index h))) ->
  forall lines cur index,
    P index -> P (Scanner.search_loop self keyword cur lines index).
Proof.
  intros Hstep. induction lines as [|raw lines IH]; intros cur index HP; simpl; [done|].
  destruct (Scanner.read_line self keyword cur raw) as [cur' [[h|]|]]; auto.
  specialize (Hstep index h HP).
  destruct (Scanner.merge index h) as [index' []]; simpl in Hstep; auto.
Qed.

Lemma scan_index_keeps (P : Scanner.index_t -> Prop) (self : Scanner.t)
    (driver : string -> option (list string)) :
  (forall index h, P index -> P (fst (Scanner.merge index h))) ->
  P [] -> P (Scanner.scan_index self driver).
Proof.
  intros Hstep. unfold Scanner.scan_index.
  generalize (@nil (string * list (string * Scanner.SecretValue))).
  induction (Config.get_all_keywords (Scanner.config self)) as [|kw kws IH];
    intros index HP; simpl; [done|].
  apply IH. unfold Scanner._search_keyword.
  destruct (driver kw); [|done]. by apply search_loop_keeps.
Qed.

Lemma current_index_keeps (P : Scanner.index_t -> Prop) (self : Scanner.t)
    (tree : list Scanner.tree_file) (now : string) :
  (forall index rel key value, P index ->
     P (Scanner.record_current index rel key value now)) ->
  P [] -> P (Scanner.current_index self tree now).
Proof.
  intros Hstep. unfold Scanner.current_index.
  generalize (@nil (string * list (string * Scanner.SecretValue))).
  induction tree as [|f tree IH]; intros index HP; simpl; [done|].
  apply IH. destruct (Scanner.lines_to_search self f) as [lines|]; [|done].
  clear IH. revert index HP.
  induction lines as [|line lines IHl]; intros index HP; simpl; [done|].
  assert (forall kws index, P index ->
            P (fst (Scanner.current_keywords self (Scanner.rel_path f) line now kws index)))
    as Hkw.
  { clear -Hstep. induction kws as [|kw kws IHk]; intros index HP; simpl; [done|].
    destruct (Str.contains kw line); [|by apply IHk].
    destruct (Scanner.extract_key_value self line)
      as [[[[[|? ?]|] [[|? ?]|]] []]|]; simpl; auto. }
  specialize (Hkw (Config.get_all_keywords (Scanner.config self)) index HP).
  destruct (Scanner.current_keywords _ _ _ _ _ _) as [index' []]; simpl in Hkw; auto.
Qed.

Lemma scan_index_ok (self : Scanner.t) (driver : string -> option (list string)) :
  index_ok (Scanner.scan_index self driver).
Proof. apply scan_index_keeps; [apply merge_ok | apply index_ok_nil]. Qed.

Lemma current_index_ok (self : Scanner.t) (tree : list Scanner.tree_file) (now : string) :
  index_ok (Scanner.current_index self tree now).
Proof.
  apply current_index_keeps; [|apply index_ok_nil].
  intros. by apply record_current_ok.
Qed.

(** Whatever the order in which the events are merged, the index keeps its
    shape. *)
Lemma merged_ok (hits : list Scanner.hit) : index_ok (merged hits).
Proof.
  unfold merged. generalize index_ok_nil.
  generalize (@nil (string * list (string * Scanner.SecretValue))).
  induction hits as [|h hits IH]; intros index Hok; simpl; [done|].
  apply IH. by apply merge_ok.
Qed.

(** The secrets of a well-shaped index stand for distinct pairs. *)
Lemma build_secrets_pairs (self : Scanner.t) (index : Scanner.index_t) :
  index_ok index -> NoDup (map pair_of (Scanner._build_secrets self index)).
Proof.
  intros [Hd Hv]. unfold Scanner._build_secrets.
  rewrite (Permutation_map pair_of (sort_by_file_key_perm _)).
  induction index as [|[f fi] index IH]; simpl; [apply NoDup_nil_2|].
  unfold dict_ok in Hd. simpl in Hd, Hv.
  apply NoDup_cons in Hd as [Hf Hd]. apply Forall_cons in Hv as [Hfi Hv].
  rewrite map_app. apply NoDup_app. split_and!.
  - assert (map pair_of (map (Scanner.secret_of self f) fi)
            = map (fun k => (f, k)) (map fst fi)) as ->.
    { rewrite !map_map. apply map_ext. by intros [??]. }
    apply (NoDup_fmap_2 (fun k => (f, k))). exact Hfi.
  - intros [f' k'] H1 H2. apply Hf.
    apply list_elem_of_In, in_map_iff in H1 as (s1 & E1 & H1).
    apply in_map_iff in H1 as ([k1 sv1] & <- & _). injection E1 as <- _.
    apply list_elem_of_In, in_map_iff in H2 as (s2 & E2 & H2).
    apply in_flat_map in H2 as ([f2 fi2] & Hin & H2).
    apply in_map_iff in H2 as ([k2 sv2] & <- & _). injection E2 as -> _.
    apply list_elem_of_In, in_map_iff. by exists (f, fi2).
  - by apply IH.
Qed.

(** *** The union of [scan_both] *)

Lemma dict_set_entries {V : Type} (Q : string * V -> Prop)
    (d : list (string * V)) (k : string) (v : V) :
  Forall Q d -> Q (k, v) -> Forall Q (Scanner.dict_set d k v).
Proof.
  intros Hd Hv. induction d as [|[k' v'] d IH]; simpl.
  - by constructor.
  - apply Forall_cons in Hd as [Hv' Hd].
    destruct (String.eqb_spec k' k) as [->|]; constructor; auto.
Qed.

(** What the two loops of [scan_both] keep of the dictionary [all_secrets]:
    its keys are distinct, each secret sits under its own key, comes from
    one of the two results, and there are no more of them than were given. *)
Definition union_ok (from : list Scanner.Secret) (n : nat)
    (all_secrets : list (string * Scanner.Secret)) : Prop :=
  dict_ok all_secrets
  /\ Forall (fun kv => kv.1 = Scanner.both_key kv.2 /\ kv.2 ∈ from) all_secrets
  /\ length all_secrets <= n.

Lemma union_ok_set (from : list Scanner.Secret) (n : nat)
    (all_secrets : list (string * Scanner.Secret)) (s : Scanner.Secret) :
  s ∈ from -> union_ok from n all_secrets ->
  union_ok from (S n) (Scanner.dict_set all_secrets (Scanner.both_key s) s).
Proof.
  intros Hs (Hd & He & Hn). split_and!.
  - by apply dict_set_ok.
  - by apply dict_set_entries.
  - pose proof (dict_set_length all_secrets (Scanner.both_key s) s). lia.
Qed.

Lemma union_ok_weaken (from : list Scanner.Secret) (n m : nat)
    (all_secrets : list (string * Scanner.Secret)) :
  n <= m -> union_ok from n all_secrets -> union_ok from m all_secrets.
Proof. intros ? (Hd & He & Hn). split_and!; [done | done | lia]. Qed.

Lemma union_first_loop (from l : list Scanner.Secret) (n : nat)
    (all_secrets : list (string * Scanner.Secret)) :
  (forall s, s ∈ l -> s ∈ from) ->
  union_ok from n all_secrets ->
  union_ok from (n + length l)
    (foldl (fun all_secrets secret =>
              Scanner.dict_set all_secrets (Scanner.both_key secret) secret)
           all_secrets l).
Proof.
  revert n all_secrets. induction l as [|s l IH]; intros n all_secrets Hl Hok; simpl.
  - by rewrite Nat.add_0_r.
  - replace (n + S (length l)) with (S n + length l) by lia.
    apply IH.
    + intros s' Hs'. apply Hl. by apply list_elem_of_further.
    + apply union_ok_set; [|done]. apply Hl, list_elem_of_here.
Qed.

Lemma union_second_loop (from l : list Scanner.Secret) (n : nat)
    (all_secrets : list (string * Scanner.Secret)) :
  (forall s, s ∈ l -> s ∈ from) ->
  union_ok from n all_secrets ->
  union_ok from (n + length l)
    (foldl (fun all_secrets secret =>
              match Scanner.dict_get all_secrets (Scanner.both_key secret) with
              | None => Scanner.dict_set all_secrets (Scanner.both_key secret) secret
              | Some _ => all_secrets
              end)
           all_secrets l).
Proof.
  revert n all_secrets. induction l as [|s l IH]; intros n all_secrets Hl Hok; simpl.
  - by rewrite Nat.add_0_r.
  - replace (n + S (length l)) with (S n + length l) by lia.
    apply IH.
    + intros s' Hs'. apply Hl. by apply list_elem_of_further.
    + destruct (Scanner.dict_get all_secrets (Scanner.both_key s)).
      * apply (union_ok_weaken from n); [lia | done].
      * apply union_ok_set; [|done]. apply Hl, list_elem_of_here.
Qed.

Lemma union_ok_pairs (from : list Scanner.Secret) (n : nat)
    (all_secrets : list (string * Scanner.Secret)) :
  union_ok from n all_secrets -> NoDup (map pair_of (map snd all_secrets)).
Proof.
  intros (Hd & He & _).
  apply (NoDup_fmap_1 (fun p : string * string => p.1 +:+ "|" +:+ p.2)).
  unfold dict_ok in Hd.
  assert (map fst all_secrets
          = (fun p : string * string => p.1 +:+ "|" +:+ p.2)
              <$> map pair_of (map snd all_secrets)) as E.
  { clear Hd. induction all_secrets as [|[k s] d IH]; [done|].
    apply Forall_cons in He as [[E _] He]. simpl in E. csimpl.
    rewrite <- IH by done. by rewrite E. }
  by rewrite <- E.
Qed.

(** ** Totals *)

(** Under any interleaving of the merges, the secrets built from the index
    are as many as its values, stand for distinct pairs and have a history
    of one entry. *)
Lemma merged_totals (self : Scanner.t) (hits : list Scanner.hit) :
  length (Scanner._build_secrets self (merged hits)) = Scanner.count_values (merged hits)
  /\ NoDup (map pair_of (Scanner._build_secrets self (merged hits)))
  /\ (forall s, s ∈ Scanner._build_secrets self (merged hits) ->
                 length (Scanner.history s) = 1).
Proof.
  split_and!.
  - apply build_secrets_length.
  - apply build_secrets_pairs, merged_ok.
  - intros s Hs. by apply build_secrets_history in Hs as (? & ? & _ & _ & -> & _).
Qed.

(** C3, as the code has it. For [scan] and [scan_current], [total_values]
    is the sum over the files of the number of keys of the index, which is
    the number of secrets, and these stand for distinct [(file, key)]
    pairs. For [scan_both], [total_values] is the sum of the totals of the
    two scans; the secrets of the union stand for distinct pairs and are
    at most that many. In all three results every secret has a history of
    exactly one entry. *)
Theorem total_values_of_scans (self : Scanner.t)
    (driver : string -> option (list string)) (tree : list Scanner.tree_file)
    (repo_path branch now : string) :
  let R := Scanner.scan self driver repo_path branch now in
  let Rc := Scanner.scan_current self tree repo_path now in
  let Rb := Scanner.scan_both self driver tree repo_path branch now in
  (Scanner.total_values R = Scanner.count_values (Scanner.scan_index self driver)
   /\ Scanner.total_values R = length (Scanner.secrets R)
   /\ NoDup (map pair_of (Scanner.secrets R)))
  /\ (Scanner.total_values Rc = Scanner.count_values (Scanner.current_index self tree now)
      /\ Scanner.total_values Rc = length (Scanner.secrets Rc)
      /\ NoDup (map pair_of (Scanner.secrets Rc)))
  /\ (Scanner.total_values Rb = Scanner.total_values R + Scanner.total_values Rc
      /\ length (Scanner.secrets Rb) <= Scanner.total_values Rb
      /\ NoDup (map pair_of (Scanner.secrets Rb)))
  /\ (forall s, s ∈ Scanner.secrets R \/ s ∈ Scanner.secrets Rc \/ s ∈ Scanner.secrets Rb ->
        length (Scanner.history s) = 1).
Proof.
  intros R Rc Rb.
  assert (forall s, s ∈ Scanner.secrets R \/ s ∈ Scanner.secrets Rc ->
                    length (Scanner.history s) = 1) as Hhist.
  { intros s [Hs|Hs]; apply build_secrets_history in Hs as (? & ? & _ & _ & -> & _); done. }
  assert (union_ok (Scanner.secrets R ++ Scanner.secrets Rc)
            (length (Scanner.secrets R) + length (Scanner.secrets Rc))
            (foldl (fun all_secrets secret =>
                      match Scanner.dict_get all_secrets (Scanner.both_key secret) with
                      | None => Scanner.dict_set all_secrets (Scanner.both_key secret) secret
                      | Some _ => all_secrets
                      end)
               (foldl (fun all_secrets secret =>
                         Scanner.dict_set all_secrets (Scanner.both_key secret) secret)
                      [] (Scanner.secrets R))
               (Scanner.secrets Rc))) as Hunion.
  { apply union_second_loop; [intros; apply elem_of_app; auto|].
    apply (union_first_loop _ _ 0); [intros; apply elem_of_app; auto|].
    split_and!; [apply NoDup_nil_2 | constructor | simpl; lia]. }
  split_and!.
  - reflexivity.
  - symmetry. apply build_secrets_length.
  - apply build_secrets_pairs, scan_index_ok.
  - reflexivity.
  - symmetry. apply build_secrets_length.
  - apply build_secrets_pairs, current_index_ok.
  - reflexivity.
  - change (Scanner.total_values Rb)
      with (Scanner.total_values R + Scanner.total_values Rc).
    change (Scanner.total_values R) with (Scanner.count_values (Scanner.scan_index self driver)).
    change (Scanner.total_values Rc)
      with (Scanner.count_values (Scanner.current_index self tree now)).
    rewrite <- !(build_secrets_length self).
    change (Scanner.secrets Rb) with (Scanner.sort_by_file_key (map snd
      (foldl (fun all_secrets secret =>
                match Scanner.dict_get all_secrets (Scanner.both_key secret) with
                | None => Scanner.dict_set all_secrets (Scanner.both_key secret) secret
                | Some _ => all_secrets
                end)
         (foldl (fun all_secrets secret =>
                   Scanner.dict_set all_secrets (Scanner.both_key secret) secret)
                [] (Scanner.secrets R))
         (Scanner.secrets Rc)))).
    rewrite (Permutation_length (sort_by_file_key_perm _)), length_map.
    apply Hunion.
  - change (Scanner.secrets Rb) with (Scanner.sort_by_file_key (map snd
      (foldl (fun all_secrets secret =>
                match Scanner.dict_get all_secrets (Scanner.both_key secret) with
                | None => Scanner.dict_set all_secrets (Scanner.both_key secret) secret
                | Some _ => all_secrets
                end)
         (foldl (fun all_secrets secret =>
                   Scanner.dict_set all_secrets (Scanner.both_key secret) secret)
                [] (Scanner.secrets R))
         (Scanner.secrets Rc)))).
    rewrite (Permutation_map pair_of (sort_by_file_key_perm _)).
    by apply union_ok_pairs in Hunion.
  - intros s [Hs|[Hs|Hs]]; [by apply Hhist; left | by apply Hhist; right |].
    change (Scanner.secrets Rb) with (Scanner.sort_by_file_key (map snd
      (foldl (fun all_secrets secret =>
                match Scanner.dict_get all_secrets (Scanner.both_key secret) with
                | None => Scanner.dict_set all_secrets (Scanner.both_key secret) secret
                | Some _ => all_secrets
                end)
         (foldl (fun all_secrets secret =>
                   Scanner.dict_set all_secrets (Scanner.both_key secret) secret)
                [] (Scanner.secrets R))
         (Scanner.secrets Rc)))) in Hs.
    rewrite sort_by_file_key_perm in Hs.
    apply list_elem_of_In, in_map_iff in Hs as ([k s'] & <- & Hin).
    destruct Hunion as (_ & He & _). rewrite Forall_forall in He.
    apply list_elem_of_In, He in Hin as [_ Hfrom]. simpl in *.
    apply elem_of_app in Hfrom. by apply Hhist.
Qed.

Lemma total_values_of_scans_witness :
  let s :=
    {| Scanner.file := ".env"; Scanner.key := "api_key"; Scanner.type := "api_key";
       Scanner.change_count := 1; Scanner.total_occurrences := 1;
       Scanner.s_authors := [Some "alice"];
       Scanner.history := [first_value] |} in
  s ∈ Scanner.secrets
        (Scanner.scan_both demo_scanner one_commit_driver one_file_tree
           "/repo" "--all" "2026-01-01T00:00:00")
  /\ length (Scanner.history s) = 1.
Proof.
  intros s.
  assert (s ∈ Scanner.secrets
                (Scanner.scan_both demo_scanner one_commit_driver one_file_tree
                   "/repo" "--all" "2026-01-01T00:00:00")) as H.
  { vm_compute. apply list_elem_of_here. }
  split; [exact H|].
  apply (total_values_of_scans demo_scanner one_commit_driver one_file_tree
           "/repo" "--all" "2026-01-01T00:00:00").
  right. right. exact H.
Defined.

(** C3, as stated, fails for [scan_both]: when the history and the working
    tree both have [api_key] in [.env], the union has one secret and
    [total_values] is 2. *)
Lemma scan_both_total_values_counts_twice :
  let Rb := Scanner.scan_both demo_scanner one_commit_driver one_file_tree
              "/repo" "--all" "2026-01-01T00:00:00" in
  map pair_of (Scanner.secrets Rb) = [(".env", "api_key")]
  /\ Scanner.total_values Rb = 2
  /\ Scanner.total_values Rb <> length (Scanner.secrets Rb).
Proof. by vm_compute. Qed.

(** ** One value per file and key *)

Lemma touch_fields (sv : Scanner.SecretValue) (h : Scanner.hit) :
  Scanner.value (Scanner.touch sv h).1 = Scanner.value sv
  /\ Scanner.masked_value (Scanner.touch sv h).1 = Scanner.masked_value sv
  /\ Scanner.commits (Scanner.touch sv h).1
     = Scanner.append_new (Scanner.h_commit h) (Scanner.commits sv)
  /\ Scanner.authors (Scanner.touch sv h).1
     = Scanner.append_new (Scanner.h_author h) (Scanner.authors sv).
Proof.
  unfold Scanner.touch. cbv zeta.
  destruct (Scanner.unset_or Scanner.py_lt _ _) as [[]|]; simpl;
    try destruct (Scanner.unset_or Scanner.py_gt _ _) as [[]|]; simpl; done.
Qed.










(** ** Streaming *)

(** *** The streaming scans copy their candidates through [seen] *)

Lemma copy_unseen_app (l1 l2 out : list Scanner.StreamEntry) (seen : gset string) :
  Scanner.copy_unseen (l1 ++ l2) out seen
  = Scanner.copy_unseen l2 (Scanner.copy_unseen l1 out seen).1
      (Scanner.copy_unseen l1 out seen).2.
Proof.
  revert out seen. induction l1 as [|e l1 IH]; intros out seen; simpl; [done|].
  destruct (decide (_ ∈ seen)); apply IH.
Qed.

Lemma copy_unseen_out (l out : list Scanner.StreamEntry) (seen : gset string) :
  Scanner.copy_unseen l out seen
  = (out ++ (Scanner.copy_unseen l [] seen).1, (Scanner.copy_unseen l [] seen).2).
Proof.
  revert out seen. induction l as [|e l IH]; intros out seen; simpl.
  - by rewrite app_nil_r.
  - destruct (decide (_ ∈ seen)); [apply IH|].
    rewrite (IH (out ++ [e])), (IH ([] ++ [e])). simpl.
    by rewrite <- app_assoc.
Qed.

Lemma stream_loop_copy (self : Scanner.t) (keyword : string) (lines : list string)
    (cur : Scanner.cursor) (out : list Scanner.StreamEntry) (seen : gset string) :
  Scanner.stream_loop self keyword cur lines out seen
  = Scanner.copy_unseen (keyword_candidates self keyword cur lines) out seen.
Proof.
  revert cur out seen. induction lines as [|raw lines IH]; intros cur out seen; simpl.
  - done.
  - destruct (Scanner.read_line self keyword cur raw) as [cur' [[h|]|]]; simpl; try done.
    change (Scanner.dedup_key (Scanner.h_file h) (Scanner.h_key h) (Scanner.h_value h))
      with (rendering (entry_of_hit self h)).
    destruct (decide (rendering (entry_of_hit self h) ∈ seen)); apply IH.
Qed.

Lemma stream_keywords_copy (self : Scanner.t) (driver : string -> option (list string))
    (kws : list string) (p : list Scanner.StreamEntry * gset string) :
  foldl (fun '(out, seen) keyword =>
           Scanner._stream_keyword self (driver keyword) keyword out seen) p kws
  = Scanner.copy_unseen
      (flat_map (fun keyword =>
                   match driver keyword with
                   | None => []
                   | Some lines =>
                       keyword_candidates self keyword Scanner.initial_cursor lines
                   end) kws) p.1 p.2.
Proof.
  revert p. induction kws as [|kw kws IH]; intros [out seen]; simpl; [done|].
  rewrite IH, copy_unseen_app. f_equal; f_equal;
    unfold Scanner._stream_keyword; destruct (driver kw) as [lines|]; simpl;
    try done; by rewrite stream_loop_copy.
Qed.

Lemma scan_stream_written (self : Scanner.t) (driver : string -> option (list string)) :
  Scanner.scan_stream self driver = written (history_candidates self driver).
Proof.
  unfold Scanner.scan_stream. by rewrite stream_keywords_copy.
Qed.

Lemma stream_current_keywords_copy (self : Scanner.t) (rel line now : string)
    (kws : list string) (out : list Scanner.StreamEntry) (seen : gset string) :
  Scanner.stream_current_keywords self rel line now kws out seen
  = (Scanner.copy_unseen (line_candidates self rel line now kws).1 out seen,
     (line_candidates self rel line now kws).2).
Proof.
  revert out seen. induction kws as [|kw kws IH]; intros out seen; simpl; [done|].
  destruct (Str.contains kw line); [|apply IH].
  destruct (Scanner.extract_key_value self line)
    as [[[[[|c1 k]|] [[|c2 v]|]] []]|]; simpl; try apply IH; try done.
  change (Scanner.dedup_key rel (String c1 k) (String c2 v))
    with (rendering (entry_of_current self rel (String c1 k) (String c2 v) now)).
  destruct (decide (_ ∈ seen)); apply IH.
Qed.

Lemma stream_current_lines_copy (self : Scanner.t) (rel now : string)
    (kws lines : list string) (out : list Scanner.StreamEntry) (seen : gset string) :
  Scanner.stream_current_lines self rel now kws lines out seen
  = Scanner.copy_unseen (file_candidates self rel now kws lines) out seen.
Proof.
  revert out seen. induction lines as [|line lines IH]; intros out seen; simpl; [done|].
  rewrite stream_current_keywords_copy.
  destruct (line_candidates self rel line now kws) as [l []]; simpl.
  - by destruct (Scanner.copy_unseen l out seen).
  - rewrite copy_unseen_app.
    destruct (Scanner.copy_unseen l out seen) as [out' seen']. apply IH.
Qed.

Lemma stream_files_copy (self : Scanner.t) (now : string)
    (tree : list Scanner.tree_file) (p : list Scanner.StreamEntry * gset string) :
  foldl (fun '(out, seen) f =>
           match Scanner.lines_to_search self f with
           | None => (out, seen)
           | Some lines =>
               Scanner.stream_current_lines self (Scanner.rel_path f) now
                 (Config.get_all_keywords (Scanner.config self)) lines out seen
           end) p tree
  = Scanner.copy_unseen (current_candidates self tree now) p.1 p.2.
Proof.
  unfold current_candidates.
  revert p. induction tree as [|f tree IH]; intros [out seen]; simpl; [done|].
  rewrite IH, copy_unseen_app. f_equal; f_equal;
    destruct (Scanner.lines_to_search self f) as [lines|]; simpl;
    try done; by rewrite stream_current_lines_copy.
Qed.

Lemma scan_current_stream_written (self : Scanner.t) (tree : list Scanner.tree_file)
    (now : string) :
  Scanner.scan_current_stream self tree now = written (current_candidates self tree now).
Proof.
  unfold Scanner.scan_current_stream. by rewrite stream_files_copy.
Qed.

(** Copying what was already copied through a smaller [seen] changes
    nothing. *)
Lemma copy_unseen_absorb (l out : list Scanner.StreamEntry) (seen0 seen : gset string) :
  seen0 ⊆ seen ->
  Scanner.copy_unseen (Scanner.copy_unseen l [] seen0).1 out seen
  = Scanner.copy_unseen l out seen.
Proof.
  revert out seen0 seen. induction l as [|e l IH]; intros out seen0 seen Hsub; simpl.
  - done.
  - destruct (decide (_ ∈ seen0)) as [H0|H0].
    + rewrite decide_True by (by apply Hsub). by apply IH.
    + rewrite (copy_unseen_out l ([] ++ [e])). simpl.
      destruct (decide (_ ∈ seen)) as [H1|H1]; apply IH.
      * apply union_subseteq. split; [by apply singleton_subseteq_l | done].
      * by apply union_mono_l.
Qed.

Lemma scan_both_stream_written (self : Scanner.t)
    (driver : string -> option (list string)) (tree : list Scanner.tree_file)
    (now : string) :
  Scanner.scan_both_stream self driver tree now
  = written (history_candidates self driver ++ current_candidates self tree now).
Proof.
  unfold Scanner.scan_both_stream, written.
  rewrite scan_stream_written, scan_current_stream_written. unfold written.
  rewrite copy_unseen_app.
  rewrite (copy_unseen_absorb (history_candidates self driver) [] ∅ ∅) by done.
  destruct (Scanner.copy_unseen (history_candidates self driver) [] ∅) as [out1 seen1].
  rewrite (copy_unseen_absorb _ out1 ∅ seen1) by apply empty_subseteq.
  cbn [fst snd]. by destruct (Scanner.copy_unseen _ out1 seen1).
Qed.

(** *** What gets written *)

Lemma rendering_of_triple (l : list Scanner.StreamEntry) :
  map rendering l
  = (fun t : string * string * string => Scanner.dedup_key t.1.1 t.1.2 t.2)
      <$> map triple l.
Proof. induction l as [|e l IH]; [done|]. csimpl. by rewrite <- IH. Qed.

Lemma copy_unseen_inv (l out : list Scanner.StreamEntry) (seen : gset string) :
  NoDup (map rendering out) ->
  (forall e, e ∈ out -> rendering e ∈ seen) ->
  NoDup (map rendering (Scanner.copy_unseen l out seen).1)
  /\ (forall e, e ∈ (Scanner.copy_unseen l out seen).1 ->
                rendering e ∈ (Scanner.copy_unseen l out seen).2).
Proof.
  revert out seen. induction l as [|e l IH]; intros out seen Hnd Hin; simpl; [done|].
  fold (rendering e).
  destruct (decide (rendering e ∈ seen)) as [Hs|Hs]; [by apply IH|].
  apply IH.
  - rewrite map_app. apply NoDup_app. split_and!; [done| |apply NoDup_singleton].
    intros k Hk ->%list_elem_of_singleton. apply Hs.
    apply list_elem_of_In, in_map_iff in Hk as (x & <- & Hx).
    by apply Hin, list_elem_of_In.
  - intros x [Hx| ->%list_elem_of_singleton]%elem_of_app.
    + apply elem_of_union_r. by apply Hin.
    + apply elem_of_union_l. by apply elem_of_singleton.
Qed.

(** What [copy_unseen] has seen at the end was seen before or is the
    rendering of an entry that it went over. *)
Lemma copy_unseen_seen (l out : list Scanner.StreamEntry) (seen : gset string)
    (k : string) :
  k ∈ (Scanner.copy_unseen l out seen).2 ->
  k ∈ seen \/ exists x, x ∈ l /\ rendering x = k.
Proof.
  revert out seen. induction l as [|e l IH]; intros out seen; simpl; [by left|].
  fold (rendering e).
  destruct (decide (rendering e ∈ seen)) as [Hs|Hs]; intros Hk; apply IH in Hk.
  - destruct Hk as [?|(x & ? & ?)]; [by left|].
    right. exists x. split; [by apply list_elem_of_further | done].
  - destruct Hk as [[->%elem_of_singleton|?]%elem_of_union|(x & ? & ?)].
    + right. exists e. split; [apply list_elem_of_here | done].
    + by left.
    + right. exists x. split; [by apply list_elem_of_further | done].
Qed.

Lemma written_sub (l : list Scanner.StreamEntry) (e : Scanner.StreamEntry) :
  e ∈ written l -> e ∈ l.
Proof.
  unfold written. assert (forall out seen,
    e ∈ (Scanner.copy_unseen l out seen).1 -> e ∈ out \/ e ∈ l) as H.
  { induction l as [|x l IH]; intros out seen; simpl; [by left|].
    destruct (decide (_ ∈ seen)); intros [He|He]%IH.
    - by left.
    - right. by apply list_elem_of_further.
    - apply elem_of_app in He as [?| ->%list_elem_of_singleton]; [by left|].
      right. apply list_elem_of_here.
    - right. by apply list_elem_of_further. }
  intros [He|He]%H; [|done]. by apply not_elem_of_nil in He.
Qed.

Lemma written_renderings (l : list Scanner.StreamEntry) :
  NoDup (map rendering (written l)).
Proof.
  apply copy_unseen_inv; [apply NoDup_nil_2|].
  intros e He. by apply not_elem_of_nil in He.
Qed.

Lemma written_triples (l : list Scanner.StreamEntry) :
  NoDup (map triple (written l)).
Proof.
  pose proof (written_renderings l) as H. rewrite rendering_of_triple in H.
  by apply NoDup_fmap_1 in H.
Qed.

(** A candidate is written when no candidate before it has its rendering. *)
Lemma written_first (pre : list Scanner.StreamEntry) (e : Scanner.StreamEntry)
    (post : list Scanner.StreamEntry) :
  Forall (fun x => rendering x <> rendering e) pre ->
  e ∈ written (pre ++ e :: post).
Proof.
  intros Hpre. unfold written. rewrite copy_unseen_app. simpl.
  fold (rendering e).
  rewrite decide_False.
  - rewrite copy_unseen_out. simpl.
    apply elem_of_app. left. apply elem_of_app. right. apply list_elem_of_here.
  - intros [Hk|(x & Hx & Hk)]%copy_unseen_seen; [by apply not_elem_of_empty in Hk|].
    rewrite Forall_forall in Hpre. by apply (Hpre x).
Qed.

Lemma same_rendering_same_entry (l : list Scanner.StreamEntry)
    (x y : Scanner.StreamEntry) :
  NoDup (map rendering l) -> x ∈ l -> y ∈ l -> rendering x = rendering y -> x = y.
Proof.
  induction l as [|z l IH]; intros Hnd Hx Hy E; [by apply not_elem_of_nil in Hx|].
  simpl in Hnd. apply NoDup_cons in Hnd as [Hz Hnd].
  apply elem_of_cons in Hx as [->|Hx]; apply elem_of_cons in Hy as [->|Hy]; auto.
  - exfalso. apply Hz. rewrite E. apply list_elem_of_In, in_map. by apply list_elem_of_In.
  - exfalso. apply Hz. rewrite <- E. apply list_elem_of_In, in_map. by apply list_elem_of_In.
Qed.

(** Of two candidates with one rendering and different triples, the first
    is written and the triple of the second is not. *)
Lemma collision_first_wins (l : list Scanner.StreamEntry) (e1 e2 : Scanner.StreamEntry) :
  collide_in l e1 e2 ->
  e1 ∈ written l /\ triple e2 ∉ map triple (written l).
Proof.
  intros (pre & mid & post & -> & Hpre & Hr & Ht).
  assert (e1 ∈ written (pre ++ e1 :: mid ++ e2 :: post)) as H1
    by by apply written_first.
  split; [done|].
  intros (e' & E & He')%list_elem_of_In%in_map_iff.
  apply list_elem_of_In in He'.
  apply Ht. rewrite <- E. f_equal.
  apply (same_rendering_same_entry _ _ _ (written_renderings _) H1 He').
  rewrite Hr. unfold rendering. unfold triple in E. by injection E as -> -> ->.
Qed.

(** C7, as the code has it. In each of the three streaming scans the
    output is the list of candidates copied through one set [seen], which
    [scan_stream] carries across the keywords. No two lines share a
    rendering [file|key|value], hence no two share a triple: a triple is
    written at most once. It is written at its first occurrence when no
    candidate before it has the same rendering, and nothing is written
    that is not a candidate. *)
Theorem streams_write_a_triple_at_most_once (self : Scanner.t)
    (driver : string -> option (list string)) (tree : list Scanner.tree_file)
    (now : string) :
  (NoDup (map triple (Scanner.scan_stream self driver))
   /\ NoDup (map triple (Scanner.scan_current_stream self tree now))
   /\ NoDup (map triple (Scanner.scan_both_stream self driver tree now)))
  /\ (Scanner.scan_stream self driver = written (history_candidates self driver)
      /\ Scanner.scan_current_stream self tree now
         = written (current_candidates self tree now)
      /\ Scanner.scan_both_stream self driver tree now
         = written (history_candidates self driver ++ current_candidates self tree now))
  /\ (forall l, NoDup (map rendering (written l)))
  /\ (forall l e, e ∈ written l -> e ∈ l)
  /\ (forall pre e post,
        Forall (fun x => rendering x <> rendering e) pre ->
        e ∈ written (pre ++ e :: post)).
Proof.
  split_and!.
  - rewrite scan_stream_written. apply written_triples.
  - rewrite scan_current_stream_written. apply written_triples.
  - rewrite scan_both_stream_written. apply written_triples.
  - apply scan_stream_written.
  - apply scan_current_stream_written.
  - apply scan_both_stream_written.
  - apply written_renderings.
  - apply written_sub.
  - apply written_first.
Qed.

Lemma streams_write_a_triple_at_most_once_witness :
  Forall (fun x => rendering x <> rendering (entry_of_hit demo_scanner second_value_hit))
         (history_candidates demo_scanner one_commit_driver)
  /\ entry_of_hit demo_scanner second_value_hit
     ∈ written (history_candidates demo_scanner one_commit_driver
                ++ [entry_of_hit demo_scanner second_value_hit]).
Proof.
  assert (Forall (fun x => rendering x
                           <> rendering (entry_of_hit demo_scanner second_value_hit))
                 (history_candidates demo_scanner one_commit_driver)) as H.
  { vm_compute. repeat constructor. discriminate. }
  split; [exact H|].
  apply (streams_write_a_triple_at_most_once demo_scanner one_commit_driver
           one_file_tree "2026-01-01T00:00:00").
  exact H.
Defined.

(** C7, as stated, fails in its second half: a triple need not be written
    on its first occurrence. The streaming scan of the history comes upon
    the triples [(a, k, v|my_api_key_1)] and [(a|k, v, my_api_key_1)], each
    once, and writes the first only. *)
Lemma second_triple_is_never_written :
  map triple (history_candidates demo_scanner colliding_driver)
  = [("a", "k", "v|my_api_key_1"); ("a|k", "v", "my_api_key_1")]
  /\ map triple (Scanner.scan_stream demo_scanner colliding_driver)
     = [("a", "k", "v|my_api_key_1")]
  /\ ("a|k", "v", "my_api_key_1")
     ∉ map triple (Scanner.scan_stream demo_scanner colliding_driver).
Proof.
  split; [by vm_compute|]. split; [by vm_compute|].
  assert (map triple (Scanner.scan_stream demo_scanner colliding_driver)
          = [("a", "k", "v|my_api_key_1")]) as -> by by vm_compute.
  intros [=]%list_elem_of_singleton.
Qed.

(** C10. The key of the streaming deduplication is the concatenation
    [file|key|value]; the triples [(a|b, c, v)] and [(a, b|c, v)] differ and
    have one key; and in each streaming scan, of two candidates with
    different triples and one key, the first is written and the triple of
    the second never is. *)
Theorem colliding_triples_first_wins (self : Scanner.t)
    (driver : string -> option (list string)) (tree : list Scanner.tree_file)
    (now : string) (e1 e2 : Scanner.StreamEntry) :
  (forall f k v, Scanner.dedup_key f k v = f +:+ "|" +:+ k +:+ "|" +:+ v)
  /\ (forall v, Scanner.dedup_key "a|b" "c" v = Scanner.dedup_key "a" "b|c" v
                /\ ("a|b", "c", v) <> ("a", "b|c", v))
  /\ (collide_in (history_candidates self driver) e1 e2 ->
      e1 ∈ Scanner.scan_stream self driver
      /\ triple e2 ∉ map triple (Scanner.scan_stream self driver))
  /\ (collide_in (current_candidates self tree now) e1 e2 ->
      e1 ∈ Scanner.scan_current_stream self tree now
      /\ triple e2 ∉ map triple (Scanner.scan_current_stream self tree now))
  /\ (collide_in (history_candidates self driver ++ current_candidates self tree now)
        e1 e2 ->
      e1 ∈ Scanner.scan_both_stream self driver tree now
      /\ triple e2 ∉ map triple (Scanner.scan_both_stream self driver tree now)).
Proof.
  split_and!.
  - reflexivity.
  - intros v. split; [reflexivity | discriminate].
  - rewrite scan_stream_written. apply collision_first_wins.
  - rewrite scan_current_stream_written. apply collision_first_wins.
  - rewrite scan_both_stream_written. apply collision_first_wins.
Qed.

Lemma colliding_triples_first_wins_witness :
  collide_in (current_candidates demo_scanner colliding_tree "2026-01-01T00:00:00")
    (entry_of_current demo_scanner "a" "k" "v|my_api_key_1" "2026-01-01T00:00:00")
    (entry_of_current demo_scanner "a|k" "v" "my_api_key_1" "2026-01-01T00:00:00")
  /\ entry_of_current demo_scanner "a" "k" "v|my_api_key_1" "2026-01-01T00:00:00"
     ∈ Scanner.scan_current_stream demo_scanner colliding_tree "2026-01-01T00:00:00"
  /\ triple (entry_of_current demo_scanner "a|k" "v" "my_api_key_1" "2026-01-01T00:00:00")
     ∉ map triple
         (Scanner.scan_current_stream demo_scanner colliding_tree "2026-01-01T00:00:00").
Proof.
  assert (collide_in (current_candidates demo_scanner colliding_tree "2026-01-01T00:00:00")
            (entry_of_current demo_scanner "a" "k" "v|my_api_key_1" "2026-01-01T00:00:00")
            (entry_of_current demo_scanner "a|k" "v" "my_api_key_1" "2026-01-01T00:00:00"))
    as H.
  { exists [], [], []. split_and!; [by vm_compute | constructor | by vm_compute | discriminate]. }
  split; [exact H|].
  apply (colliding_triples_first_wins demo_scanner colliding_driver colliding_tree
           "2026-01-01T00:00:00" _ _).
  exact H.
Defined.

(** ** The working-tree pass *)

(** *** Replacement *)

Lemma startswith_nil (s : string) : Str.startswith s "" = true.
Proof. by destruct s. Qed.

Lemma startswith_of_nil (t : string) : Str.startswith "" t = true -> t = "".
Proof. by destruct t. Qed.

Lemma contains_nonempty (t s : string) : Str.contains t s = false -> t <> "".
Proof. intros H ->. destruct s; simpl in H; discriminate. Qed.

Lemma contains_tail (t : string) (c : ascii) (s : string) :
  Str.contains t (String c s) = false ->
  Str.startswith (String c s) t = false /\ Str.contains t s = false.
Proof. simpl. intros H. by apply orb_false_elim in H. Qed.

Lemma contains_drop (t : string) (n : nat) (s : string) :
  Str.contains t s = false -> Str.contains t (Str.drop n s) = false.
Proof.
  revert s. induction n as [|n IH]; intros s H; [by destruct s|].
  destruct s as [|c s]; [done|]. simpl. apply IH. by apply contains_tail in H as [_ ?].
Qed.

(** Where [old] does not occur, [replace] changes nothing. *)
Lemma replace_absent (old new s : string) :
  Str.contains old s = false -> Str.replace old new s = s.
Proof.
  intros H. pose proof (contains_nonempty _ _ H) as Hne.
  unfold Str.replace. destruct old as [|a old]; [done|]. clear Hne.
  induction s as [|c s IH]; [done|].
  apply contains_tail in H as [H1 H2].
  cbn [Str.replace_from]. rewrite H1. f_equal. by apply IH.
Qed.

Lemma apart_tail (new : string) (b : ascii) (t : string) :
  apart new (String b t) = true -> apart new t = true.
Proof.
  unfold apart. induction new as [|a new IH]; simpl; [done|].
  intros [H1 H2]%andb_prop. rewrite IH by done.
  apply negb_true_iff in H1. apply orb_false_elim in H1 as [_ ->]. done.
Qed.

Lemma apart_head (a : ascii) (new : string) (b : ascii) (t : string) :
  apart (String a new) (String b t) = true -> Ascii.eqb b a = false.
Proof.
  unfold apart. simpl. intros [H1 _]%andb_prop.
  apply negb_true_iff in H1. by apply orb_false_elim in H1 as [-> _].
Qed.

(** A string apart from [new] that begins the output of the scan begins
    what was left of the input. *)
Lemma replace_from_prefix (old new : string) (a : ascii) (s t : string) (skip : nat) :
  apart (String a new) t = true ->
  Str.startswith (Str.replace_from old (String a new) skip s) t = true ->
  Str.startswith (Str.drop skip s) t = true.
Proof.
  revert t skip. induction s as [|c s IH]; intros t skip Hap H.
  - apply startswith_of_nil in H as ->. apply startswith_nil.
  - destruct skip as [|k]; cbn [Str.replace_from Str.drop] in *; [|by apply IH].
    destruct (Str.startswith (String c s) old).
    + destruct t as [|b t]; [done|]. simpl in H.
      by rewrite (apart_head _ _ _ _ Hap) in H.
    + destruct t as [|b t]; [done|]. cbn [Str.startswith] in *.
      destruct (Ascii.eqb b c); [|done].
      apply (IH t 0) in H; [|by apply apart_tail in Hap].
      by destruct s.
Qed.

Lemma contains_after_new (new X t : string) :
  t <> "" -> apart new t = true ->
  Str.contains t (new +:+ X) = Str.contains t X.
Proof.
  intros Hne. induction new as [|a new IH]; intros Hap; [done|].
  change (String a new +:+ X) with (String a (new +:+ X)).
  cbn [Str.contains].
  destruct t as [|b t]; [done|]. cbn [Str.startswith].
  rewrite (apart_head _ _ _ _ Hap). cbn [orb]. apply IH.
  unfold apart in *. simpl in Hap. by apply andb_prop in Hap as [_ ?].
Qed.

(** A string apart from [new] that did not occur does not occur after the
    replacement. *)
Lemma replace_from_keeps_absent (old new : string) (a : ascii) (s t : string)
    (skip : nat) :
  apart (String a new) t = true ->
  Str.contains t (Str.drop skip s) = false ->
  Str.contains t (Str.replace_from old (String a new) skip s) = false.
Proof.
  intros Hap. revert skip. induction s as [|c s IH]; intros skip H.
  - by destruct skip.
  - destruct skip as [|k]; cbn [Str.replace_from Str.drop] in *; [|by apply IH].
    pose proof (contains_nonempty _ _ H) as Hne.
    apply contains_tail in H as [H1 H2].
    destruct (Str.startswith (String c s) old) eqn:Hold.
    + rewrite contains_after_new by done. apply IH. by apply contains_drop.
    + cbn [Str.contains]. apply orb_false_intro; [|apply IH; by destruct s].
      destruct (Str.startswith (String c (Str.replace_from old (String a new) 0 s)) t)
        eqn:E; [|done].
      apply (replace_from_prefix old new a (String c s) t 0) in Hap as Hp.
      * cbn [Str.drop] in Hp. congruence.
      * cbn [Str.replace_from]. by rewrite Hold.
Qed.

(** What was replaced does not occur any more, when it is apart from
    [new]. *)
Lemma replace_from_removes (old new : string) (a : ascii) (s : string) (skip : nat) :
  old <> "" -> apart (String a new) old = true ->
  Str.contains old (Str.replace_from old (String a new) skip s) = false.
Proof.
  intros Hne Hap. revert skip. induction s as [|c s IH]; intros skip.
  - simpl. by destruct old.
  - destruct skip as [|k]; cbn [Str.replace_from]; [|by apply IH].
    destruct (Str.startswith (String c s) old) eqn:Hold.
    + rewrite contains_after_new by done. apply IH.
    + cbn [Str.contains]. apply orb_false_intro; [|apply IH].
      destruct (Str.startswith (String c (Str.replace_from old (String a new) 0 s)) old)
        eqn:E; [|done].
      apply (replace_from_prefix old new a (String c s) old 0) in Hap as Hp.
      * cbn [Str.drop] in Hp. congruence.
      * cbn [Str.replace_from]. by rewrite Hold.
Qed.

(** *** Scrubbing a text *)

Lemma plain_inv (secret : string) :
  plain secret = true ->
  secret <> "" /\ apart (String "*" "**REMOVED***") secret = true.
Proof.
  unfold plain. intros [H1 H2]%andb_prop. split; [|exact H2].
  intros ->. discriminate H1.
Qed.

Lemma replace_nonempty (old new s : string) :
  old <> "" -> Str.replace old new s = Str.replace_from old new 0 s.
Proof. by destruct old. Qed.

Lemma drop_0 (s : string) : Str.drop 0 s = s.
Proof. by destruct s. Qed.

Lemma replace_keeps_absent (secret t content : string) :
  plain secret = true -> apart Cleaner.REMOVED t = true ->
  Str.contains t content = false ->
  Str.contains t (Str.replace secret Cleaner.REMOVED content) = false.
Proof.
  intros [Hne _]%plain_inv Hap H. rewrite replace_nonempty by done.
  apply (replace_from_keeps_absent secret "**REMOVED***" "*" content t 0 Hap).
  by rewrite drop_0.
Qed.

Lemma replace_removes (secret content : string) :
  plain secret = true ->
  Str.contains secret (Str.replace secret Cleaner.REMOVED content) = false.
Proof.
  intros [Hne Hap]%plain_inv. rewrite replace_nonempty by done.
  by apply (replace_from_removes secret "**REMOVED***" "*" content 0).
Qed.

Lemma scrub_keeps_absent (secrets : list string) (t content : string) :
  forallb plain secrets = true -> apart Cleaner.REMOVED t = true ->
  Str.contains t content = false ->
  Str.contains t (Cleaner.scrub secrets content) = false.
Proof.
  intros Hpl Hap. revert content.
  induction secrets as [|s secrets IH]; intros content H; [done|].
  simpl in Hpl. apply andb_prop in Hpl as [Hs Hpl].
  unfold Cleaner.scrub. simpl. apply (IH Hpl). by apply replace_keeps_absent.
Qed.

(** A text scrubbed with plain secrets has none of them. *)
Lemma scrub_free (secrets : list string) (content : string) :
  forallb plain secrets = true ->
  free_of secrets (Cleaner.scrub secrets content) = true.
Proof.
  revert content. induction secrets as [|s secrets IH]; intros content Hpl; [done|].
  simpl in Hpl. apply andb_prop in Hpl as [Hs Hpl].
  unfold free_of, Cleaner.scrub. simpl. apply andb_true_intro. split.
  - apply negb_true_iff. apply (scrub_keeps_absent secrets s _ Hpl).
    + by apply plain_inv in Hs as [_ ?].
    + by apply replace_removes.
  - by apply IH.
Qed.

(** A text that has none of the secrets is scrubbed to itself. *)
Lemma scrub_absent (secrets : list string) (content : string) :
  free_of secrets content = true -> Cleaner.scrub secrets content = content.
Proof.
  induction secrets as [|s secrets IH]; intros H; [done|].
  unfold free_of in H. simpl in H. apply andb_prop in H as [Hs H].
  apply negb_true_iff in Hs.
  unfold Cleaner.scrub. simpl. rewrite (replace_absent _ _ _ Hs). by apply IH.
Qed.

(** *** The files *)

Lemma clean_current_files_paths (e : Cleaner.env) (secrets allowed : list string)
    (fs : gmap string string) :
  Cleaner._clean_current_files e secrets allowed fs
  = match files_to_clean e allowed with
    | None => (fs, 0)
    | Some l => foldl (Cleaner.clean_file secrets) (fs, 0) l
    end.
Proof.
  unfold Cleaner._clean_current_files, files_to_clean.
  destruct allowed; [|done]. by destruct (Cleaner.ls_files e).
Qed.

Lemma clean_file_settled (secrets : list string) (fs : gmap string string)
    (n : nat) (path : string) :
  settled secrets fs path = true ->
  Cleaner.clean_file secrets (fs, n) path = (fs, n).
Proof.
  unfold settled, Cleaner.clean_file. destruct (fs !! path) as [content|]; [|done].
  intros H. by rewrite (scrub_absent _ _ H), String.eqb_refl.
Qed.

Lemma clean_files_settled (secrets l : list string) (fs : gmap string string) (n : nat) :
  forallb (settled secrets fs) l = true ->
  foldl (Cleaner.clean_file secrets) (fs, n) l = (fs, n).
Proof.
  induction l as [|p l IH]; cbn [foldl forallb]; [done|].
  intros [Hp Hl]%andb_prop. rewrite clean_file_settled by done. by apply IH.
Qed.

Lemma clean_file_lookup (secrets : list string) (fs : gmap string string) (n : nat)
    (p q : string) :
  (Cleaner.clean_file secrets (fs, n) p).1 !! q
  = if decide (p = q) then Cleaner.scrub secrets <$> fs !! q else fs !! q.
Proof.
  unfold Cleaner.clean_file.
  destruct (decide (p = q)) as [->|Hne].
  - destruct (fs !! q) as [content|] eqn:E; simpl; [|done].
    destruct (String.eqb_spec (Cleaner.scrub secrets content) content) as [->|]; simpl.
    + done.
    + by rewrite lookup_insert_eq.
  - destruct (fs !! p) as [content|]; simpl; [|done].
    destruct (String.eqb _ content); simpl; [done|].
    by rewrite lookup_insert_ne.
Qed.

Lemma clean_file_settles (secrets : list string) (st : gmap string string * nat)
    (p q : string) :
  forallb plain secrets = true ->
  p = q \/ settled secrets st.1 q = true ->
  settled secrets (Cleaner.clean_file secrets st p).1 q = true.
Proof.
  intros Hpl H. destruct st as [fs n]. unfold settled.
  rewrite clean_file_lookup. destruct (decide (p = q)) as [->|Hne].
  - destruct (fs !! q); simpl; [by apply scrub_free | done].
  - destruct H as [?|H]; done.
Qed.

Lemma clean_files_settle (secrets l : list string) (st : gmap string string * nat)
    (q : string) :
  forallb plain secrets = true ->
  q ∈ l \/ settled secrets st.1 q = true ->
  settled secrets (foldl (Cleaner.clean_file secrets) st l).1 q = true.
Proof.
  intros Hpl. revert st. induction l as [|p l IH]; intros st H; cbn [foldl].
  - destruct H as [H|H]; [by apply not_elem_of_nil in H | done].
  - apply IH. destruct H as [[->|H]%elem_of_cons|H]; [right|by left|right].
    + apply clean_file_settles; auto.
    + apply clean_file_settles; auto.
Qed.

(** C8, as the code has it. A second run of the working-tree pass with the
    same secrets over the same files changes nothing and counts no file,
    when no secret occurs in what the first run left in the files it went
    over; so it is when no secret is empty or has a character of
    [***REMOVED***]. *)
Theorem clean_current_files_twice (e : Cleaner.env) (secrets allowed : list string)
    (fs : gmap string string) :
  let once := Cleaner._clean_current_files e secrets allowed fs in
  (no_secret_left secrets once.1 (files_to_clean e allowed) = true ->
   Cleaner._clean_current_files e secrets allowed once.1 = (once.1, 0))
  /\ (forallb plain secrets = true ->
      Cleaner._clean_current_files e secrets allowed once.1 = (once.1, 0)).
Proof.
  intros once.
  assert (no_secret_left secrets once.1 (files_to_clean e allowed) = true ->
          Cleaner._clean_current_files e secrets allowed once.1 = (once.1, 0)) as HA.
  { intros H. rewrite clean_current_files_paths.
    destruct (files_to_clean e allowed) as [l|]; [|done].
    by apply clean_files_settled. }
  split; [exact HA|].
  intros Hpl. apply HA. unfold once. rewrite clean_current_files_paths.
  destruct (files_to_clean e allowed) as [l|]; [|done].
  simpl. apply forallb_forall. intros q Hq.
  apply clean_files_settle; [done|]. left. by apply list_elem_of_In.
Qed.

Lemma clean_current_files_twice_witness :
  forallb plain ["hunter2"; "x=1"] = true
  /\ Cleaner._clean_current_files demo_env ["hunter2"; "x=1"] []
       (Cleaner._clean_current_files demo_env ["hunter2"; "x=1"] []
          (Cleaner.files demo_repo)).1
     = ((Cleaner._clean_current_files demo_env ["hunter2"; "x=1"] []
           (Cleaner.files demo_repo)).1, 0).
Proof.
  split; [reflexivity|].
  apply (clean_current_files_twice demo_env ["hunter2"; "x=1"] [] (Cleaner.files demo_repo)).
  reflexivity.
Defined.

(** C8, as stated, fails: with the secret [REMOVED] the first run turns
    [token=REMOVED] into [token=***REMOVED***] and the second run rewrites
    the marker. *)
Lemma clean_current_files_twice_differs :
  let once := Cleaner._clean_current_files removed_env ["REMOVED"] [] removed_files in
  let twice := Cleaner._clean_current_files removed_env ["REMOVED"] [] once.1 in
  once.1 !! "a.env" = Some "token=***REMOVED***"
  /\ twice.1 !! "a.env" = Some "token=******REMOVED******"
  /\ twice.1 <> once.1.
Proof.
  assert ((Cleaner._clean_current_files removed_env ["REMOVED"] [] removed_files).1
            !! "a.env" = Some "token=***REMOVED***") as H1 by by vm_compute.
  assert ((Cleaner._clean_current_files removed_env ["REMOVED"] []
             (Cleaner._clean_current_files removed_env ["REMOVED"] [] removed_files).1).1
            !! "a.env" = Some "token=******REMOVED******") as H2 by by vm_compute.
  split; [exact H1|]. split; [exact H2|].
  intros E. cbv zeta in E. rewrite E, H1 in H2. discriminate H2.
Qed.

(** * Further properties of the code *)

(** ** What the loops hand on *)

Lemma extract_loop_accepted (cfg : Config.Config) (pats : list Config.CompiledPattern)
    (line : string) (key : option string) (value : string) :
  Scanner.extract_loop cfg pats line = Return (key, Some value, true) ->
  Config.should_ignore_value cfg value = false.
Proof.
  induction pats as [|p pats IH]; simpl; [done|].
  destruct (Config.regex p line) as [groups|]; [|done].
  destruct (_ <=? _)%Z; [|done].
  destruct (py_index groups 0) as [k|]; [|done].
  destruct (_ <? _)%Z; [|done].
  destruct (py_index groups _) as [[v|]|]; try done.
  destruct (Config.should_ignore_value cfg v) eqn:E; [done|].
  by intros [= _ ->].
Qed.

(** A hit of the loop head is a good one and carries the fields of the
    cursor. *)
Lemma read_line_good (self : Scanner.t) (keyword : string) (cur cur' : Scanner.cursor)
    (raw : string) (h : Scanner.hit) :
  Scanner.read_line self keyword cur raw = (cur', Return (Some h)) ->
  good_hit self h
  /\ cur' = cur
  /\ Scanner.current_file cur = Some (Scanner.h_file h)
  /\ Scanner.h_commit h = Scanner.current_commit cur
  /\ Scanner.h_author h = Scanner.current_author cur
  /\ Scanner.h_date h = Scanner.current_date cur.
Proof.
  unfold Scanner.read_line. cbv zeta.
  destruct (Str.startswith _ "COMMIT_START|").
  { by destruct (Str.split_max _ _ _) as [|? [|? [|? [|? [|? ?]]]]]. }
  destruct (Str.startswith _ "diff --git").
  { by destruct (Scanner.b_path _). }
  destruct (_ && _); [|done].
  destruct (Scanner.current_file cur) as [[|c0 file]|] eqn:Hf; try done.
  destruct (Str.contains keyword _); [|done].
  destruct (Scanner.extract_key_value self _)
    as [[[[[|c1 k]|] [[|c2 v]|]] []]|] eqn:Hex; try done.
  destruct (Config.should_ignore_file _ _) eqn:Hig; [done|].
  intros [= <- <-]. simpl. split_and!; try done.
  by apply extract_loop_accepted in Hex.
Qed.

(** What every merge of a good hit keeps, the scan of the history keeps. *)
Lemma search_loop_keeps_good (P : Scanner.index_t -> Prop) (self : Scanner.t)
    (keyword : string) :
  (forall index h, good_hit self h -> P index -> P (Scanner.merge index h).1) ->
  forall lines cur index,
    P index -> P (Scanner.search_loop self keyword cur lines index).
Proof.
  intros Hstep. induction lines as [|raw lines IH]; intros cur index HP; simpl; [done|].
  destruct (Scanner.read_line self keyword cur raw) as [cur' [[h|]|]] eqn:E; auto.
  apply read_line_good in E as [Hgood _].
  specialize (Hstep index h Hgood HP).
  destruct (Scanner.merge index h) as [index' []]; simpl in Hstep; auto.
Qed.

Lemma scan_index_keeps_good (P : Scanner.index_t -> Prop) (self : Scanner.t)
    (driver : string -> option (list string)) :
  (forall index h, good_hit self h -> P index -> P (Scanner.merge index h).1) ->
  P [] -> P (Scanner.scan_index self driver).
Proof.
  intros Hstep. unfold Scanner.scan_index.
  generalize (@nil (string * list (string * Scanner.SecretValue))).
  induction (Config.get_all_keywords (Scanner.config self)) as [|kw kws IH];
    intros index HP; simpl; [done|].
  apply IH. unfold Scanner._search_keyword.
  destruct (driver kw); [|done]. by apply search_loop_keeps_good.
Qed.

(** What every record of an accepted pair keeps, the walk keeps. *)
Lemma current_index_keeps_good (P : Scanner.index_t -> Prop) (self : Scanner.t)
    (tree : list Scanner.tree_file) (now : string) :
  (forall index rel key value,
      Config.should_ignore_file (Scanner.config self) rel = false ->
      key <> "" -> value <> "" ->
      Config.should_ignore_value (Scanner.config self) value = false ->
      P index -> P (Scanner.record_current index rel key value now)) ->
  P [] -> P (Scanner.current_index self tree now).
Proof.
  intros Hstep. unfold Scanner.current_index.
  generalize (@nil (string * list (string * Scanner.SecretValue))).
  induction tree as [|f tree IH]; intros index HP; simpl; [done|].
  apply IH. destruct (Scanner.lines_to_search self f) as [lines|] eqn:Hl; [|done].
  assert (Config.should_ignore_file (Scanner.config self) (Scanner.rel_path f) = false)
    as Hrel.
  { unfold Scanner.lines_to_search in Hl. by destruct (Config.should_ignore_file _ _). }
  clear IH Hl. revert index HP.
  induction lines as [|line lines IHl]; intros index HP; simpl; [done|].
  assert (forall kws index, P index ->
            P (Scanner.current_keywords self (Scanner.rel_path f) line now kws index).1)
    as Hkw.
  { clear -Hstep Hrel. induction kws as [|kw kws IHk]; intros index HP; simpl; [done|].
    destruct (Str.contains kw line); [|by apply IHk].
    destruct (Scanner.extract_key_value self line)
      as [[[[[|c1 k]|] [[|c2 v]|]] []]|] eqn:Hex; simpl; auto.
    apply IHk, Hstep; try done. by apply extract_loop_accepted in Hex. }
  specialize (Hkw (Config.get_all_keywords (Scanner.config self)) index HP).
  destruct (Scanner.current_keywords _ _ _ _ _ _) as [index' []]; simpl in Hkw; auto.
Qed.

(** *** Records of the index *)

Lemma dict_set_elem {V : Type} (d : list (string * V)) (k : string) (v : V)
    (k' : string) (v' : V) :
  (k', v') ∈ Scanner.dict_set d k v -> (k' = k /\ v' = v) \/ (k', v') ∈ d.
Proof.
  induction d as [|[k0 v0] d IH]; simpl.
  - intros [=]%list_elem_of_singleton. by left.
  - destruct (String.eqb_spec k0 k) as [->|Hne].
    + intros [[= -> ->]|H]%elem_of_cons; [by left|].
      right. by apply list_elem_of_further.
    + intros [[= -> ->]|H]%elem_of_cons; [right; apply list_elem_of_here|].
      apply IH in H as [?|?]; [by left|]. right. by apply list_elem_of_further.
Qed.

Lemma dict_set_set {V : Type} (d : list (string * V)) (k : string) (v v' : V) :
  Scanner.dict_set (Scanner.dict_set d k v) k v' = Scanner.dict_set d k v'.
Proof.
  induction d as [|[k0 v0] d IH]; simpl.
  - by rewrite String.eqb_refl.
  - destruct (String.eqb k0 k) eqn:E; simpl; rewrite E; [done | by rewrite IH].
Qed.

Lemma index_all_nil (R : string -> string -> Scanner.SecretValue -> Prop) :
  index_all R [].
Proof. intros f fi k sv H. by apply not_elem_of_nil in H. Qed.

Lemma index_all_set (R : string -> string -> Scanner.SecretValue -> Prop)
    (index : Scanner.index_t) (f : string) (fi : list (string * Scanner.SecretValue)) :
  index_all R index ->
  (forall k sv, (k, sv) ∈ fi -> R f k sv) ->
  index_all R (Scanner.dict_set index f fi).
Proof.
  intros Hall Hfi f' fi' k sv [[-> ->]|H]%dict_set_elem Hk; [by apply Hfi|].
  by apply (Hall f' fi').
Qed.

Lemma index_all_open (R : string -> string -> Scanner.SecretValue -> Prop)
    (index : Scanner.index_t) (f : string) :
  index_all R index ->
  index_all R (match Scanner.dict_get index f with
               | None => Scanner.dict_set index f []
               | Some _ => index
               end).
Proof.
  intros Hall. destruct (Scanner.dict_get index f); [done|].
  apply index_all_set; [done|]. intros k sv H. by apply not_elem_of_nil in H.
Qed.

Lemma index_all_file (R : string -> string -> Scanner.SecretValue -> Prop)
    (index : Scanner.index_t) (f k : string) (sv : Scanner.SecretValue) :
  index_all R index ->
  (k, sv) ∈ default [] (Scanner.dict_get index f) -> R f k sv.
Proof.
  intros Hall. destruct (Scanner.dict_get index f) as [fi|] eqn:E; simpl.
  - apply dict_get_Some in E. by apply Hall.
  - intros H. by apply not_elem_of_nil in H.
Qed.

(** [merge] keeps a property of the records that [touch] keeps and that the
    touched fresh record has. *)
Lemma merge_all (R : string -> string -> Scanner.SecretValue -> Prop)
    (index : Scanner.index_t) (h : Scanner.hit) :
  (forall sv, sv = fresh_value h \/ R (Scanner.h_file h) (Scanner.h_key h) sv ->
              R (Scanner.h_file h) (Scanner.h_key h) (Scanner.touch sv h).1) ->
  index_all R index -> index_all R (Scanner.merge index h).1.
Proof.
  intros Htouch Hall. unfold Scanner.merge. cbv zeta.
  pose proof (index_all_open R index (Scanner.h_file h) Hall) as Hall1.
  set (index1 := match Scanner.dict_get index (Scanner.h_file h) with
                 | None => _ | Some _ => _ end) in *.
  pose proof (fun k sv => index_all_file R index1 (Scanner.h_file h) k sv Hall1) as Hfi.
  set (fi := default [] (Scanner.dict_get index1 (Scanner.h_file h))) in *.
  fold (fresh_value h).
  destruct (Scanner.dict_get fi (Scanner.h_key h)) as [sv0|] eqn:Hk.
  - rewrite Hk. destruct (Scanner.touch sv0 h) as [sv' raised] eqn:Ht. simpl.
    apply index_all_set; [done|].
    intros k sv [[-> ->]|H]%dict_set_elem; [|by apply Hfi].
    replace sv' with (Scanner.touch sv0 h).1 by by rewrite Ht.
    apply Htouch. right. by apply Hfi, dict_get_Some.
  - rewrite dict_get_set.
    destruct (Scanner.touch (fresh_value h) h) as [sv' raised] eqn:Ht. simpl.
    apply index_all_set; [done|]. rewrite dict_set_set.
    intros k sv [[-> ->]|H]%dict_set_elem; [|by apply Hfi].
    replace sv' with (Scanner.touch (fresh_value h) h).1 by by rewrite Ht.
    apply Htouch. by left.
Qed.

Lemma record_current_all (R : string -> string -> Scanner.SecretValue -> Prop)
    (index : Scanner.index_t) (rel key value now : string) :
  R rel key (current_value value now) ->
  index_all R index -> index_all R (Scanner.record_current index rel key value now).
Proof.
  intros Hnew Hall. unfold Scanner.record_current. cbv zeta.
  pose proof (index_all_open R index rel Hall) as Hall1.
  set (index1 := match Scanner.dict_get index rel with
                 | None => _ | Some _ => _ end) in *.
  pose proof (fun k sv => index_all_file R index1 rel k sv Hall1) as Hfi.
  destruct (Scanner.dict_get _ key); [done|].
  apply index_all_set; [done|].
  intros k sv [[-> ->]|H]%dict_set_elem; [done | by apply Hfi].
Qed.

(** A secret built from the index, with the record it is built from. *)
Lemma build_secrets_record (R : string -> string -> Scanner.SecretValue -> Prop)
    (self : Scanner.t) (index : Scanner.index_t) (s : Scanner.Secret) :
  index_all R index ->
  s ∈ Scanner._build_secrets self index ->
  exists sv,
    Scanner.history s = [sv]
    /\ R (Scanner.file s) (Scanner.key s) sv
    /\ Scanner.change_count s = length (Scanner.commits sv)
    /\ Scanner.total_occurrences s = length (Scanner.commits sv)
    /\ Scanner.s_authors s = Scanner.authors sv
    /\ Scanner.type s
       = Scanner.secret_type_of (Config.keywords (Scanner.config self)) (Scanner.key s).
Proof.
  intros Hall Hs. unfold Scanner._build_secrets in Hs.
  rewrite sort_by_file_key_perm in Hs.
  apply list_elem_of_In, in_flat_map in Hs as ([f fi] & Hf & Hs).
  apply in_map_iff in Hs as ([k sv] & <- & Hk).
  exists sv. simpl. split_and!; try done.
  apply (Hall f fi); by apply list_elem_of_In.
Qed.

(** *** The union of [scan_both], with the precedence of the history *)

Lemma dict_get_set_some {V : Type} (d : list (string * V)) (k k' : string) (v : V) :
  k' = k \/ is_Some (Scanner.dict_get d k') ->
  is_Some (Scanner.dict_get (Scanner.dict_set d k v) k').
Proof.
  intros H. induction d as [|[k0 v0] d IH]; simpl.
  - destruct H as [->|[? [=]]]. by rewrite String.eqb_refl.
  - destruct (String.eqb_spec k0 k) as [->|Hne]; simpl.
    + destruct (String.eqb_spec k k') as [->|Hne']; [done|].
      simpl in H. destruct (String.eqb_spec k k'); [done|].
      destruct H as [->|H]; done.
    + destruct (String.eqb_spec k0 k') as [->|Hne']; [done|].
      apply IH. simpl in H. destruct (String.eqb_spec k0 k'); [done|]. done.
Qed.

Lemma both_first_loop (A B l : list Scanner.Secret)
    (all_secrets : list (string * Scanner.Secret)) :
  (forall s, s ∈ l -> s ∈ A) ->
  both_ok A B all_secrets ->
  both_ok A B
    (foldl (fun all_secrets secret =>
              Scanner.dict_set all_secrets (Scanner.both_key secret) secret)
           all_secrets l)
  /\ (forall h, h ∈ l \/ is_Some (Scanner.dict_get all_secrets (Scanner.both_key h)) ->
        is_Some (Scanner.dict_get
                   (foldl (fun all_secrets secret =>
                             Scanner.dict_set all_secrets (Scanner.both_key secret) secret)
                          all_secrets l)
                   (Scanner.both_key h))).
Proof.
  revert all_secrets. induction l as [|s l IH]; intros all_secrets Hl Hok; simpl.
  - split; [done|]. intros h [H|H]; [by apply not_elem_of_nil in H | done].
  - destruct (IH (Scanner.dict_set all_secrets (Scanner.both_key s) s)) as [IH1 IH2].
    + intros s' Hs'. apply Hl. by apply list_elem_of_further.
    + apply dict_set_entries; [done|]. split; [done|]. left. apply Hl, list_elem_of_here.
    + split; [done|]. intros h H. apply IH2.
      destruct H as [[->|H]%elem_of_cons|H]; [right|by left|right];
        apply dict_get_set_some; auto.
Qed.

Lemma both_second_loop (A B l : list Scanner.Secret)
    (all_secrets : list (string * Scanner.Secret)) :
  (forall s, s ∈ l -> s ∈ B) ->
  (forall h, h ∈ A -> is_Some (Scanner.dict_get all_secrets (Scanner.both_key h))) ->
  both_ok A B all_secrets ->
  both_ok A B
    (foldl (fun all_secrets secret =>
              match Scanner.dict_get all_secrets (Scanner.both_key secret) with
              | None => Scanner.dict_set all_secrets (Scanner.both_key secret) secret
              | Some _ => all_secrets
              end)
           all_secrets l)
  /\ (forall c, c ∈ l \/ is_Some (Scanner.dict_get all_secrets (Scanner.both_key c)) ->
        is_Some (Scanner.dict_get
                   (foldl (fun all_secrets secret =>
                             match Scanner.dict_get all_secrets (Scanner.both_key secret) with
                             | None =>
                                 Scanner.dict_set all_secrets (Scanner.both_key secret) secret
                             | Some _ => all_secrets
                             end)
                          all_secrets l)
                   (Scanner.both_key c))).
Proof.
  revert all_secrets. induction l as [|s l IH]; intros all_secrets Hl HA Hok; simpl.
  - split; [done|]. intros h [H|H]; [by apply not_elem_of_nil in H | done].
  - assert (forall s', s' ∈ l -> s' ∈ B) as Hl'
      by (intros s' Hs'; apply Hl; by apply list_elem_of_further).
    destruct (Scanner.dict_get all_secrets (Scanner.both_key s)) as [s0|] eqn:E.
    + destruct (IH all_secrets Hl' HA Hok) as [IH1 IH2]. split; [done|].
      intros c [[->|H]%elem_of_cons|H]; apply IH2; [right|by left|by right].
      by rewrite E.
    + destruct (IH (Scanner.dict_set all_secrets (Scanner.both_key s) s)) as [IH1 IH2];
        [done| | |].
      * intros h Hh. apply dict_get_set_some. right. by apply HA.
      * apply dict_set_entries; [done|]. split; [done|]. right.
        split; [apply Hl, list_elem_of_here|].
        intros h Hh Eq. apply HA in Hh as [? Hh]. simpl in Eq. congruence.
      * split; [done|]. intros c H. apply IH2.
        destruct H as [[->|H]%elem_of_cons|H]; [right|by left|right];
          apply dict_get_set_some; auto.
Qed.

Lemma both_dict_ok (R Rc : Scanner.ScanResult) :
  both_ok (Scanner.secrets R) (Scanner.secrets Rc) (both_dict R Rc)
  /\ (forall s, s ∈ Scanner.secrets R \/ s ∈ Scanner.secrets Rc ->
        is_Some (Scanner.dict_get (both_dict R Rc) (Scanner.both_key s))).
Proof.
  unfold both_dict.
  destruct (both_first_loop (Scanner.secrets R) (Scanner.secrets Rc) (Scanner.secrets R) [])
    as [H1 H2]; [done | constructor |].
  destruct (both_second_loop (Scanner.secrets R) (Scanner.secrets Rc) (Scanner.secrets Rc)
              (foldl (fun all_secrets secret =>
                        Scanner.dict_set all_secrets (Scanner.both_key secret) secret)
                     [] (Scanner.secrets R))) as [H3 H4]; [done| |done|].
  { intros h Hh. apply H2. by left. }
  split; [done|]. intros s [Hs|Hs]; apply H4; [right|by left].
  apply H2. by left.
Qed.

Lemma scan_both_secrets (self : Scanner.t) (driver : string -> option (list string))
    (tree : list Scanner.tree_file) (repo_path branch now : string) :
  Scanner.secrets (Scanner.scan_both self driver tree repo_path branch now)
  ≡ₚ map snd (both_dict (Scanner.scan self driver repo_path branch now)
                (Scanner.scan_current self tree repo_path now)).
Proof. apply sort_by_file_key_perm. Qed.

(** ** What the scans report *)

Lemma scan_both_from (self : Scanner.t) (driver : string -> option (list string))
    (tree : list Scanner.tree_file) (repo_path branch now : string) (s : Scanner.Secret) :
  s ∈ Scanner.secrets (Scanner.scan_both self driver tree repo_path branch now) ->
  s ∈ Scanner.secrets (Scanner.scan self driver repo_path branch now)
  \/ s ∈ Scanner.secrets (Scanner.scan_current self tree repo_path now).
Proof.
  rewrite scan_both_secrets. intros ([k s'] & <- & Hin)%list_elem_of_In%in_map_iff.
  destruct (both_dict_ok (Scanner.scan self driver repo_path branch now)
              (Scanner.scan_current self tree repo_path now)) as [Hok _].
  unfold both_ok in Hok. rewrite Forall_forall in Hok.
  apply list_elem_of_In, Hok in Hin as [_ [H|[H _]]]; auto.
Qed.

Lemma scan_index_accepted (self : Scanner.t) (driver : string -> option (list string)) :
  index_all (accepted_record self) (Scanner.scan_index self driver).
Proof.
  apply scan_index_keeps_good; [|apply index_all_nil].
  intros index h (Hf & Hk & Hv & Hif & Hiv) Hall. apply merge_all; [|done].
  intros sv H. destruct (touch_fields sv h) as (Ev & Em & _).
  unfold accepted_record. rewrite Ev, Em.
  destruct H as [->|(_ & _ & ? & ? & ?)]; simpl; done.
Qed.

Lemma current_index_accepted (self : Scanner.t) (tree : list Scanner.tree_file)
    (now : string) :
  index_all (accepted_record self) (Scanner.current_index self tree now).
Proof.
  apply current_index_keeps_good; [|apply index_all_nil].
  intros index rel key value Hif Hk Hv Hiv Hall. by apply record_current_all.
Qed.

(** X1. Whatever the history and the working tree hold, a secret that
    [scan], [scan_current] or [scan_both] reports is under a file that
    [should_ignore_file] does not ignore, has a key that is not empty, and
    its history entry has a value that is not empty, that
    [should_ignore_value] does not reject and whose masked value is its
    mask. *)
Theorem scans_report_accepted_values (self : Scanner.t)
    (driver : string -> option (list string)) (tree : list Scanner.tree_file)
    (repo_path branch now : string) (s : Scanner.Secret) :
  s ∈ Scanner.secrets (Scanner.scan self driver repo_path branch now)
  \/ s ∈ Scanner.secrets (Scanner.scan_current self tree repo_path now)
  \/ s ∈ Scanner.secrets (Scanner.scan_both self driver tree repo_path branch now) ->
  Config.should_ignore_file (Scanner.config self) (Scanner.file s) = false
  /\ Scanner.key s <> ""
  /\ exists sv,
       Scanner.history s = [sv]
       /\ Scanner.value sv <> ""
       /\ Config.should_ignore_value (Scanner.config self) (Scanner.value sv) = false
       /\ Scanner.masked_value sv = Scanner.mask_secret (Scanner.value sv).
Proof.
  intros H.
  assert (s ∈ Scanner.secrets (Scanner.scan self driver repo_path branch now)
          \/ s ∈ Scanner.secrets (Scanner.scan_current self tree repo_path now)) as H'.
  { destruct H as [?|[?|?%scan_both_from]]; auto. }
  clear H. destruct H' as [H|H].
  - apply (build_secrets_record _ _ _ _ (scan_index_accepted self driver)) in H
      as (sv & Hh & (? & ? & ? & ? & ?) & _). eauto 10.
  - apply (build_secrets_record _ _ _ _ (current_index_accepted self tree now)) in H
      as (sv & Hh & (? & ? & ? & ? & ?) & _). eauto 10.
Qed.

Lemma scans_report_accepted_values_witness :
  found_secret ∈ Scanner.secrets
                   (Scanner.scan demo_scanner one_commit_driver "/repo" "--all"
                      "2026-01-01T00:00:00")
  /\ Config.should_ignore_file demo_config (Scanner.file found_secret) = false
  /\ Scanner.key found_secret <> "".
Proof.
  assert (found_secret ∈ Scanner.secrets
            (Scanner.scan demo_scanner one_commit_driver "/repo" "--all"
               "2026-01-01T00:00:00")) as H.
  { vm_compute. apply list_elem_of_here. }
  split; [exact H|].
  pose proof (scans_report_accepted_values demo_scanner one_commit_driver one_file_tree
                "/repo" "--all" "2026-01-01T00:00:00" found_secret (or_introl H))
    as (H1 & H2 & _).
  split; [exact H1 | exact H2].
Defined.

(** *** Commits and authors *)

Lemma append_new_NoDup (x : option string) (l : list (option string)) :
  NoDup l -> NoDup (Scanner.append_new x l).
Proof.
  intros H. unfold Scanner.append_new. destruct (decide (x ∈ l)); [done|].
  apply NoDup_app. split_and!; [done| |apply NoDup_singleton].
  by intros y Hy ->%list_elem_of_singleton.
Qed.

Lemma append_new_nonempty (x : option string) (l : list (option string)) :
  Scanner.append_new x l <> [].
Proof.
  unfold Scanner.append_new. destruct (decide (x ∈ l)) as [H|H].
  - intros ->. by apply not_elem_of_nil in H.
  - by destruct l.
Qed.

Lemma merge_distinct (index : Scanner.index_t) (h : Scanner.hit) :
  index_all (fun _ _ => distinct_record) index ->
  index_all (fun _ _ => distinct_record) (Scanner.merge index h).1.
Proof.
  apply merge_all. intros sv H.
  destruct (touch_fields sv h) as (_ & _ & Ec & Ea).
  unfold distinct_record. rewrite Ec, Ea.
  split_and!; try apply append_new_nonempty; apply append_new_NoDup;
    destruct H as [->|(? & ? & _)]; simpl; try done; apply NoDup_nil_2.
Qed.

(** X2. In the result of [scan], the history entry of a secret lists each
    commit and each author once, and at least one of each; so
    [change_count], which is also [total_occurrences], is the number of
    distinct commits in which the pair was seen, and is at least 1. *)
Theorem change_count_counts_distinct_commits (self : Scanner.t)
    (driver : string -> option (list string)) (repo_path branch now : string)
    (s : Scanner.Secret) :
  s ∈ Scanner.secrets (Scanner.scan self driver repo_path branch now) ->
  exists sv,
    Scanner.history s = [sv]
    /\ NoDup (Scanner.commits sv) /\ NoDup (Scanner.authors sv)
    /\ Scanner.change_count s = length (Scanner.commits sv)
    /\ Scanner.total_occurrences s = Scanner.change_count s
    /\ Scanner.s_authors s = Scanner.authors sv
    /\ 1 <= Scanner.change_count s
    /\ 1 <= length (Scanner.s_authors s).
Proof.
  intros H.
  assert (index_all (fun _ _ => distinct_record) (Scanner.scan_index self driver)) as Hall.
  { apply scan_index_keeps; [|apply index_all_nil]. intros. by apply merge_distinct. }
  apply (build_secrets_record _ _ _ _ Hall) in H
    as (sv & Hh & (Hc & Ha & Hnc & Hna) & Ecc & Eto & Eau & _).
  exists sv. rewrite Ecc, Eto, Eau. split_and!; try done.
  - destruct (Scanner.commits sv); [done | simpl; lia].
  - destruct (Scanner.authors sv); [done | simpl; lia].
Qed.

Lemma change_count_counts_distinct_commits_witness :
  found_secret ∈ Scanner.secrets
                   (Scanner.scan demo_scanner one_commit_driver "/repo" "--all"
                      "2026-01-01T00:00:00")
  /\ exists sv,
      Scanner.history found_secret = [sv]
      /\ NoDup (Scanner.commits sv) /\ NoDup (Scanner.authors sv)
      /\ Scanner.change_count found_secret = length (Scanner.commits sv)
      /\ Scanner.total_occurrences found_secret = Scanner.change_count found_secret
      /\ Scanner.s_authors found_secret = Scanner.authors sv
      /\ 1 <= Scanner.change_count found_secret
      /\ 1 <= length (Scanner.s_authors found_secret).
Proof.
  assert (found_secret ∈ Scanner.secrets
            (Scanner.scan demo_scanner one_commit_driver "/repo" "--all"
               "2026-01-01T00:00:00")) as H.
  { vm_compute. apply list_elem_of_here. }
  split; [exact H|].
  exact (change_count_counts_distinct_commits demo_scanner one_commit_driver
           "/repo" "--all" "2026-01-01T00:00:00" found_secret H).
Defined.

(** *** The working tree *)

(** X3. A secret that [scan_current] reports has no commit and no author:
    [change_count] and [total_occurrences] are 0, and its history entry is
    the record made when the pair was first met, seen first and last at the
    time of the walk. *)
Theorem scan_current_secrets_have_no_commits (self : Scanner.t)
    (tree : list Scanner.tree_file) (repo_path now : string) (s : Scanner.Secret) :
  s ∈ Scanner.secrets (Scanner.scan_current self tree repo_path now) ->
  Scanner.change_count s = 0 /\ Scanner.total_occurrences s = 0
  /\ Scanner.s_authors s = []
  /\ exists value, Scanner.history s = [current_value value now].
Proof.
  intros H.
  assert (index_all (fun _ _ sv => sv = current_value (Scanner.value sv) now)
            (Scanner.current_index self tree now)) as Hall.
  { apply current_index_keeps; [|apply index_all_nil].
    intros. by apply record_current_all. }
  apply (build_secrets_record _ _ _ _ Hall) in H as (sv & Hh & E & Ecc & Eto & Eau & _).
  rewrite Ecc, Eto, Eau, Hh, E. simpl. split_and!; try done. by eexists.
Qed.

Lemma scan_current_secrets_have_no_commits_witness :
  walked_secret "2026-01-01T00:00:00"
  ∈ Scanner.secrets
      (Scanner.scan_current demo_scanner one_file_tree "/repo" "2026-01-01T00:00:00")
  /\ Scanner.change_count (walked_secret "2026-01-01T00:00:00") = 0.
Proof.
  assert (walked_secret "2026-01-01T00:00:00"
          ∈ Scanner.secrets
              (Scanner.scan_current demo_scanner one_file_tree "/repo"
                 "2026-01-01T00:00:00")) as H.
  { vm_compute. apply list_elem_of_here. }
  split; [exact H|].
  apply (scan_current_secrets_have_no_commits demo_scanner one_file_tree "/repo"
           "2026-01-01T00:00:00" _ H).
Defined.

(** *** The union *)

(** X4. In the result of [scan_both], a secret is one of the history scan,
    or one of the working-tree scan whose [file|key] no secret of the
    history scan has; so on a pair that both scans found the secret of the
    history is the one kept. Conversely each secret of either scan has its
    [file|key] in the union, that of a history secret under a history
    secret. *)
Theorem scan_both_history_wins (self : Scanner.t)
    (driver : string -> option (list string)) (tree : list Scanner.tree_file)
    (repo_path branch now : string) :
  let R := Scanner.scan self driver repo_path branch now in
  let Rc := Scanner.scan_current self tree repo_path now in
  let Rb := Scanner.scan_both self driver tree repo_path branch now in
  (forall s, s ∈ Scanner.secrets Rb ->
     s ∈ Scanner.secrets R
     \/ (s ∈ Scanner.secrets Rc
         /\ forall h, h ∈ Scanner.secrets R ->
                      Scanner.both_key h <> Scanner.both_key s
                      /\ pair_of h <> pair_of s))
  /\ (forall h, h ∈ Scanner.secrets R ->
        exists s, s ∈ Scanner.secrets Rb /\ s ∈ Scanner.secrets R
                  /\ Scanner.both_key s = Scanner.both_key h)
  /\ (forall c, c ∈ Scanner.secrets Rc ->
        exists s, s ∈ Scanner.secrets Rb /\ Scanner.both_key s = Scanner.both_key c)
  /\ Scanner.secrets_found Rb = length (Scanner.secrets Rb).
Proof.
  intros R Rc Rb.
  destruct (both_dict_ok R Rc) as [Hok Hsome].
  unfold both_ok in Hok. rewrite Forall_forall in Hok.
  assert (forall s, s ∈ Scanner.secrets Rb <-> exists k, (k, s) ∈ both_dict R Rc) as Hin.
  { intros s. unfold Rb. rewrite scan_both_secrets. fold R Rc. split.
    - intros ([k s'] & <- & H)%list_elem_of_In%in_map_iff.
      exists k. by apply list_elem_of_In.
    - intros [k H]. apply list_elem_of_In, in_map_iff. exists (k, s).
      split; [done | by apply list_elem_of_In]. }
  split_and!.
  - intros s [k Hs]%Hin. apply Hok in Hs as [Ek [H|[H Hno]]]; [by left|right].
    simpl in *. split; [done|]. intros h Hh. split.
    + rewrite <- Ek. by apply Hno.
    + intros E. apply (Hno h Hh). rewrite Ek. unfold Scanner.both_key.
      unfold pair_of in E. by injection E as -> ->.
  - intros h Hh. destruct (Hsome h (or_introl Hh)) as [s Hs].
    apply dict_get_Some in Hs. pose proof (Hok _ Hs) as [Ek [H|[_ Hno]]]; simpl in *.
    + exists s. split_and!; [apply Hin; eauto | done | done].
    + by destruct (Hno h Hh).
  - intros c Hc. destruct (Hsome c (or_intror Hc)) as [s Hs].
    apply dict_get_Some in Hs. pose proof (Hok _ Hs) as [Ek _]; simpl in *.
    exists s. split; [apply Hin; eauto | done].
  - reflexivity.
Qed.

Lemma scan_both_history_wins_witness :
  found_secret
  ∈ Scanner.secrets (Scanner.scan demo_scanner one_commit_driver "/repo" "--all"
                       "2026-01-01T00:00:00")
  /\ exists s,
      s ∈ Scanner.secrets
            (Scanner.scan_both demo_scanner one_commit_driver one_file_tree
               "/repo" "--all" "2026-01-01T00:00:00")
      /\ s ∈ Scanner.secrets
               (Scanner.scan demo_scanner one_commit_driver "/repo" "--all"
                  "2026-01-01T00:00:00")
      /\ Scanner.both_key s = Scanner.both_key found_secret.
Proof.
  assert (found_secret ∈ Scanner.secrets
            (Scanner.scan demo_scanner one_commit_driver "/repo" "--all"
               "2026-01-01T00:00:00")) as H.
  { vm_compute. apply list_elem_of_here. }
  split; [exact H|].
  pose proof (scan_both_history_wins demo_scanner one_commit_driver one_file_tree
                "/repo" "--all" "2026-01-01T00:00:00") as (_ & H2 & _).
  exact (H2 found_secret H).
Defined.

(** *** Order *)

Lemma ltb_lts (a b : string) :
  String.ltb a b = true <-> OrderedTypeEx.String_as_OT.lt a b.
Proof.
  rewrite <- OrderedTypeEx.String_as_OT.cmp_lt.
  unfold String.ltb, OrderedTypeEx.String_as_OT.cmp.
  destruct (String.compare a b); split; done.
Qed.

Lemma ltb_trans (a b c : string) :
  String.ltb a b = true -> String.ltb b c = true -> String.ltb a c = true.
Proof.
  rewrite !ltb_lts. apply OrderedTypeEx.String_as_OT.lt_trans.
Qed.

Lemma ltb_irrefl (a : string) : String.ltb a a = false.
Proof.
  unfold String.ltb. replace (String.compare a a) with Eq; [done|].
  symmetry. pose proof (String.compare_antisym a a) as H.
  destruct (String.compare a a); simpl in H; congruence.
Qed.

Lemma ltb_asym (a b : string) : String.ltb a b = true -> String.ltb b a = false.
Proof.
  unfold String.ltb. rewrite (String.compare_antisym a b).
  by destruct (String.compare b a).
Qed.

Lemma ltb_total (a b : string) :
  String.ltb a b = false -> String.ltb b a = false -> a = b.
Proof.
  unfold String.ltb. rewrite (String.compare_antisym a b).
  destruct (String.compare b a) eqn:E; simpl; try done.
  intros _ _. symmetry. by apply String.compare_eq_iff.
Qed.

Lemma file_key_lt_trans (a b c : Scanner.Secret) :
  Scanner.file_key_lt a b = true -> Scanner.file_key_lt b c = true ->
  Scanner.file_key_lt a c = true.
Proof.
  unfold Scanner.file_key_lt.
  intros [H1|[E1%String.eqb_eq H1]%andb_prop]%orb_prop
         [H2|[E2%String.eqb_eq H2]%andb_prop]%orb_prop.
  - by rewrite (ltb_trans _ _ _ H1 H2).
  - rewrite <- E2. by rewrite H1.
  - rewrite E1. by rewrite H2.
  - rewrite E1, E2, String.eqb_refl, (ltb_trans _ _ _ H1 H2). apply orb_true_r.
Qed.

Lemma file_key_lt_asym (a b : Scanner.Secret) :
  Scanner.file_key_lt a b = true -> Scanner.file_key_lt b a = false.
Proof.
  unfold Scanner.file_key_lt.
  intros [H|[E%String.eqb_eq H]%andb_prop]%orb_prop.
  - rewrite (ltb_asym _ _ H). simpl.
    destruct (String.eqb_spec (Scanner.file b) (Scanner.file a)) as [E|]; [|done].
    rewrite E, ltb_irrefl in H. done.
  - rewrite E, ltb_irrefl, String.eqb_refl, (ltb_asym _ _ H). done.
Qed.

Lemma file_key_lt_total (a b : Scanner.Secret) :
  Scanner.file_key_lt a b = false -> Scanner.file_key_lt b a = false ->
  pair_of a = pair_of b.
Proof.
  unfold Scanner.file_key_lt, pair_of.
  intros [H1 H1']%orb_false_elim [H2 H2']%orb_false_elim.
  pose proof (ltb_total _ _ H1 H2) as E. rewrite E in *.
  rewrite String.eqb_refl in H1', H2'. simpl in *.
  by rewrite (ltb_total _ _ H1' H2').
Qed.

(** Insertion keeps the list in order: no element is before the one in
    front of it. *)
Lemma insert_sorted_sorted (x : Scanner.Secret) (l : list Scanner.Secret) :
  Sorted (fun a b => Scanner.file_key_lt b a = false) l ->
  Sorted (fun a b => Scanner.file_key_lt b a = false) (Scanner.insert_sorted x l).
Proof.
  induction l as [|y l IH]; intros Hs; simpl.
  - by repeat constructor.
  - destruct (Scanner.file_key_lt y x) eqn:E.
    + apply Sorted_inv in Hs as [Hs Hhd]. constructor; [by apply IH|].
      destruct l as [|z l]; simpl.
      * constructor. by apply file_key_lt_asym.
      * destruct (Scanner.file_key_lt z x); constructor.
        -- by inversion Hhd.
        -- by apply file_key_lt_asym.
    + constructor; [done|]. by constructor.
Qed.

Lemma sort_by_file_key_sorted (l : list Scanner.Secret) :
  Sorted (fun a b => Scanner.file_key_lt b a = false) (Scanner.sort_by_file_key l).
Proof.
  unfold Scanner.sort_by_file_key. induction l as [|x l IH]; simpl; [constructor|].
  by apply insert_sorted_sorted.
Qed.

(** A list in order whose pairs are distinct is in strict order. *)
Lemma sorted_distinct_strict (l : list Scanner.Secret) :
  Sorted (fun a b => Scanner.file_key_lt b a = false) l ->
  NoDup (map pair_of l) ->
  StronglySorted file_key_before l.
Proof.
  intros Hs Hnd. apply Sorted_StronglySorted.
  { intros a b c. apply file_key_lt_trans. }
  induction l as [|a l IH]; [constructor|].
  apply Sorted_inv in Hs as [Hs Hhd]. simpl in Hnd. apply NoDup_cons in Hnd as [Ha Hnd].
  constructor; [by apply IH|].
  destruct l as [|b l]; constructor. inversion Hhd; subst.
  unfold file_key_before.
  destruct (Scanner.file_key_lt a b) eqn:E; [done|]. exfalso. apply Ha.
  rewrite (file_key_lt_total a b E) by done. simpl. apply list_elem_of_here.
Qed.

(** X5. The secrets of [scan], of [scan_current] and of [scan_both] come in
    strictly ascending order of [(file, key)]: each one is before all those
    that follow it. *)
Theorem scan_secrets_in_file_key_order (self : Scanner.t)
    (driver : string -> option (list string)) (tree : list Scanner.tree_file)
    (repo_path branch now : string) :
  StronglySorted file_key_before
    (Scanner.secrets (Scanner.scan self driver repo_path branch now))
  /\ StronglySorted file_key_before
       (Scanner.secrets (Scanner.scan_current self tree repo_path now))
  /\ StronglySorted file_key_before
       (Scanner.secrets (Scanner.scan_both self driver tree repo_path branch now)).
Proof.
  split_and!; apply sorted_distinct_strict; try apply sort_by_file_key_sorted.
  - apply build_secrets_pairs, scan_index_ok.
  - apply build_secrets_pairs, current_index_ok.
  - rewrite (Permutation_map pair_of (scan_both_secrets _ _ _ _ _ _)).
    unfold both_dict.
    eapply union_ok_pairs.
    apply union_second_loop; [intros; apply elem_of_app; right; eassumption|].
    apply (union_first_loop _ _ 0); [intros; apply elem_of_app; left; eassumption|].
    split_and!; [apply NoDup_nil_2 | constructor | simpl; lia].
Qed.

(** *** Dates *)

Lemma touch_dated (sv : Scanner.SecretValue) (h : Scanner.hit) :
  dated_record sv -> dated_record (Scanner.touch sv h).1.
Proof.
  unfold dated_record, Scanner.touch, Scanner.unset_or, Scanner.py_lt, Scanner.py_gt.
  destruct sv as [v m c au fs ls], h as [hf hk hv hc ha hd]. simpl.
  intros H.
  destruct fs as [[|f0 fs]|], hd as [d|]; simpl;
    repeat match goal with
           | |- context [String.ltb ?x ?y] =>
               let E := fresh "E" in destruct (String.ltb x y) eqn:E; simpl
           | |- context [match ?l with Some _ => _ | None => _ end] =>
               destruct l as [[|??]|]; simpl
           end;
    intros; simplify_eq; auto using ltb_irrefl.
Qed.

Lemma fresh_value_dated (h : Scanner.hit) : dated_record (fresh_value h).
Proof. intros a b [= <-] [= <-]. done. Qed.

Lemma current_value_dated (value now : string) : dated_record (current_value value now).
Proof. intros a b [= <-] [= <-]. apply ltb_irrefl. Qed.

Lemma scan_index_dated (self : Scanner.t) (driver : string -> option (list string)) :
  index_all (fun _ _ sv => dated_record sv) (Scanner.scan_index self driver).
Proof.
  apply scan_index_keeps_good; [|apply index_all_nil].
  intros index h _ Hi. apply merge_all; [|done].
  intros sv [->|H]; apply touch_dated; [apply fresh_value_dated | done].
Qed.

Lemma current_index_dated (self : Scanner.t) (tree : list Scanner.tree_file)
    (now : string) :
  index_all (fun _ _ sv => dated_record sv) (Scanner.current_index self tree now).
Proof.
  apply current_index_keeps_good; [|apply index_all_nil].
  intros index rel key value _ _ _ _ Hi.
  apply record_current_all; [apply current_value_dated | done].
Qed.

(** X6. In every secret that [scan], [scan_current] or [scan_both]
    reports, the record's [last_seen] is never before its [first_seen]
    when both are set. *)
Theorem first_seen_not_after_last_seen (self : Scanner.t)
    (driver : string -> option (list string)) (tree : list Scanner.tree_file)
    (repo_path branch now : string) (s : Scanner.Secret)
    (sv : Scanner.SecretValue) (a b : string) :
  s ∈ Scanner.secrets (Scanner.scan self driver repo_path branch now)
  \/ s ∈ Scanner.secrets (Scanner.scan_current self tree repo_path now)
  \/ s ∈ Scanner.secrets (Scanner.scan_both self driver tree repo_path branch now) ->
  sv ∈ Scanner.history s ->
  Scanner.first_seen sv = Some a -> Scanner.last_seen sv = Some b ->
  String.ltb b a = false.
Proof.
  intros Hs Hsv.
  assert (s ∈ Scanner.secrets (Scanner.scan self driver repo_path branch now)
          \/ s ∈ Scanner.secrets (Scanner.scan_current self tree repo_path now))
    as [H|H].
  { destruct Hs as [H|[H|H]]; auto. by apply scan_both_from in H. }
  - destruct (build_secrets_record _ self _ s (scan_index_dated self driver) H)
      as (sv' & Hh & Hd & _).
    rewrite Hh in Hsv. apply list_elem_of_singleton in Hsv as ->. apply Hd.
  - destruct (build_secrets_record _ self _ s (current_index_dated self tree now) H)
      as (sv' & Hh & Hd & _).
    rewrite Hh in Hsv. apply list_elem_of_singleton in Hsv as ->. apply Hd.
Qed.

Lemma first_seen_not_after_last_seen_witness :
  found_secret ∈ Scanner.secrets
                   (Scanner.scan demo_scanner one_commit_driver "/repo" "--all"
                      "2026-01-01T00:00:00")
  /\ String.ltb "2020-01-01T10:00:00+00:00" "2020-01-01T10:00:00+00:00" = false.
Proof.
  assert (found_secret ∈ Scanner.secrets
            (Scanner.scan demo_scanner one_commit_driver "/repo" "--all"
               "2026-01-01T00:00:00")) as H.
  { vm_compute. apply list_elem_of_here. }
  split; [exact H|].
  apply (first_seen_not_after_last_seen demo_scanner one_commit_driver one_file_tree
           "/repo" "--all" "2026-01-01T00:00:00" found_secret first_value
           "2020-01-01T10:00:00+00:00" "2020-01-01T10:00:00+00:00" (or_introl H)).
  - apply list_elem_of_here.
  - reflexivity.
  - reflexivity.
Defined.

(** *** Types *)

Lemma mem_true (x : string) (l : list string) : Str.mem x l = true <-> x ∈ l.
Proof.
  unfold Str.mem. rewrite existsb_exists. split.
  - intros (y & Hy & ->%String.eqb_eq). by apply list_elem_of_In.
  - intros H. exists x. split; [by apply list_elem_of_In | apply String.eqb_refl].
Qed.

Lemma mem_false (x : string) (l : list string) : Str.mem x l = false <-> x ∉ l.
Proof.
  rewrite <- mem_true. destruct (Str.mem x l); split; intros; congruence.
Qed.

Lemma secret_type_of_typed (groups : list Config.KeywordGroup) (key : string) :
  typed_by groups key (Scanner.secret_type_of groups key).
Proof.
  induction groups as [|g groups IH]; simpl.
  - left. split; [apply not_elem_of_nil | done].
  - destruct (Str.mem key (Config.kg_patterns g)) eqn:E.
    + right. exists [], g, groups. split_and!; [done | by apply mem_true | constructor | done].
    + apply mem_false in E. destruct IH as [[Hn ->]|(pre & g' & post & -> & Hin & Hpre & ->)].
      * left. split; [|done]. simpl. rewrite elem_of_app. tauto.
      * right. exists (g :: pre), g', post. split_and!; try done. by constructor.
Qed.

(** X7. The type of a reported secret is decided by its key alone: it is
    the name of the first keyword group that has the key itself among its
    patterns, and ["unknown"] when the key is no pattern of the
    configuration, whatever keyword the line was found with. *)
Theorem secret_type_is_first_group_listing_key (self : Scanner.t)
    (driver : string -> option (list string)) (tree : list Scanner.tree_file)
    (repo_path branch now : string) (s : Scanner.Secret) :
  s ∈ Scanner.secrets (Scanner.scan self driver repo_path branch now)
  \/ s ∈ Scanner.secrets (Scanner.scan_current self tree repo_path now)
  \/ s ∈ Scanner.secrets (Scanner.scan_both self driver tree repo_path branch now) ->
  typed_by (Config.keywords (Scanner.config self)) (Scanner.key s) (Scanner.type s).
Proof.
  intros Hs.
  assert (s ∈ Scanner.secrets (Scanner.scan self driver repo_path branch now)
          \/ s ∈ Scanner.secrets (Scanner.scan_current self tree repo_path now))
    as [H|H].
  { destruct Hs as [H|[H|H]]; auto. by apply scan_both_from in H. }
  - destruct (build_secrets_record _ self _ s (scan_index_dated self driver) H)
      as (sv' & _ & _ & _ & _ & _ & ->). apply secret_type_of_typed.
  - destruct (build_secrets_record _ self _ s (current_index_dated self tree now) H)
      as (sv' & _ & _ & _ & _ & _ & ->). apply secret_type_of_typed.
Qed.

Lemma secret_type_is_first_group_listing_key_witness :
  found_secret ∈ Scanner.secrets
                   (Scanner.scan demo_scanner one_commit_driver "/repo" "--all"
                      "2026-01-01T00:00:00")
  /\ typed_by (Config.keywords demo_config) "api_key" "api_key".
Proof.
  assert (found_secret ∈ Scanner.secrets
            (Scanner.scan demo_scanner one_commit_driver "/repo" "--all"
               "2026-01-01T00:00:00")) as H.
  { vm_compute. apply list_elem_of_here. }
  split; [exact H|].
  exact (secret_type_is_first_group_listing_key demo_scanner one_commit_driver
           one_file_tree "/repo" "--all" "2026-01-01T00:00:00" found_secret
           (or_introl H)).
Defined.

(** *** Lengths *)

Lemma accepted_within_bounds (cfg : Config.Config) (value : string) :
  Config.should_ignore_value cfg value = false -> within_bounds cfg value.
Proof.
  unfold Config.should_ignore_value, within_bounds.
  destruct (Z.ltb (Z.of_nat (Str.len value)) _) eqn:E1; [done|].
  destruct (Z.ltb _ (Z.of_nat (Str.len value))) eqn:E2; [done|].
  intros _. apply Z.ltb_ge in E1, E2. lia.
Qed.

Lemma inverted_bounds_reject (cfg : Config.Config) (value : string) :
  (Config.max_secret_length (Config.settings cfg)
   < Config.min_secret_length (Config.settings cfg))%Z ->
  Config.should_ignore_value cfg value = true.
Proof.
  intros H. destruct (Config.should_ignore_value cfg value) eqn:E; [done|].
  apply accepted_within_bounds in E. unfold within_bounds in E. lia.
Qed.

Lemma no_element_nil {A : Type} (l : list A) : (forall x, x ∉ l) -> l = [].
Proof. destruct l as [|x l]; [done|]. intros H. destruct (H x). apply list_elem_of_here. Qed.

(** *** Entries of the streams *)

Lemma entry_of_hit_accepted (self : Scanner.t) (h : Scanner.hit) :
  good_hit self h -> accepted_entry self (entry_of_hit self h).
Proof. intros (Hf & Hk & Hv & Hif & Hiv). by split_and!. Qed.

Lemma keyword_candidates_good (self : Scanner.t) (keyword : string)
    (lines : list string) (cur : Scanner.cursor) (e : Scanner.StreamEntry) :
  e ∈ keyword_candidates self keyword cur lines ->
  exists h, good_hit self h /\ e = entry_of_hit self h.
Proof.
  revert cur. induction lines as [|raw lines IH]; intros cur; simpl.
  - by intros ?%elem_of_nil.
  - destruct (Scanner.read_line self keyword cur raw) as [cur' [[h|]|]] eqn:E.
    + intros [->|H]%elem_of_cons; [|by eapply IH].
      apply read_line_good in E as [Hg _]. by exists h.
    + apply IH.
    + by intros ?%elem_of_nil.
Qed.

Lemma history_candidates_good (self : Scanner.t)
    (driver : string -> option (list string)) (e : Scanner.StreamEntry) :
  e ∈ history_candidates self driver ->
  exists h, good_hit self h /\ e = entry_of_hit self h.
Proof.
  unfold history_candidates. rewrite list_elem_of_In, in_flat_map.
  intros (keyword & _ & H). apply list_elem_of_In in H.
  destruct (driver keyword) as [lines|]; [|by apply elem_of_nil in H].
  by eapply keyword_candidates_good.
Qed.

Lemma line_candidates_good (self : Scanner.t) (rel line now : string)
    (kws : list string) (e : Scanner.StreamEntry) :
  e ∈ (line_candidates self rel line now kws).1 ->
  exists key value,
    key <> "" /\ value <> ""
    /\ Config.should_ignore_value (Scanner.config self) value = false
    /\ e = entry_of_current self rel key value now.
Proof.
  induction kws as [|kw kws IH]; simpl.
  - by intros ?%elem_of_nil.
  - destruct (Str.contains kw line); [|done].
    destruct (Scanner.extract_key_value self line)
      as [[[[[|c1 k]|] [[|c2 v]|]] []]|] eqn:Hex; simpl; auto;
      try by intros ?%elem_of_nil.
    intros [->|H]%elem_of_cons; [|by apply IH].
    exists (String c1 k), (String c2 v). split_and!; try done.
    by apply extract_loop_accepted in Hex.
Qed.

Lemma file_candidates_good (self : Scanner.t) (rel now : string)
    (kws lines : list string) (e : Scanner.StreamEntry) :
  e ∈ file_candidates self rel now kws lines ->
  exists key value,
    key <> "" /\ value <> ""
    /\ Config.should_ignore_value (Scanner.config self) value = false
    /\ e = entry_of_current self rel key value now.
Proof.
  induction lines as [|line lines IH]; simpl.
  - by intros ?%elem_of_nil.
  - pose proof (line_candidates_good self rel line now kws e) as Hl.
    destruct (line_candidates self rel line now kws) as [l []]; simpl in Hl; [done|].
    intros [H|H]%elem_of_app; auto.
Qed.

Lemma current_candidates_good (self : Scanner.t) (tree : list Scanner.tree_file)
    (now : string) (e : Scanner.StreamEntry) :
  e ∈ current_candidates self tree now ->
  exists rel key value,
    Config.should_ignore_file (Scanner.config self) rel = false
    /\ key <> "" /\ value <> ""
    /\ Config.should_ignore_value (Scanner.config self) value = false
    /\ e = entry_of_current self rel key value now.
Proof.
  unfold current_candidates. rewrite list_elem_of_In, in_flat_map.
  intros (f & _ & H). apply list_elem_of_In in H.
  destruct (Scanner.lines_to_search self f) as [lines|] eqn:Hl;
    [|by apply elem_of_nil in H].
  apply file_candidates_good in H as (key & value & Hk & Hv & Hi & ->).
  exists (Scanner.rel_path f), key, value. split_and!; try done.
  unfold Scanner.lines_to_search in Hl. by destruct (Config.should_ignore_file _ _).
Qed.

Lemma entry_of_current_accepted (self : Scanner.t) (rel key value now : string) :
  Config.should_ignore_file (Scanner.config self) rel = false ->
  key <> "" -> value <> "" ->
  Config.should_ignore_value (Scanner.config self) value = false ->
  accepted_entry self (entry_of_current self rel key value now).
Proof. intros. by split_and!. Qed.

(** X8. Every entry that a streaming scan writes stands for an accepted
    pair: its file is not ignored, its key and its value are not empty,
    its value is not rejected, and its mask and its type are those of the
    scanner. An entry of [scan_stream] has a file name; an entry of
    [scan_current_stream] has the commit ["HEAD"], an empty author and the
    time of the scan. *)
Theorem stream_entries_are_accepted (self : Scanner.t)
    (driver : string -> option (list string)) (tree : list Scanner.tree_file)
    (now : string) (e : Scanner.StreamEntry) :
  (e ∈ Scanner.scan_stream self driver ->
   accepted_entry self e /\ Scanner.e_file e <> "")
  /\ (e ∈ Scanner.scan_current_stream self tree now ->
      accepted_entry self e
      /\ Scanner.e_commit e = Some "HEAD" /\ Scanner.e_author e = Some ""
      /\ Scanner.e_date e = Some now)
  /\ (e ∈ Scanner.scan_both_stream self driver tree now -> accepted_entry self e).
Proof.
  rewrite scan_stream_written, scan_current_stream_written, scan_both_stream_written.
  split_and!; intros H%written_sub.
  - apply history_candidates_good in H as (h & Hg & ->).
    split; [by apply entry_of_hit_accepted | apply Hg].
  - apply current_candidates_good in H as (rel & key & value & ? & ? & ? & ? & ->).
    split; [by apply entry_of_current_accepted | done].
  - apply elem_of_app in H as [H|H].
    + apply history_candidates_good in H as (h & Hg & ->).
      by apply entry_of_hit_accepted.
    + apply current_candidates_good in H as (rel & key & value & ? & ? & ? & ? & ->).
      by apply entry_of_current_accepted.
Qed.

Lemma stream_entries_are_accepted_witness :
  entry_of_current demo_scanner ".env" "api_key" "AAA111" "2026-01-01T00:00:00"
  ∈ Scanner.scan_current_stream demo_scanner one_file_tree "2026-01-01T00:00:00"
  /\ accepted_entry demo_scanner
       (entry_of_current demo_scanner ".env" "api_key" "AAA111" "2026-01-01T00:00:00").
Proof.
  assert (entry_of_current demo_scanner ".env" "api_key" "AAA111" "2026-01-01T00:00:00"
          ∈ Scanner.scan_current_stream demo_scanner one_file_tree
              "2026-01-01T00:00:00") as H.
  { vm_compute. apply list_elem_of_here. }
  split; [exact H|].
  pose proof (stream_entries_are_accepted demo_scanner one_commit_driver one_file_tree
                "2026-01-01T00:00:00"
                (entry_of_current demo_scanner ".env" "api_key" "AAA111"
                   "2026-01-01T00:00:00")) as (_ & H2 & _).
  exact (proj1 (H2 H)).
Defined.

(** X9. The value of every reported secret has a length within the bounds
    of the settings; when the bounds are inverted (the maximum is below
    the minimum) every scan reports nothing and every stream is empty. *)
Theorem reported_values_within_length_bounds (self : Scanner.t)
    (driver : string -> option (list string)) (tree : list Scanner.tree_file)
    (repo_path branch now : string) :
  (forall s sv,
      s ∈ Scanner.secrets (Scanner.scan self driver repo_path branch now)
      \/ s ∈ Scanner.secrets (Scanner.scan_current self tree repo_path now)
      \/ s ∈ Scanner.secrets (Scanner.scan_both self driver tree repo_path branch now) ->
      sv ∈ Scanner.history s -> within_bounds (Scanner.config self) (Scanner.value sv))
  /\ (forall e,
        e ∈ Scanner.scan_stream self driver
        \/ e ∈ Scanner.scan_current_stream self tree now
        \/ e ∈ Scanner.scan_both_stream self driver tree now ->
        within_bounds (Scanner.config self) (Scanner.e_value e))
  /\ ((Config.max_secret_length (Config.settings (Scanner.config self))
       < Config.min_secret_length (Config.settings (Scanner.config self)))%Z ->
      Scanner.secrets (Scanner.scan self driver repo_path branch now) = []
      /\ Scanner.secrets (Scanner.scan_current self tree repo_path now) = []
      /\ Scanner.secrets (Scanner.scan_both self driver tree repo_path branch now) = []
      /\ Scanner.scan_stream self driver = []
      /\ Scanner.scan_current_stream self tree now = []
      /\ Scanner.scan_both_stream self driver tree now = []).
Proof.
  assert (forall s sv,
      s ∈ Scanner.secrets (Scanner.scan self driver repo_path branch now)
      \/ s ∈ Scanner.secrets (Scanner.scan_current self tree repo_path now)
      \/ s ∈ Scanner.secrets (Scanner.scan_both self driver tree repo_path branch now) ->
      sv ∈ Scanner.history s ->
      Config.should_ignore_value (Scanner.config self) (Scanner.value sv) = false) as HA.
  { intros s sv Hs Hsv.
    assert (s ∈ Scanner.secrets (Scanner.scan self driver repo_path branch now)
            \/ s ∈ Scanner.secrets (Scanner.scan_current self tree repo_path now))
      as [H|H].
    { destruct Hs as [H|[H|H]]; auto. by apply scan_both_from in H. }
    - destruct (build_secrets_record _ self _ s (scan_index_accepted self driver) H)
        as (sv' & Hh & Hd & _).
      rewrite Hh in Hsv. apply list_elem_of_singleton in Hsv as ->. apply Hd.
    - destruct (build_secrets_record _ self _ s (current_index_accepted self tree now) H)
        as (sv' & Hh & Hd & _).
      rewrite Hh in Hsv. apply list_elem_of_singleton in Hsv as ->. apply Hd. }
  assert (forall e,
        e ∈ Scanner.scan_stream self driver
        \/ e ∈ Scanner.scan_current_stream self tree now
        \/ e ∈ Scanner.scan_both_stream self driver tree now ->
        Config.should_ignore_value (Scanner.config self) (Scanner.e_value e) = false)
    as HB.
  { intros e.
    rewrite scan_stream_written, scan_current_stream_written, scan_both_stream_written.
    intros H.
    assert (e ∈ history_candidates self driver \/ e ∈ current_candidates self tree now)
      as [H'|H'].
    { destruct H as [H%written_sub|[H%written_sub|H%written_sub]]; auto.
      by apply elem_of_app in H. }
    - apply history_candidates_good in H' as (h & Hg & ->). apply Hg.
    - by apply current_candidates_good in H'
        as (rel & key & value & ? & ? & ? & ? & ->). }
  split_and!.
  - intros s sv Hs Hsv. by eapply accepted_within_bounds, HA.
  - intros e He. by apply accepted_within_bounds, HB.
  - intros Hinv.
    assert (forall R : Scanner.ScanResult,
               (forall s, s ∈ Scanner.secrets R ->
                          exists sv, sv ∈ Scanner.history s
                                     /\ Config.should_ignore_value (Scanner.config self)
                                          (Scanner.value sv) = false) ->
               Scanner.secrets R = []) as HR.
    { intros R H. apply no_element_nil. intros s Hs.
      destruct (H s Hs) as (sv & _ & Hsv).
      rewrite inverted_bounds_reject in Hsv; done. }
    assert (forall l : list Scanner.StreamEntry,
               (forall e, e ∈ l ->
                          Config.should_ignore_value (Scanner.config self)
                            (Scanner.e_value e) = false) -> l = []) as HL.
    { intros l H. apply no_element_nil. intros e He.
      specialize (H e He). rewrite inverted_bounds_reject in H; done. }
    assert (forall s,
      s ∈ Scanner.secrets (Scanner.scan self driver repo_path branch now)
      \/ s ∈ Scanner.secrets (Scanner.scan_current self tree repo_path now)
      \/ s ∈ Scanner.secrets (Scanner.scan_both self driver tree repo_path branch now) ->
      exists sv, sv ∈ Scanner.history s
                 /\ Config.should_ignore_value (Scanner.config self)
                      (Scanner.value sv) = false) as HS.
    { intros s Hs.
      assert (exists sv, Scanner.history s = [sv]) as [sv Hh].
      { assert (s ∈ Scanner.secrets (Scanner.scan self driver repo_path branch now)
                \/ s ∈ Scanner.secrets (Scanner.scan_current self tree repo_path now))
          as [H|H].
        { destruct Hs as [H|[H|H]]; auto. by apply scan_both_from in H. }
        - destruct (build_secrets_record _ self _ s (scan_index_accepted self driver) H)
            as (sv' & Hh & _). by exists sv'.
        - destruct (build_secrets_record _ self _ s
                      (current_index_accepted self tree now) H)
            as (sv' & Hh & _). by exists sv'. }
      exists sv. assert (sv ∈ Scanner.history s) as Hin.
      { rewrite Hh. apply list_elem_of_here. }
      split; [done|]. by eapply HA. }
    split_and!; [apply HR | apply HR | apply HR | apply HL | apply HL | apply HL];
      intros x Hx; (apply HS || apply HB); auto.
Qed.

Lemma reported_values_within_length_bounds_witness :
  found_secret ∈ Scanner.secrets
                   (Scanner.scan demo_scanner one_commit_driver "/repo" "--all"
                      "2026-01-01T00:00:00")
  /\ within_bounds demo_config "AAA111".
Proof.
  assert (found_secret ∈ Scanner.secrets
            (Scanner.scan demo_scanner one_commit_driver "/repo" "--all"
               "2026-01-01T00:00:00")) as H.
  { vm_compute. apply list_elem_of_here. }
  split; [exact H|].
  pose proof (reported_values_within_length_bounds demo_scanner one_commit_driver
                one_file_tree "/repo" "--all" "2026-01-01T00:00:00") as (H1 & _).
  apply (H1 found_secret first_value (or_introl H)). apply list_elem_of_here.
Defined.

(** *** The combined stream *)

Lemma copy_unseen_filter (l : list Scanner.StreamEntry) (S T : gset string) :
  (Scanner.copy_unseen l [] (S ∪ T)).1
  = filter (fun e => rendering e ∉ S) (Scanner.copy_unseen l [] T).1.
Proof.
  revert T. induction l as [|e l IH]; intros T; simpl; [done|].
  fold (rendering e).
  destruct (decide (rendering e ∈ T)) as [HT|HT].
  - rewrite decide_True by (apply elem_of_union; auto). apply IH.
  - destruct (decide (rendering e ∈ S)) as [HS|HS].
    + rewrite decide_True by (apply elem_of_union; auto).
      rewrite (copy_unseen_out l [e]). cbn [fst app].
      rewrite filter_cons_False by auto.
      rewrite <- IH. f_equal. f_equal. apply set_eq. intros x.
      rewrite !elem_of_union, elem_of_singleton. split; [tauto|].
      intros [?|[->|?]]; auto.
    + rewrite decide_False by (rewrite elem_of_union; tauto).
      rewrite (copy_unseen_out l [e]), (copy_unseen_out l [e] ({[rendering e]} ∪ T)).
      cbn [fst app]. rewrite filter_cons_True by auto. f_equal.
      rewrite <- IH. f_equal. f_equal. apply set_eq. intros x.
      rewrite !elem_of_union, elem_of_singleton. tauto.
Qed.

Lemma copy_unseen_sees (l out : list Scanner.StreamEntry) (seen : gset string)
    (k : string) :
  k ∈ seen \/ k ∈ map rendering l -> k ∈ (Scanner.copy_unseen l out seen).2.
Proof.
  revert out seen. induction l as [|e l IH]; intros out seen; simpl.
  - intros [H|H%elem_of_nil]; done.
  - fold (rendering e). intros H.
    destruct (decide (rendering e ∈ seen)) as [Hs|Hs]; apply IH.
    + destruct H as [H|[->|H]%elem_of_cons]; auto.
    + rewrite elem_of_union, elem_of_singleton.
      destruct H as [H|[->|H]%elem_of_cons]; auto.
Qed.

Lemma written_written (l : list Scanner.StreamEntry) : written (written l) = written l.
Proof. unfold written. by rewrite copy_unseen_absorb. Qed.

Lemma written_seen (l : list Scanner.StreamEntry) (k : string) :
  k ∈ (Scanner.copy_unseen (written l) [] ∅).2 <-> k ∈ map rendering (written l).
Proof.
  split.
  - intros [H%elem_of_empty|(x & Hx & <-)]%copy_unseen_seen; [done|].
    apply list_elem_of_In, in_map. by apply list_elem_of_In.
  - intros H. apply copy_unseen_sees. auto.
Qed.

(** X10. What [scan_both_stream] writes is what [scan_stream] writes,
    followed by the entries of [scan_current_stream], in their order,
    whose [file|key|value] string no entry of the history has. *)
Theorem scan_both_stream_appends_unseen (self : Scanner.t)
    (driver : string -> option (list string)) (tree : list Scanner.tree_file)
    (now : string) :
  Scanner.scan_both_stream self driver tree now
  = Scanner.scan_stream self driver
    ++ filter (fun e => rendering e ∉ map rendering (Scanner.scan_stream self driver))
         (Scanner.scan_current_stream self tree now).
Proof.
  unfold Scanner.scan_both_stream.
  rewrite scan_stream_written, scan_current_stream_written.
  set (H := history_candidates self driver).
  set (C := current_candidates self tree now).
  destruct (Scanner.copy_unseen (written H) [] ∅) as [out1 seen1] eqn:E1.
  assert (out1 = written H) as ->.
  { change out1 with (out1, seen1).1. rewrite <- E1. apply written_written. }
  assert (forall k, k ∈ seen1 <-> k ∈ map rendering (written H)) as Hseen.
  { intros k. change seen1 with (written H, seen1).2. rewrite <- E1.
    apply written_seen. }
  rewrite (copy_unseen_out (written C)). cbn [fst].
  destruct (Scanner.copy_unseen (written C) [] seen1) as [out2 seen2] eqn:E2.
  f_equal. change out2 with (out2, seen2).1. rewrite <- E2.
  replace seen1 with (seen1 ∪ ∅) by apply (right_id_L ∅ (∪)).
  rewrite copy_unseen_filter. fold (written (written C)). rewrite written_written.
  apply list_filter_iff. intros e. by rewrite Hseen.
Qed.

(** *** Masks *)

(** X11. The scanner and the cleaner mask every value alike, and never
    with more than twenty characters; the analyzer's mask is theirs
    exactly on the values of at most twenty characters, and beyond it
    keeps the length of the value. *)
Theorem masks_agree_up_to_twenty (v : string) :
  Cleaner.mask_secret v = Scanner.mask_secret v
  /\ (Analyzer.mask_secret v = Scanner.mask_secret v <-> Str.len v <= 20)
  /\ Str.len (Scanner.mask_secret v) = Nat.min (Nat.max 4 (Str.len v)) 20
  /\ Str.len (Analyzer.mask_secret v) = Nat.max 4 (Str.len v).
Proof.
  split_and!.
  - apply cleaner_mask_secret_eq.
  - split.
    + intros H. destruct (le_lt_dec (Str.len v) 20) as [Hl|Hl]; [done|].
      by apply analyzer_mask_secret_long in Hl.
    + apply analyzer_mask_secret_short.
  - rewrite scanner_mask_secret_len. destruct (Nat.leb_spec (Str.len v) 4); lia.
  - rewrite analyzer_mask_secret_len. destruct (Nat.leb_spec (Str.len v) 4); lia.
Qed.

(** *** File patterns *)

Lemma append_assoc (a b c : string) : (a +:+ b) +:+ c = a +:+ (b +:+ c).
Proof.
  induction a as [|x a IH]; [done|].
  change ((String x a +:+ b) +:+ c) with (String x ((a +:+ b) +:+ c)).
  change (String x a +:+ b +:+ c) with (String x (a +:+ b +:+ c)).
  by f_equal.
Qed.

Lemma startswith_spec (s p : string) :
  Str.startswith s p = true <-> exists post, s = p +:+ post.
Proof.
  revert s. induction p as [|a p IH]; intros s.
  - rewrite startswith_nil. split; [by exists s | done].
  - destruct s as [|b s]; simpl.
    + split; [done | by intros [post [=]]].
    + destruct (Ascii.eqb_spec a b) as [->|Hne].
      * rewrite IH. split; intros [post H]; exists post.
        -- by rewrite H.
        -- by injection H.
      * split; [done | intros [post [=]]; done].
Qed.

Lemma contains_spec (sub s : string) :
  Str.contains sub s = true <-> exists pre post, s = pre +:+ sub +:+ post.
Proof.
  induction s as [|c s IH].
  - cbn [Str.contains]. rewrite orb_false_r, startswith_spec. split.
    + intros [post H]. by exists "", post.
    + intros ([|??] & post & H); [by exists post | done].
  - cbn [Str.contains]. rewrite orb_true_iff, startswith_spec, IH. split.
    + intros [[post H]|(pre & post & H)].
      * by exists "", post.
      * exists (String c pre), post. simpl. by rewrite H.
    + intros ([|x pre] & post & H).
      * left. by exists post.
      * right. exists pre, post.
        change (String x pre +:+ sub +:+ post) with (String x (pre +:+ sub +:+ post)) in H.
        by injection H.
Qed.

Lemma split_once_double_star (prefix rest : string) :
  Str.contains "**" (prefix +:+ "*") = false ->
  Str.split_once "**" (prefix +:+ "**" +:+ rest) = Some (prefix, rest).
Proof.
  induction prefix as [|c p IH]; intros H.
  - change ("" +:+ "**" +:+ rest) with (String "*" (String "*" rest)).
    unfold Str.split_once. simpl. by rewrite startswith_nil.
  - change (String c p +:+ "*") with (String c (p +:+ "*")) in H.
    cbn [Str.contains] in H. apply orb_false_elim in H as [H1 H2].
    change (String c p +:+ "**" +:+ rest) with (String c (p +:+ "**" +:+ rest)).
    cbn [Str.split_once].
    assert (Str.startswith (String c (p +:+ "**" +:+ rest)) "**" = false) as ->.
    { cbn [Str.startswith] in H1 |- *.
      destruct (Ascii.eqb_spec "*" c) as [<-|]; [|done].
      destruct p as [|d p]; [done|].
      change (String d p +:+ "*") with (String d (p +:+ "*")) in H1.
      change (String d p +:+ "**" +:+ rest) with (String d (p +:+ "**" +:+ rest)).
      cbn [Str.startswith] in H1 |- *.
      destruct (Ascii.eqb_spec "*" d); [|done].
      by rewrite startswith_nil in H1. }
    by rewrite (IH H2).
Qed.

Lemma match_pattern_double_star (prefix rest file_path : string) :
  Str.contains "**" (prefix +:+ "*") = false ->
  Config._match_pattern (prefix +:+ "**" +:+ rest) file_path
  = Str.startswith file_path prefix.
Proof.
  intros H. unfold Config._match_pattern.
  assert (Str.contains "**" (prefix +:+ "**" +:+ rest) = true) as ->.
  { apply contains_spec. by exists prefix, rest. }
  by rewrite split_once_double_star.
Qed.

(** X12. A pattern with [**] is matched by its text before the first
    [**] alone: a path matches when it starts with that text, so what the
    pattern has after [**] plays no part, and a pattern that starts with
    [**] matches every path. *)
Theorem double_star_pattern_matches_by_prefix (prefix rest file_path : string) :
  Str.contains "**" (prefix +:+ "*") = false ->
  Config._match_pattern (prefix +:+ "**" +:+ rest) file_path
  = Str.startswith file_path prefix
  /\ Config._match_pattern (prefix +:+ "**" +:+ rest) (prefix +:+ file_path) = true
  /\ Config._match_pattern ("**" +:+ rest) file_path = true.
Proof.
  intros H. split_and!.
  - by apply match_pattern_double_star.
  - rewrite match_pattern_double_star by done. apply startswith_spec. by exists file_path.
  - change ("**" +:+ rest) with ("" +:+ "**" +:+ rest).
    rewrite (match_pattern_double_star "" rest file_path) by done.
    apply startswith_nil.
Qed.

Lemma double_star_pattern_matches_by_prefix_witness :
  Str.contains "**" ("node_modules/" +:+ "*") = false
  /\ Config._match_pattern ("node_modules/" +:+ "**" +:+ "/*.js") "node_modules/a.css"
     = Str.startswith "node_modules/a.css" "node_modules/".
Proof.
  split; [reflexivity|].
  apply (double_star_pattern_matches_by_prefix "node_modules/" "/*.js"
           "node_modules/a.css").
  reflexivity.
Defined.

Lemma leading_double_star_ignores (cfg : Config.Config) (rest file_path : string) :
  ("**" +:+ rest) ∈ Config.ignored_files cfg ->
  Config.should_ignore_file cfg file_path = true.
Proof.
  intros H. unfold Config.should_ignore_file. apply existsb_exists.
  exists ("**" +:+ rest). split; [by apply list_elem_of_In|].
  change ("**" +:+ rest) with ("" +:+ "**" +:+ rest).
  rewrite (match_pattern_double_star "" rest file_path) by done. apply startswith_nil.
Qed.

(** X13. When one of the ignored file patterns starts with [**], every
    file is ignored: the three scans report no secret and the three
    streams are empty, whatever the history and the working tree hold. *)
Theorem leading_double_star_ignores_every_file (self : Scanner.t)
    (driver : string -> option (list string)) (tree : list Scanner.tree_file)
    (repo_path branch now rest : string) :
  ("**" +:+ rest) ∈ Config.ignored_files (Scanner.config self) ->
  (forall file_path, Config.should_ignore_file (Scanner.config self) file_path = true)
  /\ Scanner.secrets (Scanner.scan self driver repo_path branch now) = []
  /\ Scanner.secrets (Scanner.scan_current self tree repo_path now) = []
  /\ Scanner.secrets (Scanner.scan_both self driver tree repo_path branch now) = []
  /\ Scanner.scan_stream self driver = []
  /\ Scanner.scan_current_stream self tree now = []
  /\ Scanner.scan_both_stream self driver tree now = [].
Proof.
  intros Hin.
  assert (forall file_path,
             Config.should_ignore_file (Scanner.config self) file_path = true) as Hall.
  { intros file_path. by eapply leading_double_star_ignores. }
  split; [done|].
  assert (Scanner.secrets (Scanner.scan self driver repo_path branch now) = []) as H1.
  { apply no_element_nil. intros s H.
    apply (build_secrets_record _ _ _ _ (scan_index_accepted self driver)) in H
      as (sv & _ & (Hf & _) & _). by rewrite Hall in Hf. }
  assert (Scanner.secrets (Scanner.scan_current self tree repo_path now) = []) as H2.
  { apply no_element_nil. intros s H.
    apply (build_secrets_record _ _ _ _ (current_index_accepted self tree now)) in H
      as (sv & _ & (Hf & _) & _). by rewrite Hall in Hf. }
  assert (history_candidates self driver = []) as H3.
  { apply no_element_nil. intros e (h & Hg & _)%history_candidates_good.
    destruct Hg as (_ & _ & _ & Hf & _). by rewrite Hall in Hf. }
  assert (current_candidates self tree now = []) as H4.
  { apply no_element_nil.
    intros e (rel & key & value & Hf & _)%current_candidates_good.
    by rewrite Hall in Hf. }
  split_and!; try done.
  - apply no_element_nil. intros s [H|H]%scan_both_from.
    + rewrite H1 in H. by apply elem_of_nil in H.
    + rewrite H2 in H. by apply elem_of_nil in H.
  - by rewrite scan_stream_written, H3.
  - by rewrite scan_current_stream_written, H4.
  - by rewrite scan_both_stream_written, H3, H4.
Qed.

Lemma leading_double_star_ignores_every_file_witness :
  ("**" +:+ "/*.min.js") ∈ Config.ignored_files (Scanner.config star_scanner)
  /\ Scanner.secrets (Scanner.scan star_scanner one_commit_driver "/repo" "--all"
                        "2026-01-01T00:00:00") = [].
Proof.
  assert (("**" +:+ "/*.min.js") ∈ Config.ignored_files (Scanner.config star_scanner))
    as H.
  { apply list_elem_of_here. }
  split; [exact H|].
  pose proof (leading_double_star_ignores_every_file star_scanner one_commit_driver
                one_file_tree "/repo" "--all" "2026-01-01T00:00:00" "/*.min.js" H)
    as (_ & H1 & _).
  exact H1.
Defined.

(** *** The marker of the cleaner and the default configuration *)

Lemma lower_append (a b : string) : Str.lower (a +:+ b) = Str.lower a +:+ Str.lower b.
Proof.
  induction a as [|x a IH]; [done|].
  change (String x a +:+ b) with (String x (a +:+ b)).
  cbn [Str.lower]. rewrite IH. done.
Qed.

Lemma contains_lower (sub s : string) :
  Str.contains sub s = true -> Str.contains (Str.lower sub) (Str.lower s) = true.
Proof.
  rewrite !contains_spec. intros (pre & post & ->).
  exists (Str.lower pre), (Str.lower post). by rewrite !lower_append.
Qed.

Lemma contains_trans (a b c : string) :
  Str.contains a b = true -> Str.contains b c = true -> Str.contains a c = true.
Proof.
  rewrite !contains_spec. intros (p1 & q1 & ->) (p2 & q2 & ->).
  exists (p2 +:+ p1), (q1 +:+ q2). by rewrite !append_assoc.
Qed.

Lemma marker_rejected (value : string) :
  Str.contains Cleaner.REMOVED value = true ->
  Config.should_ignore_value Config.default_config value = true.
Proof.
  intros H. unfold Config.should_ignore_value.
  repeat match goal with
         | |- (if ?c then true else _) = true => destruct c; [done|]
         end.
  apply existsb_exists. exists "***". split.
  - unfold Config.default_config, Config.ignored_values.
    repeat first [left; reflexivity | right].
  - change (Str.contains "***" (Str.lower value) = true).
    apply (contains_trans _ (Str.lower Cleaner.REMOVED)); [reflexivity|].
    by apply contains_lower.
Qed.

(** X14. Under the default configuration a value that contains the
    marker that the cleaner writes, [***REMOVED***], is rejected, so no
    scan with this configuration reports a value with the marker in
    it. *)
Theorem marker_is_rejected_by_default (self : Scanner.t)
    (driver : string -> option (list string)) (tree : list Scanner.tree_file)
    (repo_path branch now : string) :
  Scanner.config self = Config.default_config ->
  (forall value, Str.contains Cleaner.REMOVED value = true ->
                 Config.should_ignore_value (Scanner.config self) value = true)
  /\ (forall s sv,
        s ∈ Scanner.secrets (Scanner.scan self driver repo_path branch now)
        \/ s ∈ Scanner.secrets (Scanner.scan_current self tree repo_path now)
        \/ s ∈ Scanner.secrets (Scanner.scan_both self driver tree repo_path branch now) ->
        sv ∈ Scanner.history s ->
        Str.contains Cleaner.REMOVED (Scanner.value sv) = false)
  /\ (forall e,
        e ∈ Scanner.scan_stream self driver
        \/ e ∈ Scanner.scan_current_stream self tree now
        \/ e ∈ Scanner.scan_both_stream self driver tree now ->
        Str.contains Cleaner.REMOVED (Scanner.e_value e) = false).
Proof.
  intros Hcfg.
  assert (forall value, Str.contains Cleaner.REMOVED value = true ->
                 Config.should_ignore_value (Scanner.config self) value = true) as HM.
  { intros value H. rewrite Hcfg. by apply marker_rejected. }
  split; [done|]. split.
  - intros s sv Hs Hsv.
    assert (Config.should_ignore_value (Scanner.config self) (Scanner.value sv) = false)
      as Hacc.
    { assert (s ∈ Scanner.secrets (Scanner.scan self driver repo_path branch now)
              \/ s ∈ Scanner.secrets (Scanner.scan_current self tree repo_path now))
        as [H|H].
      { destruct Hs as [H|[H|H]]; auto. by apply scan_both_from in H. }
      - destruct (build_secrets_record _ self _ s (scan_index_accepted self driver) H)
          as (sv' & Hh & Hd & _).
        rewrite Hh in Hsv. apply list_elem_of_singleton in Hsv as ->. apply Hd.
      - destruct (build_secrets_record _ self _ s
                    (current_index_accepted self tree now) H)
          as (sv' & Hh & Hd & _).
        rewrite Hh in Hsv. apply list_elem_of_singleton in Hsv as ->. apply Hd. }
    destruct (Str.contains Cleaner.REMOVED (Scanner.value sv)) eqn:E; [|done].
    rewrite (HM _ E) in Hacc. done.
  - intros e.
    rewrite scan_stream_written, scan_current_stream_written, scan_both_stream_written.
    intros H.
    assert (Config.should_ignore_value (Scanner.config self) (Scanner.e_value e) = false)
      as Hacc.
    { assert (e ∈ history_candidates self driver \/ e ∈ current_candidates self tree now)
        as [H'|H'].
      { destruct H as [H%written_sub|[H%written_sub|H%written_sub]]; auto.
        by apply elem_of_app in H. }
      - apply history_candidates_good in H' as (h & Hg & ->). apply Hg.
      - by apply current_candidates_good in H'
          as (rel & key & value & ? & ? & ? & ? & ->). }
    destruct (Str.contains Cleaner.REMOVED (Scanner.e_value e)) eqn:E; [|done].
    rewrite (HM _ E) in Hacc. done.
Qed.

Lemma marker_is_rejected_by_default_witness :
  Scanner.config default_scanner = Config.default_config
  /\ Config.should_ignore_value (Scanner.config default_scanner) "tok***REMOVED***en"
     = true.
Proof.
  split; [reflexivity|].
  pose proof (marker_is_rejected_by_default default_scanner one_commit_driver
                one_file_tree "/repo" "--all" "2026-01-01T00:00:00" eq_refl)
    as (H1 & _).
  apply H1. reflexivity.
Defined.

(** *** Batches of patterns *)

Lemma join_cons (sep x : string) (l : list string) :
  l <> [] -> Str.join sep (x :: l) = x +:+ sep +:+ Str.join sep l.
Proof. destruct l; done. Qed.

Lemma join_app (sep : string) (l1 l2 : list string) :
  l1 <> [] -> l2 <> [] ->
  Str.join sep (l1 ++ l2) = Str.join sep l1 +:+ sep +:+ Str.join sep l2.
Proof.
  intros H1 H2. induction l1 as [|x l1 IH]; [done|].
  destruct l1 as [|y l1].
  - simpl app. by rewrite join_cons.
  - change ((x :: y :: l1) ++ l2) with (x :: ((y :: l1) ++ l2)).
    rewrite !join_cons by done. rewrite IH by done. by rewrite !append_assoc.
Qed.

Lemma join_flatten (sep : string) (p b r : list string) :
  b <> [] -> Str.join sep (p ++ Str.join sep b :: r) = Str.join sep (p ++ b ++ r).
Proof.
  intros Hb.
  assert (Str.join sep (Str.join sep b :: r) = Str.join sep (b ++ r)) as E.
  { destruct r as [|y r]; [by rewrite app_nil_r|].
    rewrite join_cons, join_app by done. done. }
  destruct p as [|x p]; [done|].
  rewrite (join_app sep (x :: p) (Str.join sep b :: r)) by done.
  rewrite (join_app sep (x :: p) (b ++ r)); [by rewrite E|done|].
  by destruct b.
Qed.

Lemma group_loop_join (secrets patterns batch : list string) :
  Str.join "|" (Cleaner.group_loop secrets patterns batch)
  = Str.join "|" (patterns ++ batch ++ map Cleaner.re_escape secrets).
Proof.
  revert patterns batch. induction secrets as [|s rest IH]; intros patterns batch.
  - cbn [Cleaner.group_loop map]. rewrite app_nil_r.
    destruct batch as [|b batch]; [by rewrite app_nil_r|].
    rewrite (join_flatten "|" patterns (b :: batch) []) by done. by rewrite app_nil_r.
  - cbn [Cleaner.group_loop map].
    destruct (100 <=? length (batch ++ [Cleaner.re_escape s]))%nat.
    + rewrite IH. rewrite <- app_assoc. cbn [app].
      rewrite join_flatten by (by destruct batch). by rewrite <- app_assoc.
    + rewrite IH. by rewrite <- app_assoc.
Qed.

Lemma div_one_more (x : nat) : (100 + x) / 100 = 1 + x / 100.
Proof. rewrite <- (Nat.div_add_l 1 100 x) by lia. f_equal. Qed.

Lemma group_loop_length (secrets patterns batch : list string) :
  length batch < 100 ->
  length (Cleaner.group_loop secrets patterns batch)
  = length patterns + batches (length batch + length secrets).
Proof.
  unfold batches.
  revert patterns batch. induction secrets as [|s rest IH]; intros patterns batch Hb.
  - cbn [Cleaner.group_loop length]. destruct batch as [|b batch].
    + simpl. lia.
    + rewrite length_app. cbn [length] in *.
      replace (S (length batch) + 0 + 99) with (100 + length batch) by lia.
      rewrite div_one_more, Nat.div_small by lia. lia.
  - cbn [Cleaner.group_loop length].
    destruct (Nat.leb_spec 100 (length (batch ++ [Cleaner.re_escape s]))) as [H|H];
      rewrite length_app in H; cbn [length] in H.
    + rewrite IH by (simpl; lia). rewrite length_app. cbn [length].
      replace (length batch + S (length rest) + 99) with (100 + (0 + length rest + 99))
        by lia.
      rewrite div_one_more. lia.
    + rewrite IH by (rewrite length_app; simpl; lia). rewrite length_app. cbn [length].
      do 2 f_equal. lia.
Qed.

(** X15. [_group_secrets_into_patterns] makes one pattern for every
    hundred secrets, the last batch being the rest: [ceil(n / 100)]
    patterns for [n] secrets. The batching drops, repeats and reorders
    nothing: the patterns joined by [|] are the escaped secrets joined by
    [|]. *)
Theorem patterns_come_in_batches_of_hundred (secrets : list string) :
  length (Cleaner._group_secrets_into_patterns secrets) = batches (length secrets)
  /\ Str.join "|" (Cleaner._group_secrets_into_patterns secrets)
     = Str.join "|" (map Cleaner.re_escape secrets)
  /\ (Cleaner._group_secrets_into_patterns secrets = [] <-> secrets = []).
Proof.
  unfold Cleaner._group_secrets_into_patterns.
  assert (length (Cleaner.group_loop secrets [] []) = batches (length secrets)) as HL.
  { rewrite group_loop_length by (simpl; lia). done. }
  split_and!.
  - done.
  - by rewrite group_loop_join.
  - split.
    + intros E. rewrite E in HL. destruct secrets as [|s rest]; [done|].
      unfold batches in HL. cbn [length] in HL.
      replace (S (length rest) + 99) with (100 + length rest) in HL by lia.
      rewrite div_one_more in HL. simpl in HL. lia.
    + by intros ->.
Qed.

(** *** The working-tree pass *)

Lemma tracked_keys_nodup (tracked_files seen : list string) :
  NoDup seen -> NoDup (Cleaner.tracked_keys tracked_files seen).
Proof.
  revert seen. induction tracked_files as [|f rest IH]; intros seen Hs; simpl; [done|].
  destruct (String.eqb f ""); simpl; [by apply IH|].
  destruct (Str.mem f seen) eqn:E; [by apply IH|].
  apply IH. apply NoDup_app. split_and!; [done| |apply NoDup_singleton].
  intros x Hx ->%list_elem_of_singleton. by apply mem_false in E.
Qed.

Lemma files_to_clean_nodup (e : Cleaner.env) (allowed l : list string) :
  NoDup allowed -> files_to_clean e allowed = Some l -> NoDup l.
Proof.
  unfold files_to_clean. destruct allowed as [|a allowed].
  - intros _. destruct (Cleaner.ls_files e); [|done]. intros [= <-].
    apply tracked_keys_nodup. constructor.
  - by intros H [= <-].
Qed.

Lemma clean_files_lookup (secrets l : list string) (fs : gmap string string) (n : nat)
    (q : string) :
  NoDup l ->
  (foldl (Cleaner.clean_file secrets) (fs, n) l).1 !! q
  = if decide (q ∈ l) then Cleaner.scrub secrets <$> fs !! q else fs !! q.
Proof.
  revert fs n. induction l as [|p l IH]; intros fs n Hnd; cbn [foldl fst].
  - by rewrite decide_False by apply not_elem_of_nil.
  - apply NoDup_cons in Hnd as [Hp Hnd].
    destruct (Cleaner.clean_file secrets (fs, n) p) as [fs1 n1] eqn:E.
    rewrite IH by done.
    assert (forall q, fs1 !! q
                      = if decide (p = q) then Cleaner.scrub secrets <$> fs !! q
                        else fs !! q) as H1.
    { intros q'. change fs1 with (fs1, n1).1. rewrite <- E. apply clean_file_lookup. }
    rewrite !H1. destruct (decide (p = q)) as [->|Hne].
    + rewrite decide_False by done. rewrite decide_True by apply list_elem_of_here. done.
    + destruct (decide (q ∈ l)) as [Hq|Hq].
      * rewrite decide_True by (by apply list_elem_of_further). done.
      * rewrite decide_False; [done|]. intros [->|?]%elem_of_cons; done.
Qed.

Lemma clean_file_count (secrets : list string) (fs : gmap string string) (n : nat)
    (p : string) :
  (Cleaner.clean_file secrets (fs, n) p).2
  = n + (if changed secrets fs p then 1 else 0).
Proof.
  unfold Cleaner.clean_file, changed. destruct (fs !! p) as [c|]; simpl; [|lia].
  destruct (String.eqb (Cleaner.scrub secrets c) c); simpl; lia.
Qed.

Lemma clean_files_count (secrets l : list string) (fs : gmap string string) (n : nat) :
  NoDup l ->
  (foldl (Cleaner.clean_file secrets) (fs, n) l).2
  = n + length (List.filter (changed secrets fs) l).
Proof.
  revert fs n. induction l as [|p l IH]; intros fs n Hnd; [simpl; lia|].
  cbn [foldl List.filter]. apply NoDup_cons in Hnd as [Hp Hnd].
  pose proof (clean_file_count secrets fs n p) as Hc.
  pose proof (fun q => clean_file_lookup secrets fs n p q) as H1.
  destruct (Cleaner.clean_file secrets (fs, n) p) as [fs1 n1]. simpl in Hc, H1.
  rewrite IH by done. rewrite Hc.
  assert (List.filter (changed secrets fs1) l = List.filter (changed secrets fs) l) as ->.
  { apply filter_ext_in. intros q Hq%list_elem_of_In. unfold changed. rewrite H1.
    rewrite decide_False; [done|]. by intros ->. }
  destruct (changed secrets fs p); simpl; lia.
Qed.

(** X16. [_clean_current_files] goes over each listed path once: the text
    of a listed file becomes its scrubbed text, every other file keeps
    its text, no file appears or disappears, and the count that is
    returned is the number of listed files whose text changed. When
    [git ls-files] fails nothing is touched. *)
Theorem clean_current_files_rewrites_listed_files_only (e : Cleaner.env)
    (secrets allowed : list string) (fs : gmap string string) :
  NoDup allowed ->
  let result := Cleaner._clean_current_files e secrets allowed fs in
  match files_to_clean e allowed with
  | None => result = (fs, 0)
  | Some l =>
      (forall path,
          result.1 !! path
          = if decide (path ∈ l) then Cleaner.scrub secrets <$> fs !! path
            else fs !! path)
      /\ result.2 = length (List.filter (changed secrets fs) l)
      /\ result.2 <= length l
      /\ dom result.1 = dom fs
  end.
Proof.
  intros Hnd result. unfold result. rewrite clean_current_files_paths.
  destruct (files_to_clean e allowed) as [l|] eqn:El; [|done].
  pose proof (files_to_clean_nodup e allowed l Hnd El) as Hl.
  assert (forall path,
          (foldl (Cleaner.clean_file secrets) (fs, 0) l).1 !! path
          = if decide (path ∈ l) then Cleaner.scrub secrets <$> fs !! path
            else fs !! path) as Hlook.
  { intros path. by apply clean_files_lookup. }
  split_and!.
  - done.
  - by rewrite clean_files_count.
  - rewrite clean_files_count by done. simpl. apply filter_length_le.
  - apply set_eq. intros path. rewrite !elem_of_dom, Hlook.
    destruct (decide (path ∈ l)); [|done]. by rewrite fmap_is_Some.
Qed.

Lemma clean_current_files_rewrites_listed_files_only_witness :
  NoDup ["a.env"]
  /\ (forall path,
        (Cleaner._clean_current_files demo_env ["hunter2"] ["a.env"]
           (Cleaner.files demo_repo)).1 !! path
        = if decide (path ∈ ["a.env"])
          then Cleaner.scrub ["hunter2"] <$> Cleaner.files demo_repo !! path
          else Cleaner.files demo_repo !! path).
Proof.
  assert (NoDup ["a.env"]) as H by (apply NoDup_singleton).
  split; [exact H|].
  exact (proj1 (clean_current_files_rewrites_listed_files_only demo_env ["hunter2"]
                  ["a.env"] (Cleaner.files demo_repo) H)).
Defined.

(** X17. When no secret is empty or shares a character with the marker,
    [_clean_current_files] leaves none of the secrets in any file that
    it goes over. *)
Theorem clean_current_files_removes_plain_secrets (e : Cleaner.env)
    (secrets allowed l : list string) (fs : gmap string string)
    (path content secret : string) :
  forallb plain secrets = true ->
  files_to_clean e allowed = Some l ->
  path ∈ l ->
  (Cleaner._clean_current_files e secrets allowed fs).1 !! path = Some content ->
  secret ∈ secrets ->
  Str.contains secret content = false.
Proof.
  intros Hplain El Hp Hc Hs. rewrite clean_current_files_paths, El in Hc.
  pose proof (clean_files_settle secrets l (fs, 0) path Hplain (or_introl Hp)) as H.
  unfold settled in H. rewrite Hc in H. unfold free_of in H.
  rewrite forallb_forall in H. specialize (H secret).
  apply negb_true_iff, H. by apply list_elem_of_In.
Qed.

Lemma clean_current_files_removes_plain_secrets_witness :
  forallb plain ["hunter2"] = true
  /\ Str.contains "hunter2" "password=***REMOVED***" = false.
Proof.
  split; [reflexivity|].
  apply (clean_current_files_removes_plain_secrets demo_env ["hunter2"] ["a.env"]
           ["a.env"] (Cleaner.files demo_repo) "a.env" "password=***REMOVED***"
           "hunter2").
  - reflexivity.
  - reflexivity.
  - apply list_elem_of_here.
  - vm_compute. reflexivity.
  - apply list_elem_of_here.
Defined.

(** *** Runs of the cleaner *)

Lemma either_source (src a b : string) :
  (src =? a)%string || (src =? b)%string = true -> src = a \/ src = b.
Proof. intros [H|H]%orb_prop; apply String.eqb_eq in H; auto. Qed.

Lemma neither_source (src a b : string) :
  (src =? a)%string || (src =? b)%string = false -> src <> a /\ src <> b.
Proof. intros [H1 H2]%orb_false_elim. by apply String.eqb_neq in H1, H2. Qed.

(** X19. The source of the options selects the passes of [clean]: with
    ["current"] the history is not rewritten, with ["history"] no file of
    the working tree is touched, and with any other text than these two
    and ["both"] neither is done, although the run then still reports
    that it cleaned all the secrets. *)
Theorem clean_source_selects_the_passes (e : Cleaner.env) (secrets : list string)
    (opts : Cleaner.CleanOptions) (w : Cleaner.repo) :
  let r := (Cleaner.clean e secrets opts w).1 in
  let w' := (Cleaner.clean e secrets opts w).2 in
  (source_of opts = "current" -> Cleaner.rewrites w' = Cleaner.rewrites w)
  /\ (source_of opts = "history" ->
      Cleaner.files w' = Cleaner.files w /\ Cleaner.files_modified r = 0)
  /\ (source_of opts <> "current" -> source_of opts <> "history" ->
      source_of opts <> "both" ->
      Cleaner.files w' = Cleaner.files w /\ Cleaner.rewrites w' = Cleaner.rewrites w
      /\ (Cleaner.dry_run opts = false ->
          Cleaner.no_backup opts = true \/ Cleaner.branch_error e = None ->
          Cleaner.gc_error e = None ->
          Cleaner.success r = true
          /\ Cleaner.secrets_removed r = length secrets
          /\ Cleaner.files_modified r = 0)).
Proof.
  unfold Cleaner.clean. cbv zeta.
  fold (source_of opts). fold (tool_of e opts). fold (backup_name e).
  generalize dependent (source_of opts). generalize dependent (tool_of e opts).
  intros tl src. split_and!.
  - intros ->. repeat case_match; simplify_eq/=; done.
  - intros ->. repeat case_match; simplify_eq/=; done.
  - intros H1 H2 H3.
    assert ((src =? "current")%string || (src =? "both")%string = false) as E1.
    { apply orb_false_intro; by apply String.eqb_neq. }
    assert ((src =? "history")%string || (src =? "both")%string = false) as E2.
    { apply orb_false_intro; by apply String.eqb_neq. }
    rewrite E1, E2. repeat case_match; simplify_eq/=; split_and!; try done.
    all: intros ? [?|?] ?; simplify_eq; done.
Qed.

Lemma clean_source_selects_the_passes_witness :
  source_of {| Cleaner.tool := "bfg"; Cleaner.source := "current";
               Cleaner.file_paths := None; Cleaner.dry_run := false;
               Cleaner.force := false; Cleaner.no_backup := false |} = "current"
  /\ Cleaner.rewrites
       (Cleaner.clean demo_env ["hunter2"]
          {| Cleaner.tool := "bfg"; Cleaner.source := "current";
             Cleaner.file_paths := None; Cleaner.dry_run := false;
             Cleaner.force := false; Cleaner.no_backup := false |} demo_repo).2
     = Cleaner.rewrites demo_repo.
Proof.
  split; [reflexivity|].
  pose proof (clean_source_selects_the_passes demo_env ["hunter2"]
                {| Cleaner.tool := "bfg"; Cleaner.source := "current";
                   Cleaner.file_paths := None; Cleaner.dry_run := false;
                   Cleaner.force := false; Cleaner.no_backup := false |} demo_repo)
    as H.
  cbv zeta in H. destruct H as (H1 & _). apply H1. reflexivity.
Defined.


(** X20. A run of [clean] that fails collects no garbage and reports no
    secret removed. When it is the backup branch that cannot be created,
    the repository is left as it was; when the failure comes later, the
    files of the working tree have been rewritten already if the source
    selects them. *)
Theorem clean_failure_leaves (e : Cleaner.env) (secrets : list string)
    (opts : Cleaner.CleanOptions) (w : Cleaner.repo) :
  let r := (Cleaner.clean e secrets opts w).1 in
  let w' := (Cleaner.clean e secrets opts w).2 in
  Cleaner.success r = false ->
  Cleaner.secrets_removed r = 0
  /\ Cleaner.collections w' = Cleaner.collections w
  /\ secrets <> [] /\ Cleaner.dry_run opts = false
  /\ (forall err,
        Cleaner.no_backup opts = false -> Cleaner.branch_error e = Some err ->
        w' = w /\ Cleaner.backup_branch r = ""
        /\ Cleaner.message r = "Failed to create backup branch: " +:+ err)
  /\ (Cleaner.no_backup opts = true \/ Cleaner.branch_error e = None ->
      (source_of opts = "current" \/ source_of opts = "both" ->
       (Cleaner.files w', Cleaner.files_modified r)
       = Cleaner._clean_current_files e secrets
           (map fst (default [] (Cleaner.file_paths opts))) (Cleaner.files w))
      /\ (Cleaner.no_backup opts = false ->
          Cleaner.backup_branch r = backup_name e
          /\ Cleaner.branches w' = Cleaner.branches w ++ [backup_name e])).
Proof.
  unfold Cleaner.clean. cbv zeta.
  fold (source_of opts). fold (tool_of e opts). fold (backup_name e).
  generalize dependent (source_of opts). generalize dependent (tool_of e opts).
  intros tl src.
  repeat case_match; simplify_eq/=; intros Hs; try done.
  all: repeat match goal with
              | |- _ /\ _ => split
              | |- forall _, _ => intro
              end; simplify_eq; try done.
  all: try match goal with
           | H : (_ =? "current")%string || _ = false, H' : _ = "current" \/ _ |- _ =>
               apply neither_source in H as [? ?]; destruct H' as [?|?]; done
           end.
  all: try match goal with H : _ \/ _ |- _ => destruct H; simplify_eq; done end.
Qed.

Lemma clean_failure_leaves_witness :
  Cleaner.success (Cleaner.clean no_branch_env ["hunter2"] run_options demo_repo).1
  = false
  /\ (Cleaner.clean no_branch_env ["hunter2"] run_options demo_repo).2 = demo_repo.
Proof.
  assert (Cleaner.success
            (Cleaner.clean no_branch_env ["hunter2"] run_options demo_repo).1 = false)
    as H by reflexivity.
  split; [exact H|].
  pose proof (clean_failure_leaves no_branch_env ["hunter2"] run_options demo_repo) as H1.
  cbv zeta in H1. destruct (H1 H) as (_ & _ & _ & _ & H2 & _).
  apply (H2 "fatal: not a valid branch"); reflexivity.
Defined.

Lemma group_patterns_length (secrets : list string) :
  length (Cleaner._group_secrets_into_patterns secrets) = batches (length secrets).
Proof.
  unfold Cleaner._group_secrets_into_patterns.
  rewrite group_loop_length by (simpl; lia). done.
Qed.

(** X21. A real run of [clean] that reports success has collected
    garbage once and counts every secret as removed; its result names
    the tool, the source and [ceil(n / 100)] patterns; unless the backup
    is switched off, the branch [backup-before-clean-<pid>] has been
    added and is named in the result; the history has been handed to the
    tool once if the source selects it, and the working tree has been
    scrubbed if the source selects it. *)
Theorem clean_success_means (e : Cleaner.env) (secrets : list string)
    (opts : Cleaner.CleanOptions) (w : Cleaner.repo) :
  let r := (Cleaner.clean e secrets opts w).1 in
  let w' := (Cleaner.clean e secrets opts w).2 in
  secrets <> [] -> Cleaner.dry_run opts = false -> Cleaner.success r = true ->
  Cleaner.secrets_removed r = length secrets
  /\ Cleaner.collections w' = S (Cleaner.collections w)
  /\ Cleaner.patterns_used r = batches (length secrets)
  /\ Cleaner.r_tool r = tool_of e opts
  /\ Cleaner.r_source r = source_of opts
  /\ Cleaner.backup_branch r
     = (if Cleaner.no_backup opts then "" else backup_name e)
  /\ Cleaner.branches w'
     = (if Cleaner.no_backup opts then Cleaner.branches w
        else Cleaner.branches w ++ [backup_name e])
  /\ (source_of opts = "history" \/ source_of opts = "both" ->
      exists rules,
        Cleaner.rewrites w' = Cleaner.rewrites w ++ [(tool_of e opts, rules)])
  /\ (source_of opts = "current" \/ source_of opts = "both" ->
      (Cleaner.files w', Cleaner.files_modified r)
      = Cleaner._clean_current_files e secrets
          (map fst (default [] (Cleaner.file_paths opts))) (Cleaner.files w)).
Proof.
  pose proof (group_patterns_length secrets) as HP.
  unfold Cleaner.clean. cbv zeta.
  fold (source_of opts). fold (tool_of e opts). fold (backup_name e).
  generalize dependent (source_of opts). generalize dependent (tool_of e opts).
  intros tl src.
  destruct secrets as [|s l]; [done|]. intros _ Hdry. rewrite Hdry.
  repeat case_match; simplify_eq/=; intros Hs; try done.
  all: repeat match goal with
              | |- _ /\ _ => split
              | |- forall _, _ => intro
              end; simplify_eq; try done.
  all: try match goal with
           | H : (_ =? "current")%string || _ = false, H' : _ = "current" \/ _ |- _ =>
               apply neither_source in H as [? ?]; destruct H' as [?|?]; done
           end.
  all: try match goal with
           | H : (_ =? "history")%string || _ = false, H' : _ = "history" \/ _ |- _ =>
               apply neither_source in H as [? ?]; destruct H' as [?|?]; done
           end.
  all: try by eexists.
Qed.

Lemma clean_success_means_witness :
  ["hunter2"] <> []
  /\ Cleaner.collections (Cleaner.clean demo_env ["hunter2"] run_options demo_repo).2
     = S (Cleaner.collections demo_repo).
Proof.
  assert (["hunter2"] <> []) as H by done.
  split; [exact H|].
  pose proof (clean_success_means demo_env ["hunter2"] run_options demo_repo) as H1.
  cbv zeta in H1.
  destruct (H1 H eq_refl eq_refl) as (_ & H2 & _). exact H2.
Defined.

(** *** Values, longest first *)

Lemma insert_longest_first_perm (x : string) (l : list string) :
  Str.insert_longest_first x l ≡ₚ x :: l.
Proof.
  induction l as [|y l IH]; simpl; [done|].
  destruct (Str.len x <? Str.len y)%nat; [|done].
  rewrite IH. apply Permutation_swap.
Qed.

Lemma sorted_longest_first_perm (l : list string) : Str.sorted_longest_first l ≡ₚ l.
Proof.
  unfold Str.sorted_longest_first. induction l as [|x l IH]; simpl; [done|].
  by rewrite insert_longest_first_perm, IH.
Qed.

Lemma insert_longest_first_sorted (x : string) (l : list string) :
  longest_first l -> longest_first (Str.insert_longest_first x l).
Proof.
  unfold longest_first. induction l as [|y l IH]; intros Hs; simpl.
  - by repeat constructor.
  - apply StronglySorted_inv in Hs as [Hs Hy].
    destruct (Nat.ltb_spec (Str.len x) (Str.len y)) as [Hlt|Hge].
    + constructor; [by apply IH|].
      rewrite Forall_forall. intros z Hz.
      rewrite insert_longest_first_perm in Hz. apply elem_of_cons in Hz as [->|Hz]; [lia|].
      rewrite Forall_forall in Hy. by apply Hy.
    + constructor; [by constructor|]. constructor; [done|].
      eapply Forall_impl; [exact Hy|]. simpl. lia.
Qed.

Lemma sorted_longest_first_sorted (l : list string) :
  longest_first (Str.sorted_longest_first l).
Proof.
  unfold Str.sorted_longest_first. induction l as [|x l IH]; simpl.
  - constructor.
  - by apply insert_longest_first_sorted.
Qed.

Lemma values_of_history (h : list Scanner.SecretValue) (values : gset string)
    (v : string) :
  v ∈ foldl (fun values secret_value => {[ Scanner.value secret_value ]} ∪ values)
        values h
  <-> v ∈ values \/ exists sv, sv ∈ h /\ Scanner.value sv = v.
Proof.
  revert values. induction h as [|sv h IH]; intros values; simpl.
  - split; [auto | intros [?|(? & ?%elem_of_nil & _)]; done].
  - rewrite IH, elem_of_union, elem_of_singleton. split.
    + intros [[->|?]|(sv' & ? & ?)]; auto.
      * right. exists sv. split; [apply list_elem_of_here | done].
      * right. exists sv'. split; [by apply list_elem_of_further | done].
    + intros [?|(sv' & [->|?]%elem_of_cons & ?)]; auto.
      right. by exists sv'.
Qed.

Lemma values_of_secrets (l : list Scanner.Secret) (values : gset string) (v : string) :
  v ∈ foldl (fun values secret =>
               foldl (fun values secret_value =>
                        {[ Scanner.value secret_value ]} ∪ values)
                     values (Scanner.history secret))
        values l
  <-> v ∈ values
      \/ exists s sv, s ∈ l /\ sv ∈ Scanner.history s /\ Scanner.value sv = v.
Proof.
  revert values. induction l as [|s l IH]; intros values; simpl.
  - split; [auto | intros [?|(? & ? & ?%elem_of_nil & _)]; done].
  - rewrite IH, values_of_history. split.
    + intros [[?|(sv & ? & ?)]|(s' & sv & ? & ? & ?)]; auto.
      * right. exists s, sv. split_and!; [apply list_elem_of_here | done | done].
      * right. exists s', sv. split_and!; [by apply list_elem_of_further | done | done].
    + intros [?|(s' & sv & [->|?]%elem_of_cons & ? & ?)]; auto.
      * left. right. by exists sv.
      * right. by exists s', sv.
Qed.

(** X22. [get_all_values] lists every value of the histories of a scan
    result, each one once, and no value is shorter than one that comes
    after it. *)
Theorem get_all_values_lists_each_value_once
    (set_order : gset string -> list string) (scan_result : Scanner.ScanResult) :
  enumerates set_order ->
  NoDup (Scanner.get_all_values set_order scan_result)
  /\ (forall v,
        v ∈ Scanner.get_all_values set_order scan_result
        <-> exists s sv, s ∈ Scanner.secrets scan_result
                         /\ sv ∈ Scanner.history s /\ Scanner.value sv = v)
  /\ longest_first (Scanner.get_all_values set_order scan_result).
Proof.
  intros Henum. unfold Scanner.get_all_values. split_and!.
  - rewrite sorted_longest_first_perm. apply Henum.
  - intros v. rewrite sorted_longest_first_perm.
    rewrite (proj2 (Henum _)), values_of_secrets. split; [|auto].
    intros [?%elem_of_empty|?]; done.
  - apply sorted_longest_first_sorted.
Qed.

Lemma elements_enumerates : enumerates elements.
Proof. intros X. split; [apply NoDup_elements | intros x; apply elem_of_elements]. Qed.

Lemma get_all_values_lists_each_value_once_witness :
  enumerates elements
  /\ "AAA111" ∈ Scanner.get_all_values elements
                  (Scanner.scan demo_scanner one_commit_driver "/repo" "--all"
                     "2026-01-01T00:00:00").
Proof.
  split; [exact elements_enumerates|].
  apply (get_all_values_lists_each_value_once elements _ elements_enumerates).
  exists found_secret, first_value. split_and!.
  - vm_compute. apply list_elem_of_here.
  - apply list_elem_of_here.
  - reflexivity.
Defined.

(** *** Truncation *)

(** X23. [_truncate] leaves a string that fits as it is and cuts a longer
    one down to exactly [max_len] characters, the last three being dots,
    provided [max_len] is at least 3; with a smaller [max_len] the result
    of cutting is longer than [max_len]. *)
Theorem truncate_fits_from_three (s : string) (max_len : Z) :
  ((Z.of_nat (Str.len s) <= max_len)%Z -> Analyzer._truncate s max_len = s)
  /\ ((3 <= max_len < Z.of_nat (Str.len s))%Z ->
      Analyzer._truncate s max_len = Str.take (Z.to_nat (max_len - 3)) s +:+ "..."
      /\ Z.of_nat (Str.len (Analyzer._truncate s max_len)) = max_len)
  /\ ((3 <= max_len)%Z ->
      (Z.of_nat (Str.len (Analyzer._truncate s max_len)) <= max_len)%Z)
  /\ ((max_len < 3)%Z -> (max_len < Z.of_nat (Str.len s))%Z ->
      (max_len < Z.of_nat (Str.len (Analyzer._truncate s max_len)))%Z).
Proof.
  unfold Analyzer._truncate, Str.slice_to.
  destruct (Z.leb_spec (Z.of_nat (Str.len s)) max_len) as [Hfit|Hlong].
  - split_and!; try done; lia.
  - split_and!.
    + lia.
    + intros [H3 _]. destruct (Z.leb_spec 0 (max_len - 3)); [|lia].
      split; [done|]. rewrite len_append, len_take. simpl. lia.
    + intros H3. destruct (Z.leb_spec 0 (max_len - 3)); [|lia].
      rewrite len_append, len_take. simpl. lia.
    + intros H3 _. destruct (Z.leb_spec 0 (max_len - 3)); [lia|].
      rewrite len_append. simpl. lia.
Qed.

Lemma truncate_fits_from_three_witness :
  (3 <= 5 < Z.of_nat (Str.len "config/secrets.env"))%Z
  /\ Analyzer._truncate "config/secrets.env" 5 = "co...".
Proof.
  assert (3 <= 5 < Z.of_nat (Str.len "config/secrets.env"))%Z as H by (simpl; lia).
  split; [exact H|].
  pose proof (truncate_fits_from_three "config/secrets.env" 5) as (_ & H2 & _).
  destruct (H2 H) as [H3 _]. exact H3.
Defined.

(** *** Loading a scan file *)

Lemma dict_get_set_other {V : Type} (d : list (string * V)) (k k' : string) (v : V) :
  k' <> k -> Scanner.dict_get (Scanner.dict_set d k v) k' = Scanner.dict_get d k'.
Proof.
  intros Hne. induction d as [|[k0 v0] d IH]; simpl.
  - destruct (String.eqb_spec k k'); [congruence | done].
  - destruct (String.eqb_spec k0 k) as [->|Hk]; simpl.
    + destruct (String.eqb_spec k k'); [congruence | done].
    + destruct (String.eqb_spec k0 k'); [done | exact IH].
Qed.

Lemma dict_get_of_elem {V : Type} (d : list (string * V)) (k : string) (v : V) :
  NoDup (map fst d) -> (k, v) ∈ d -> Scanner.dict_get d k = Some v.
Proof.
  induction d as [|[k0 v0] d IH]; simpl; intros Hnd Hin.
  - by apply elem_of_nil in Hin.
  - apply NoDup_cons in Hnd as [Hk Hnd].
    apply elem_of_cons in Hin as [Heq|Hin]; [injection Heq as -> ->|].
    + by rewrite String.eqb_refl.
    + destruct (String.eqb_spec k0 k) as [->|Hne]; [|by apply IH].
      destruct Hk. apply list_elem_of_In, in_map_iff. exists (k, v).
      split; [done | by apply list_elem_of_In].
Qed.

Lemma objects_of_file_snoc (done : list Cleaner.item) (it : Cleaner.item) (fp : string) :
  objects_of_file (done ++ [it]) fp
  = objects_of_file done fp
    + (if bool_decide (Cleaner.i_file it = Some fp) then 1 else 0).
Proof.
  unfold objects_of_file. rewrite List.filter_app, length_app. simpl.
  by destruct (bool_decide _).
Qed.

Lemma objects_of_file_pos (done : list Cleaner.item) (fp : string) :
  (exists it, it ∈ done /\ Cleaner.i_file it = Some fp) -> 1 <= objects_of_file done fp.
Proof.
  intros (it & Hin & Hf). unfold objects_of_file.
  assert (it ∈ List.filter (fun it => bool_decide (Cleaner.i_file it = Some fp)) done)
    as H.
  { apply list_elem_of_In, filter_In. split; [by apply list_elem_of_In|].
    by apply bool_decide_eq_true. }
  destruct (List.filter _ done); [by apply elem_of_nil in H | simpl; lia].
Qed.

Lemma load_item_inv (done : list Cleaner.item)
    (st : list string * list string * list (string * nat) * gset string)
    (it : Cleaner.item) :
  load_inv done st -> load_inv (done ++ [it]) (Cleaner.load_item st it).
Proof.
  destruct st as [[[secrets fps] fmap] ss].
  intros (Hs & Hnd & Hfp & Hkeys & Hcount & Hh & Hc).
  unfold Cleaner.load_item.
  assert (forall fp, (exists it', it' ∈ done ++ [it] /\ Cleaner.i_file it' = Some fp)
                     <-> (exists it', it' ∈ done /\ Cleaner.i_file it' = Some fp)
                         \/ Cleaner.i_file it = Some fp) as Hex.
  { intros fp. split.
    - intros (it' & [?|Hx%list_elem_of_singleton]%elem_of_app & ?); subst; eauto.
    - intros [(it' & ? & ?)|?].
      + exists it'. split; [apply elem_of_app; auto | done].
      + exists it. split; [apply elem_of_app; right; apply list_elem_of_here | done]. }
  destruct (Cleaner.i_file it) as [fp|] eqn:Ef.
  - cbv zeta. cbv iota beta. unfold load_inv. split_and!.
    + rewrite omap_app. simpl. rewrite <- Hs.
      destruct (Cleaner.i_value it); simpl; [done | by rewrite app_nil_r].
    + destruct (Str.mem fp fps) eqn:Em; [done|].
      apply mem_false in Em. apply NoDup_app. split_and!; [done| |apply NoDup_singleton].
      by intros x Hx ->%list_elem_of_singleton.
    + intros fp'. rewrite Hex, <- Hfp.
      destruct (Str.mem fp fps) eqn:Em.
      * apply mem_true in Em. split; [auto|]. intros [?|[= <-]]; done.
      * rewrite elem_of_app, list_elem_of_singleton. split.
        -- intros [?| ->]; auto.
        -- intros [?|[= <-]]; auto.
    + destruct (Str.mem fp fps) eqn:Em.
      * apply mem_true in Em. rewrite <- Hkeys in Em.
        destruct (Scanner.dict_get fmap fp) as [n|] eqn:Eg.
        -- by rewrite (dict_set_present_keys _ _ _ _ Eg).
        -- by apply dict_get_None in Eg.
      * apply mem_false in Em. rewrite <- Hkeys in Em. apply dict_get_None in Em.
        rewrite (dict_set_absent _ _ _ Em), map_app, Hkeys. done.
    + intros fp'. rewrite objects_of_file_snoc, Ef.
      destruct (decide (fp' = fp)) as [->|Hne].
      * rewrite dict_get_set, bool_decide_eq_true_2 by done. simpl. by rewrite Hcount.
      * rewrite dict_get_set_other by done.
        rewrite bool_decide_eq_false_2 by congruence. rewrite Hcount. lia.
    + rewrite existsb_app. simpl. rewrite orb_false_r, orb_true_iff, <- Hh.
      unfold from_history.
      destruct (Cleaner.i_commit it) as [[[|??]|]|];
        rewrite elem_of_union, elem_of_singleton; split; intros [?|?]; auto; done.
    + rewrite forallb_app. simpl. rewrite andb_true_r, andb_false_iff, <- Hc.
      unfold from_history.
      destruct (Cleaner.i_commit it) as [[[|??]|]|];
        rewrite elem_of_union, elem_of_singleton; split; intros [?|?]; auto; done.
  - cbv zeta. cbv iota beta. unfold load_inv. split_and!.
    + rewrite omap_app. simpl. rewrite <- Hs.
      destruct (Cleaner.i_value it); simpl; [done | by rewrite app_nil_r].
    + done.
    + intros fp'. rewrite Hex, <- Hfp. split; [auto | intros [?|?]; done].
    + done.
    + intros fp'. rewrite objects_of_file_snoc, Ef.
      rewrite bool_decide_eq_false_2 by congruence. rewrite Hcount. lia.
    + rewrite existsb_app. simpl. rewrite orb_false_r, orb_true_iff, <- Hh.
      unfold from_history.
      destruct (Cleaner.i_commit it) as [[[|??]|]|];
        rewrite elem_of_union, elem_of_singleton; split; intros [?|?]; auto; done.
    + rewrite forallb_app. simpl. rewrite andb_true_r, andb_false_iff, <- Hc.
      unfold from_history.
      destruct (Cleaner.i_commit it) as [[[|??]|]|];
        rewrite elem_of_union, elem_of_singleton; split; intros [?|?]; auto; done.
Qed.

Lemma load_loop_inv (rest done : list Cleaner.item)
    (st : list string * list string * list (string * nat) * gset string) :
  load_inv done st -> load_inv (done ++ rest) (foldl Cleaner.load_item st rest).
Proof.
  revert done st. induction rest as [|it rest IH]; intros done st H; simpl.
  - by rewrite app_nil_r.
  - replace (done ++ it :: rest) with ((done ++ [it]) ++ rest)
      by (by rewrite <- app_assoc).
    apply IH. by apply load_item_inv.
Qed.

Lemma load_inv_start : load_inv [] ([], [], [], ∅).
Proof.
  unfold load_inv. split_and!; try done.
  - constructor.
  - intros fp. split; [by intros ?%elem_of_nil | by intros (? & ?%elem_of_nil & _)].
Qed.

Lemma load_all_inv (items : list Cleaner.item) :
  load_inv items (foldl Cleaner.load_item ([], [], [], ∅) items).
Proof. apply (load_loop_inv items [] _ load_inv_start). Qed.

Lemma source_str_of (ss : gset string) (items : list Cleaner.item) :
  ("history" ∈ ss <-> existsb from_history items = true) ->
  ("current" ∈ ss <-> forallb from_history items = false) ->
  Cleaner.source_str ss
  = if existsb from_history items
    then if forallb from_history items then "history" else "both"
    else "current".
Proof.
  intros Hh Hc. unfold Cleaner.source_str.
  destruct (existsb from_history items), (forallb from_history items);
    repeat case_decide; try done; intuition congruence.
Qed.

Lemma distinct_in_order_elem (l : list string) (x : string) :
  x ∈ distinct_in_order l <-> x ∈ l.
Proof.
  induction l as [|a l IH]; simpl; [done|].
  rewrite !elem_of_cons, list_elem_of_In, List.filter_In, <- list_elem_of_In, IH.
  rewrite negb_true_iff, String.eqb_neq.
  destruct (decide (x = a)); intuition.
Qed.

Lemma distinct_in_order_snoc (l : list string) (x : string) :
  distinct_in_order (l ++ [x])
  = if Str.mem x (distinct_in_order l)
    then distinct_in_order l else distinct_in_order l ++ [x].
Proof.
  induction l as [|a l IH]; [done|].
  change (distinct_in_order ((a :: l) ++ [x]))
    with (a :: List.filter (fun y => negb (String.eqb y a)) (distinct_in_order (l ++ [x]))).
  change (distinct_in_order (a :: l))
    with (a :: List.filter (fun y => negb (String.eqb y a)) (distinct_in_order l)).
  set (keep := fun y => negb (String.eqb y a)).
  rewrite IH.
  destruct (Str.mem x (a :: List.filter keep (distinct_in_order l))) eqn:E1;
    destruct (Str.mem x (distinct_in_order l)) eqn:E2; try done.
  - apply mem_true in E1. apply mem_false in E2.
    apply elem_of_cons in E1 as [->|E1].
    + rewrite List.filter_app. simpl. unfold keep at 2.
      rewrite String.eqb_refl. simpl. by rewrite app_nil_r.
    + apply list_elem_of_In, List.filter_In in E1 as [E1%list_elem_of_In _]. done.
  - apply mem_false in E1. apply mem_true in E2. exfalso. apply E1.
    destruct (decide (x = a)) as [->|Hne]; [apply list_elem_of_here|].
    apply list_elem_of_further, list_elem_of_In, List.filter_In.
    split; [by apply list_elem_of_In|].
    unfold keep. by rewrite negb_true_iff, String.eqb_neq.
  - apply mem_false in E1. rewrite List.filter_app. simpl.
    assert (keep x = true) as ->; [|done].
    unfold keep. rewrite negb_true_iff, String.eqb_neq. intros ->.
    apply E1, list_elem_of_here.
Qed.

Lemma load_loop_paths (rest done : list Cleaner.item)
    (st : list string * list string * list (string * nat) * gset string) :
  st.1.1.2 = distinct_in_order (omap Cleaner.i_file done) ->
  (foldl Cleaner.load_item st rest).1.1.2
  = distinct_in_order (omap Cleaner.i_file (done ++ rest)).
Proof.
  revert done st. induction rest as [|it rest IH]; intros done st H; simpl.
  - by rewrite app_nil_r.
  - replace (done ++ it :: rest) with ((done ++ [it]) ++ rest)
      by (by rewrite <- app_assoc).
    apply IH. destruct st as [[[secrets fps] fmap] ss]. simpl in H.
    unfold Cleaner.load_item. rewrite omap_app. simpl.
    destruct (Cleaner.i_file it) as [fp|]; simpl.
    + by rewrite distinct_in_order_snoc, <- H.
    + by rewrite app_nil_r.
Qed.

(** X24. [load_secrets_from_jsonl] returns every value of the objects of
    the file once; the files of the objects once each, in the order of
    their first object ([distinct_in_order]), which are the keys of
    [file_map] in that order; for every file the number of its objects;
    and as
    source ["history"] when the file has objects and each of them has a
    non-empty [commit], ["current"] when no object has one (an empty file
    included), and ["both"] otherwise. *)
Theorem load_secrets_from_jsonl_collects (set_order : gset string -> list string)
    (items : list Cleaner.item) :
  enumerates set_order ->
  let r := Cleaner.load_secrets_from_jsonl set_order items in
  NoDup (Cleaner.l_secrets r)
  /\ (forall v, v ∈ Cleaner.l_secrets r
                <-> exists it, it ∈ items /\ Cleaner.i_value it = Some v)
  /\ NoDup (Cleaner.l_file_paths r)
  /\ (forall fp, fp ∈ Cleaner.l_file_paths r
                 <-> exists it, it ∈ items /\ Cleaner.i_file it = Some fp)
  /\ Cleaner.l_file_paths r = distinct_in_order (omap Cleaner.i_file items)
  /\ map fst (Cleaner.l_file_map r) = Cleaner.l_file_paths r
  /\ (forall fp n, (fp, n) ∈ Cleaner.l_file_map r ->
                   n = objects_of_file items fp /\ 1 <= n)
  /\ Cleaner.l_source r
     = (if existsb from_history items
        then if forallb from_history items then "history" else "both"
        else "current").
Proof.
  intros Henum. unfold Cleaner.load_secrets_from_jsonl.
  pose proof (load_all_inv items) as Hinv.
  pose proof (load_loop_paths items [] ([], [], [], ∅) eq_refl) as Hord.
  rewrite app_nil_l in Hord.
  destruct (foldl Cleaner.load_item ([], [], [], ∅) items) as [[[secrets fps] fmap] ss].
  destruct Hinv as (Hs & Hnd & Hfp & Hkeys & Hcount & Hh & Hc). cbn.
  split_and!; try done.
  - apply Henum.
  - intros v. rewrite (proj2 (Henum _)), elem_of_list_to_set, Hs, list_elem_of_omap.
    done.
  - intros fp n Hin.
    assert (Scanner.dict_get fmap fp = Some n) as Hg.
    { apply dict_get_of_elem; [by rewrite Hkeys | done]. }
    pose proof (Hcount fp) as Hn. rewrite Hg in Hn. simpl in Hn. split; [done|].
    rewrite Hn. apply objects_of_file_pos, Hfp. rewrite <- Hkeys.
    apply list_elem_of_In, in_map_iff. exists (fp, n). split; [done|].
    by apply list_elem_of_In.
  - by apply source_str_of.
Qed.

Lemma load_secrets_from_jsonl_collects_witness :
  enumerates elements
  /\ Cleaner.l_file_paths (Cleaner.load_secrets_from_jsonl elements demo_items)
     = ["b.env"; "a.env"]
  /\ Cleaner.l_source (Cleaner.load_secrets_from_jsonl elements demo_items)
     = "both".
Proof.
  split; [exact elements_enumerates|].
  pose proof (load_secrets_from_jsonl_collects elements demo_items
                elements_enumerates) as H.
  cbv zeta in H. destruct H as (_ & _ & _ & _ & Hp & _ & _ & Hs).
  split; [exact Hp | exact Hs].
Defined.

Lemma clean_history_keeps_files (e : Cleaner.env) (secrets : list string)
    (opts : Cleaner.CleanOptions) (w : Cleaner.repo) :
  source_of opts = "history" ->
  Cleaner.files (Cleaner.clean e secrets opts w).2 = Cleaner.files w
  /\ Cleaner.files_modified (Cleaner.clean e secrets opts w).1 = 0.
Proof.
  unfold Cleaner.clean. cbv zeta.
  fold (source_of opts). fold (tool_of e opts). fold (backup_name e).
  generalize dependent (source_of opts). generalize dependent (tool_of e opts).
  intros tl src ->. repeat case_match; simplify_eq/=; done.
Qed.

Lemma current_stream_from_history (self : Scanner.t) (tree : list Scanner.tree_file)
    (now : string) :
  forallb from_history (map item_of_entry (Scanner.scan_current_stream self tree now))
  = true.
Proof.
  apply forallb_forall. intros it (e & <- & He)%in_map_iff.
  apply list_elem_of_In in He. rewrite scan_current_stream_written in He.
  apply written_sub, current_candidates_good in He
    as (rel & key & value & _ & _ & _ & _ & ->).
  done.
Qed.

Lemma enumerates_empty (set_order : gset string -> list string) :
  enumerates set_order -> set_order ∅ = [].
Proof.
  intros H. apply no_element_nil. intros x Hx. apply (H ∅) in Hx.
  by apply elem_of_empty in Hx.
Qed.

(** X25. A file written by [scan_current_stream] loads with the source
    ["history"] unless it is empty, every entry having the commit
    ["HEAD"]; so when [clean] is run with the secrets and the options that
    the interface builds from such a file, its pass over the working
    tree is skipped: [clean] itself rewrites no file and reports none
    modified. *)
Theorem current_stream_loads_as_history (self : Scanner.t)
    (tree : list Scanner.tree_file) (now : string)
    (set_order : gset string -> list string) (tool : string) (dry_run : bool)
    (e : Cleaner.env) (w : Cleaner.repo) :
  enumerates set_order ->
  let stream := Scanner.scan_current_stream self tree now in
  let loaded := Cleaner.load_secrets_from_jsonl set_order (map item_of_entry stream) in
  let run := Cleaner.clean e (Cleaner.l_secrets loaded)
               (options_of tool dry_run loaded) w in
  Cleaner.l_source loaded = (if stream is [] then "current" else "history")
  /\ (forall v, v ∈ Cleaner.l_secrets loaded
                <-> exists x, x ∈ stream /\ Scanner.e_value x = v)
  /\ Cleaner.files run.2 = Cleaner.files w
  /\ Cleaner.files_modified run.1 = 0.
Proof.
  intros Henum stream loaded run.
  pose proof (current_stream_from_history self tree now) as Hall.
  fold stream in Hall.
  pose proof (load_all_inv (map item_of_entry stream)) as Hinv.
  unfold run, loaded, Cleaner.load_secrets_from_jsonl in *. clear run loaded.
  destruct (foldl Cleaner.load_item ([], [], [], ∅) (map item_of_entry stream))
    as [[[secrets fps] fmap] ss].
  destruct Hinv as (Hs & Hnd & Hfp & Hkeys & Hcount & Hh & Hc). cbn [Cleaner.l_source
    Cleaner.l_secrets].
  assert (Cleaner.source_str ss = if stream is [] then "current" else "history") as Hsrc.
  { rewrite (source_str_of ss _ Hh Hc), Hall.
    destruct stream as [|x stream']; [done|].
    cbn [map existsb]. cbn [forallb] in Hall. apply andb_prop in Hall as [-> _]. done. }
  split_and!.
  - done.
  - intros v. rewrite (proj2 (Henum _)), elem_of_list_to_set, Hs, list_elem_of_omap.
    split.
    + intros (it & (x & <- & Hx)%list_elem_of_In%in_map_iff & Hv).
      exists x. split; [by apply list_elem_of_In|]. simpl in Hv. congruence.
    + intros (x & Hx & <-). exists (item_of_entry x). split; [|done].
      apply list_elem_of_In, in_map, list_elem_of_In, Hx.
  - destruct stream as [|x stream'].
    + simpl in Hs. subst secrets. simpl. by rewrite enumerates_empty.
    + apply clean_history_keeps_files. unfold source_of, options_of. simpl.
      by rewrite Hsrc.
  - destruct stream as [|x stream'].
    + simpl in Hs. subst secrets. simpl. by rewrite enumerates_empty.
    + apply clean_history_keeps_files. unfold source_of, options_of. simpl.
      by rewrite Hsrc.
Qed.

Lemma current_stream_loads_as_history_witness :
  enumerates elements
  /\ Cleaner.l_source
       (Cleaner.load_secrets_from_jsonl elements
          (map item_of_entry
             (Scanner.scan_current_stream demo_scanner one_file_tree
                "2026-01-01T00:00:00")))
     = "history".
Proof.
  split; [exact elements_enumerates|].
  pose proof (current_stream_loads_as_history demo_scanner one_file_tree
                "2026-01-01T00:00:00" elements "auto" false demo_env demo_repo
                elements_enumerates) as H.
  cbv zeta in H. destruct H as (H & _). exact H.
Defined.

(** X26. [load_secrets_from_json] reads the objects of the field
    [results] as [load_secrets_from_jsonl] reads the lines of a file:
    same files, same counts, same source, the same secrets; and its
    secrets come longest first. A file without the field gives no secret
    and the source ["current"]. *)
Theorem load_secrets_from_json_longest_first (set_order : gset string -> list string)
    (results : option (list Cleaner.item)) :
  let r := Cleaner.load_secrets_from_json set_order results in
  let r' := Cleaner.load_secrets_from_jsonl set_order (default [] results) in
  longest_first (Cleaner.l_secrets r)
  /\ Cleaner.l_secrets r ≡ₚ Cleaner.l_secrets r'
  /\ Cleaner.l_file_paths r = Cleaner.l_file_paths r'
  /\ Cleaner.l_file_map r = Cleaner.l_file_map r'
  /\ Cleaner.l_source r = Cleaner.l_source r'
  /\ (results = None ->
      Cleaner.l_secrets r = Str.sorted_longest_first (set_order ∅)
      /\ Cleaner.l_file_paths r = [] /\ Cleaner.l_source r = "current").
Proof.
  unfold Cleaner.load_secrets_from_json, Cleaner.load_secrets_from_jsonl.
  destruct results as [items|]; simpl.
  - destruct (foldl Cleaner.load_item ([], [], [], ∅) items) as [[[secrets fps] fmap] ss].
    simpl. split_and!; try done.
    + apply sorted_longest_first_sorted.
    + apply sorted_longest_first_perm.
  - split_and!; try done.
    + apply sorted_longest_first_sorted.
    + apply sorted_longest_first_perm.
Qed.

Lemma load_secrets_from_json_longest_first_witness :
  Cleaner.l_source (Cleaner.load_secrets_from_json elements None) = "current".
Proof.
  pose proof (load_secrets_from_json_longest_first elements None) as H.
  cbv zeta in H. destruct H as (_ & _ & _ & _ & _ & H).
  destruct (H eq_refl) as (_ & _ & H3). exact H3.
Defined.

(** *** The index of the analyzer *)

Lemma dict_set_keys {V : Type} (d : list (string * V)) (k : string) (v : V) :
  map fst (Scanner.dict_set d k v)
  = match Scanner.dict_get d k with
    | Some _ => map fst d
    | None => map fst d ++ [k]
    end.
Proof.
  destruct (Scanner.dict_get d k) as [v0|] eqn:E.
  - by rewrite (dict_set_present_keys _ _ _ _ E).
  - by rewrite (dict_set_absent _ _ _ E), map_app.
Qed.

Lemma dict_set_nodup {V : Type} (d : list (string * V)) (k : string) (v : V) :
  NoDup (map fst d) -> NoDup (map fst (Scanner.dict_set d k v)).
Proof. apply dict_set_ok. Qed.

Lemma dict_set_elem_strong {V : Type} (d : list (string * V)) (k : string) (v : V)
    (k' : string) (v' : V) :
  NoDup (map fst d) ->
  (k', v') ∈ Scanner.dict_set d k v ->
  (k' = k /\ v' = v) \/ (k' <> k /\ (k', v') ∈ d).
Proof.
  intros Hnd Hin. destruct (decide (k' = k)) as [->|Hne].
  - left. split; [done|].
    apply (dict_get_of_elem _ _ _ (dict_set_nodup d k v Hnd)) in Hin.
    rewrite dict_get_set in Hin. congruence.
  - right. split; [done|]. apply dict_set_elem in Hin as [[? _]|?]; done.
Qed.

Lemma dict_set_sum {V : Type} (f : V -> nat) (d : list (string * V)) (k : string)
    (v : V) :
  sum_list (map (fun kv => f (snd kv)) (Scanner.dict_set d k v))
  + match Scanner.dict_get d k with Some v0 => f v0 | None => 0 end
  = sum_list (map (fun kv => f (snd kv)) d) + f v.
Proof.
  induction d as [|[k0 v0] d IH]; simpl; [lia|].
  destruct (String.eqb k0 k); simpl; lia.
Qed.

Lemma dict_get_elem {V : Type} (d : list (string * V)) (k : string) :
  k ∈ map fst d -> is_Some (Scanner.dict_get d k).
Proof.
  intros H. destruct (Scanner.dict_get d k) eqn:E; [by eexists|].
  by apply dict_get_None in E.
Qed.

Lemma filter_snoc {A : Type} (P : A -> bool) (l : list A) (x : A) :
  List.filter P (l ++ [x]) = List.filter P l ++ (if P x then [x] else []).
Proof. rewrite List.filter_app. simpl. by destruct (P x). Qed.

Lemma filter_none {A : Type} (P : A -> bool) (l : list A) :
  (forall x, x ∈ l -> P x = false) -> List.filter P l = [].
Proof.
  induction l as [|x l IH]; intros H; simpl; [done|].
  rewrite (H x) by apply list_elem_of_here.
  apply IH. intros y Hy. apply H. by apply list_elem_of_further.
Qed.

Lemma of_value_other_key (k v : string) (e : Analyzer.entry) :
  of_key k e = false -> of_value k v e = false.
Proof. unfold of_value. by intros ->. Qed.

Lemma secret_acc_other (done : list Analyzer.entry) (k : string)
    (sd : Analyzer.secret_data) (e : Analyzer.entry) :
  of_key k e = false -> secret_acc done k sd -> secret_acc (done ++ [e]) k sd.
Proof.
  intros Hk (H1 & H2 & H3 & H4 & H5 & H6 & H7 & H8).
  assert (List.filter (of_key k) (done ++ [e]) = List.filter (of_key k) done) as Ek.
  { by rewrite filter_snoc, Hk, app_nil_r. }
  assert (forall v, List.filter (of_value k v) (done ++ [e])
                    = List.filter (of_value k v) done) as Ev.
  { intros v. by rewrite filter_snoc, of_value_other_key, app_nil_r. }
  unfold secret_acc. rewrite Ek. split_and!; try done.
  - intros v vd Hin. destruct (H7 v vd Hin) as [Hv ?]. split; [|done].
    unfold value_acc in *. by rewrite Ev.
  - intros e' [He'|He']%elem_of_app Hke; [by apply H8|].
    apply list_elem_of_singleton in He' as ->. congruence.
Qed.

Lemma value_acc_other (done : list Analyzer.entry) (k v : string)
    (vd : Analyzer.value_data) (e : Analyzer.entry) :
  of_value k v e = false -> value_acc done k v vd -> value_acc (done ++ [e]) k v vd.
Proof.
  intros Hv H. unfold value_acc in *. by rewrite filter_snoc, Hv, app_nil_r.
Qed.

Lemma of_key_self (e : Analyzer.entry) : of_key (Analyzer.secret_key e) e = true.
Proof. apply String.eqb_refl. Qed.

Lemma of_value_self (e : Analyzer.entry) :
  of_value (Analyzer.secret_key e) (Analyzer.a_value e) e = true.
Proof. unfold of_value. by rewrite of_key_self, String.eqb_refl. Qed.

Lemma of_value_other (e : Analyzer.entry) (k v : string) :
  v <> Analyzer.a_value e -> of_value k v e = false.
Proof.
  intros H. unfold of_value. destruct (String.eqb_spec (Analyzer.a_value e) v).
  - congruence.
  - apply andb_false_r.
Qed.

Lemma of_key_other (e : Analyzer.entry) (k : string) :
  k <> Analyzer.secret_key e -> of_key k e = false.
Proof. intros H. unfold of_key. apply String.eqb_neq. congruence. Qed.

Lemma authors_step (A : gset (option string)) (l : list Analyzer.entry)
    (e : Analyzer.entry) :
  (forall x, x ∈ A <-> x ∈ map Analyzer.a_author l) ->
  forall x, x ∈ {[ Analyzer.a_author e ]} ∪ A
            <-> x ∈ map Analyzer.a_author (l ++ [e]).
Proof.
  intros H x. rewrite map_app, elem_of_app, elem_of_union, elem_of_singleton, H.
  simpl. rewrite list_elem_of_singleton. tauto.
Qed.

Lemma value_step (done : list Analyzer.entry) (e : Analyzer.entry)
    (vd : Analyzer.value_data) :
  value_acc done (Analyzer.secret_key e) (Analyzer.a_value e) vd ->
  value_acc (done ++ [e]) (Analyzer.secret_key e) (Analyzer.a_value e)
    {| Analyzer.vd_occurrences := Analyzer.vd_occurrences vd + 1;
       Analyzer.vd_authors := {[ Analyzer.a_author e ]} ∪ Analyzer.vd_authors vd;
       Analyzer.vd_dates := Analyzer.vd_dates vd ++ [Analyzer.a_date e] |}.
Proof.
  intros (H1 & H2 & H3). unfold value_acc. rewrite filter_snoc, of_value_self. simpl.
  split_and!.
  - rewrite length_app, H1. done.
  - rewrite map_app, H2. done.
  - by apply authors_step.
Qed.

Lemma values_step (done : list Analyzer.entry) (e : Analyzer.entry)
    (values : list (string * Analyzer.value_data)) (vd : Analyzer.value_data) :
  NoDup (map fst values) ->
  (forall v vd', (v, vd') ∈ values ->
                 value_acc done (Analyzer.secret_key e) v vd'
                 /\ 1 <= Analyzer.vd_occurrences vd') ->
  value_acc done (Analyzer.secret_key e) (Analyzer.a_value e) vd ->
  Analyzer.vd_occurrences vd
  = match Scanner.dict_get values (Analyzer.a_value e) with
    | Some vd0 => Analyzer.vd_occurrences vd0
    | None => 0
    end ->
  let values2 :=
    Scanner.dict_set values (Analyzer.a_value e)
      {| Analyzer.vd_occurrences := Analyzer.vd_occurrences vd + 1;
         Analyzer.vd_authors := {[ Analyzer.a_author e ]} ∪ Analyzer.vd_authors vd;
         Analyzer.vd_dates := Analyzer.vd_dates vd ++ [Analyzer.a_date e] |} in
  NoDup (map fst values2)
  /\ (forall v vd', (v, vd') ∈ values2 ->
                    value_acc (done ++ [e]) (Analyzer.secret_key e) v vd'
                    /\ 1 <= Analyzer.vd_occurrences vd')
  /\ (forall v, v = Analyzer.a_value e \/ v ∈ map fst values -> v ∈ map fst values2)
  /\ sum_list (map (fun kv => Analyzer.vd_occurrences (snd kv)) values2)
     = sum_list (map (fun kv => Analyzer.vd_occurrences (snd kv)) values) + 1.
Proof.
  intros Hnd Hall Hvd Hocc values2. split_and!.
  - by apply dict_set_nodup.
  - intros v vd' Hin.
    apply (dict_set_elem_strong _ _ _ _ _ Hnd) in Hin as [[-> ->]|[Hne Hin]].
    + split; [by apply value_step | simpl; lia].
    + destruct (Hall v vd' Hin) as [Hacc ?]. split; [|done].
      apply value_acc_other; [|done]. by apply of_value_other.
  - intros v Hv. unfold values2. rewrite dict_set_keys.
    destruct (Scanner.dict_get values (Analyzer.a_value e)) as [vd0|] eqn:E.
    + destruct Hv as [->|?]; [|done].
      apply dict_get_Some in E. apply list_elem_of_In, in_map_iff.
      exists (Analyzer.a_value e, vd0). split; [done | by apply list_elem_of_In].
    + rewrite elem_of_app, list_elem_of_singleton. tauto.
  - pose proof (dict_set_sum Analyzer.vd_occurrences values (Analyzer.a_value e)
                  {| Analyzer.vd_occurrences := Analyzer.vd_occurrences vd + 1;
                     Analyzer.vd_authors :=
                       {[ Analyzer.a_author e ]} ∪ Analyzer.vd_authors vd;
                     Analyzer.vd_dates :=
                       Analyzer.vd_dates vd ++ [Analyzer.a_date e] |}) as Hs.
    fold values2 in Hs. rewrite <- Hocc in Hs. simpl in Hs. lia.
Qed.

Lemma secret_step (done : list Analyzer.entry) (e : Analyzer.entry)
    (sd : Analyzer.secret_data) :
  secret_acc done (Analyzer.secret_key e) sd ->
  exists vd,
    Scanner.dict_get
      (match Scanner.dict_get (Analyzer.sd_values sd) (Analyzer.a_value e) with
       | None =>
           Scanner.dict_set (Analyzer.sd_values sd) (Analyzer.a_value e)
             {| Analyzer.vd_occurrences := 0; Analyzer.vd_authors := ∅;
                Analyzer.vd_dates := [] |}
       | Some _ => Analyzer.sd_values sd
       end) (Analyzer.a_value e) = Some vd
    /\ secret_acc (done ++ [e]) (Analyzer.secret_key e)
         {| Analyzer.sd_file := Analyzer.sd_file sd;
            Analyzer.sd_key := Analyzer.sd_key sd;
            Analyzer.sd_type := Analyzer.sd_type sd;
            Analyzer.sd_values :=
              Scanner.dict_set
                (match Scanner.dict_get (Analyzer.sd_values sd) (Analyzer.a_value e) with
                 | None =>
                     Scanner.dict_set (Analyzer.sd_values sd) (Analyzer.a_value e)
                       {| Analyzer.vd_occurrences := 0; Analyzer.vd_authors := ∅;
                          Analyzer.vd_dates := [] |}
                 | Some _ => Analyzer.sd_values sd
                 end) (Analyzer.a_value e)
                {| Analyzer.vd_occurrences := Analyzer.vd_occurrences vd + 1;
                   Analyzer.vd_authors :=
                     {[ Analyzer.a_author e ]} ∪ Analyzer.vd_authors vd;
                   Analyzer.vd_dates :=
                     Analyzer.vd_dates vd ++ [Analyzer.a_date e] |};
            Analyzer.sd_authors := {[ Analyzer.a_author e ]} ∪ Analyzer.sd_authors sd;
            Analyzer.sd_dates := Analyzer.sd_dates sd ++ [Analyzer.a_date e];
            Analyzer.sd_change_count := Analyzer.sd_change_count sd + 1 |}.
Proof.
  intros (H1 & H2 & H3 & H4 & H5 & H6 & H7 & H8).
  assert (exists vd,
             Scanner.dict_get
               (match Scanner.dict_get (Analyzer.sd_values sd) (Analyzer.a_value e) with
                | None =>
                    Scanner.dict_set (Analyzer.sd_values sd) (Analyzer.a_value e)
                      {| Analyzer.vd_occurrences := 0; Analyzer.vd_authors := ∅;
                         Analyzer.vd_dates := [] |}
                | Some _ => Analyzer.sd_values sd
                end) (Analyzer.a_value e) = Some vd
             /\ Scanner.dict_set
                  (match Scanner.dict_get (Analyzer.sd_values sd) (Analyzer.a_value e)
                   with
                   | None =>
                       Scanner.dict_set (Analyzer.sd_values sd) (Analyzer.a_value e)
                         {| Analyzer.vd_occurrences := 0; Analyzer.vd_authors := ∅;
                            Analyzer.vd_dates := [] |}
                   | Some _ => Analyzer.sd_values sd
                   end) (Analyzer.a_value e)
                  {| Analyzer.vd_occurrences := Analyzer.vd_occurrences vd + 1;
                     Analyzer.vd_authors :=
                       {[ Analyzer.a_author e ]} ∪ Analyzer.vd_authors vd;
                     Analyzer.vd_dates :=
                       Analyzer.vd_dates vd ++ [Analyzer.a_date e] |}
                = Scanner.dict_set (Analyzer.sd_values sd) (Analyzer.a_value e)
                    {| Analyzer.vd_occurrences := Analyzer.vd_occurrences vd + 1;
                       Analyzer.vd_authors :=
                         {[ Analyzer.a_author e ]} ∪ Analyzer.vd_authors vd;
                       Analyzer.vd_dates :=
                         Analyzer.vd_dates vd ++ [Analyzer.a_date e] |}
             /\ value_acc done (Analyzer.secret_key e) (Analyzer.a_value e) vd
             /\ Analyzer.vd_occurrences vd
                = match Scanner.dict_get (Analyzer.sd_values sd) (Analyzer.a_value e) with
                  | Some vd0 => Analyzer.vd_occurrences vd0
                  | None => 0
                  end) as (vd & Hget & Hset & Hvd & Hocc).
  { destruct (Scanner.dict_get (Analyzer.sd_values sd) (Analyzer.a_value e))
      as [vd|] eqn:E.
    - exists vd. split_and!; try done. apply dict_get_Some in E. by apply H7.
    - eexists. split_and!; [apply dict_get_set | by rewrite dict_set_set | | done].
      assert (List.filter (of_value (Analyzer.secret_key e) (Analyzer.a_value e)) done
              = []) as Ef.
      { apply filter_none. intros x Hx. unfold of_value.
        destruct (of_key (Analyzer.secret_key e) x) eqn:Ek; [|done]. simpl.
        apply String.eqb_neq. intros Hv. apply dict_get_None in E. apply E.
        rewrite <- Hv. by apply H8. }
      unfold value_acc. rewrite Ef. simpl. split_and!; try done.
      intros x. split; [by intros ?%elem_of_empty | by intros ?%elem_of_nil]. }
  exists vd. split; [done|]. rewrite Hset.
  destruct (values_step done e (Analyzer.sd_values sd) vd H2 H7 Hvd Hocc)
    as (V1 & V2 & V3 & V4).
  unfold secret_acc. cbn [Analyzer.sd_file Analyzer.sd_key Analyzer.sd_values
    Analyzer.sd_authors Analyzer.sd_dates Analyzer.sd_change_count].
  rewrite filter_snoc, of_key_self. split_and!.
  - done.
  - done.
  - rewrite length_app, H3. done.
  - rewrite map_app, H4. done.
  - by apply authors_step.
  - rewrite V4, H6. done.
  - done.
  - intros e' [He'|He']%elem_of_app Hk.
    + apply V3. right. by apply H8.
    + apply list_elem_of_singleton in He' as ->. apply V3. by left.
Qed.

Lemma index_step (done : list Analyzer.entry) (e : Analyzer.entry)
    (index : list (string * Analyzer.secret_data)) (sd0 sd1 : Analyzer.secret_data) :
  analyzer_index_ok done index ->
  Analyzer.sd_change_count sd0
  = match Scanner.dict_get index (Analyzer.secret_key e) with
    | Some sd => Analyzer.sd_change_count sd
    | None => 0
    end ->
  Analyzer.sd_change_count sd1 = Analyzer.sd_change_count sd0 + 1 ->
  secret_acc (done ++ [e]) (Analyzer.secret_key e) sd1 ->
  analyzer_index_ok (done ++ [e]) (Scanner.dict_set index (Analyzer.secret_key e) sd1).
Proof.
  intros (Hnd & Hall & Hsum & Hcomp) Hcc0 Hcc1 Hacc. unfold analyzer_index_ok.
  split_and!.
  - by apply dict_set_nodup.
  - intros k sd Hin.
    apply (dict_set_elem_strong _ _ _ _ _ Hnd) in Hin as [[-> ->]|[Hne Hin]].
    + split; [done | lia].
    + destruct (Hall k sd Hin) as [Hk ?]. split; [|done].
      apply secret_acc_other; [|done]. by apply of_key_other.
  - pose proof (dict_set_sum Analyzer.sd_change_count index (Analyzer.secret_key e) sd1)
      as Hs.
    rewrite <- Hcc0 in Hs. rewrite length_app. simpl. lia.
  - intros e' He'. rewrite dict_set_keys.
    assert (e' ∈ done \/ e' = e) as [Hd| ->].
    { apply elem_of_app in He' as [?|?%list_elem_of_singleton]; auto. }
    + specialize (Hcomp e' Hd).
      destruct (Scanner.dict_get index (Analyzer.secret_key e)); [done|].
      apply elem_of_app. by left.
    + destruct (Scanner.dict_get index (Analyzer.secret_key e)) as [sd|] eqn:E.
      * apply dict_get_Some in E. apply list_elem_of_In, in_map_iff.
        exists (Analyzer.secret_key e, sd). split; [done | by apply list_elem_of_In].
      * apply elem_of_app. right. apply list_elem_of_here.
Qed.

Lemma index_entry_ok (done : list Analyzer.entry) (e : Analyzer.entry)
    (index : list (string * Analyzer.secret_data)) :
  analyzer_index_ok done index ->
  analyzer_index_ok (done ++ [e]) (Analyzer.index_entry index e).
Proof.
  intros Hok. pose proof Hok as (Hnd & Hall & Hsum & Hcomp).
  unfold Analyzer.index_entry. cbv zeta.
  destruct (Scanner.dict_get index (Analyzer.secret_key e)) as [sd|] eqn:E0.
  - rewrite E0.
    assert (secret_acc done (Analyzer.secret_key e) sd) as Hsd.
    { apply dict_get_Some in E0. by apply Hall. }
    destruct (secret_step done e sd Hsd) as (vd & Hget & Hacc).
    rewrite Hget.
    eapply (index_step done e index sd); try done.
    by rewrite E0.
  - rewrite dict_get_set.
    set (fresh := {| Analyzer.sd_file := Analyzer.a_file e;
                     Analyzer.sd_key := Analyzer.a_key e;
                     Analyzer.sd_type := Analyzer.a_type e;
                     Analyzer.sd_values := []; Analyzer.sd_authors := ∅;
                     Analyzer.sd_dates := []; Analyzer.sd_change_count := 0 |}).
    assert (secret_acc done (Analyzer.secret_key e) fresh) as Hsd.
    { assert (List.filter (of_key (Analyzer.secret_key e)) done = []) as Ef.
      { apply filter_none. intros x Hx. apply String.eqb_neq. intros Hk.
        apply dict_get_None in E0. apply E0. rewrite <- Hk. by apply Hcomp. }
      unfold secret_acc. rewrite Ef. simpl. split_and!; try done.
      - constructor.
      - intros x. split; [by intros ?%elem_of_empty | by intros ?%elem_of_nil].
      - by intros v vd ?%elem_of_nil.
      - intros x Hx Hk.
        assert (x ∈ List.filter (of_key (Analyzer.secret_key e)) done) as Hin.
        { apply list_elem_of_In, filter_In. split; [by apply list_elem_of_In | done]. }
        rewrite Ef in Hin. by apply elem_of_nil in Hin. }
    destruct (secret_step done e fresh Hsd) as (vd & Hget & Hacc).
    rewrite Hget, dict_set_set.
    eapply (index_step done e index fresh); try done.
    by rewrite E0.
Qed.

Lemma index_entries_ok (rest done : list Analyzer.entry)
    (index : list (string * Analyzer.secret_data)) :
  analyzer_index_ok done index ->
  analyzer_index_ok (done ++ rest) (foldl Analyzer.index_entry index rest).
Proof.
  revert done index. induction rest as [|e rest IH]; intros done index H; simpl.
  - by rewrite app_nil_r.
  - replace (done ++ e :: rest) with ((done ++ [e]) ++ rest)
      by (by rewrite <- app_assoc).
    apply IH. by apply index_entry_ok.
Qed.

Lemma analyzer_index (entries : list Analyzer.entry) :
  analyzer_index_ok entries (foldl Analyzer.index_entry [] entries).
Proof.
  apply (index_entries_ok entries [] []). unfold analyzer_index_ok. simpl.
  split_and!; try done.
  - constructor.
  - by intros k sd ?%elem_of_nil.
  - by intros e ?%elem_of_nil.
Qed.

(** *** Building the analysis *)

Lemma insert_by_count_perm {A : Type} (count : A -> nat) (x : A) (l : list A) :
  Analyzer.insert_by_count count x l ≡ₚ x :: l.
Proof.
  induction l as [|y l IH]; simpl; [done|].
  destruct (count x <? count y)%nat; [|done].
  rewrite IH. apply Permutation_swap.
Qed.

Lemma sorted_by_count_perm {A : Type} (count : A -> nat) (l : list A) :
  Analyzer.sorted_by_count count l ≡ₚ l.
Proof.
  unfold Analyzer.sorted_by_count. induction l as [|x l IH]; simpl; [done|].
  by rewrite insert_by_count_perm, IH.
Qed.

Lemma insert_by_count_sorted {A : Type} (count : A -> nat) (x : A) (l : list A) :
  largest_first count l -> largest_first count (Analyzer.insert_by_count count x l).
Proof.
  unfold largest_first. induction l as [|y l IH]; intros Hs; simpl.
  - by repeat constructor.
  - apply StronglySorted_inv in Hs as [Hs Hy].
    destruct (Nat.ltb_spec (count x) (count y)) as [Hlt|Hge].
    + constructor; [by apply IH|].
      rewrite Forall_forall. intros z Hz.
      rewrite insert_by_count_perm in Hz. apply elem_of_cons in Hz as [->|Hz]; [lia|].
      rewrite Forall_forall in Hy. by apply Hy.
    + constructor; [by constructor|]. constructor; [done|].
      eapply Forall_impl; [exact Hy|]. simpl. lia.
Qed.

Lemma sorted_by_count_sorted {A : Type} (count : A -> nat) (l : list A) :
  largest_first count (Analyzer.sorted_by_count count l).
Proof.
  unfold Analyzer.sorted_by_count. induction l as [|x l IH]; simpl.
  - constructor.
  - by apply insert_by_count_sorted.
Qed.

Lemma sum_list_perm {A : Type} (f : A -> nat) (l l' : list A) :
  l ≡ₚ l' -> sum_list (map f l) = sum_list (map f l').
Proof. induction 1; simpl; lia. Qed.

Lemma map_outcome_return {A B : Type} (f : A -> outcome B) (l : list A) (ys : list B) :
  Analyzer.map_outcome f l = Return ys -> Forall2 (fun x y => f x = Return y) l ys.
Proof.
  revert ys. induction l as [|x l IH]; intros ys; simpl.
  - intros [= <-]. constructor.
  - destruct (f x) as [y|] eqn:E; simpl; [|done].
    destruct (Analyzer.map_outcome f l) as [ys'|]; simpl; [|done].
    intros [= <-]. constructor; [done | by apply IH].
Qed.

Lemma map_outcome_total {A B : Type} (f : A -> outcome B) (l : list A) :
  (forall x, x ∈ l -> exists y, f x = Return y) ->
  exists ys, Analyzer.map_outcome f l = Return ys.
Proof.
  induction l as [|x l IH]; intros H; simpl.
  - by eexists.
  - destruct (H x) as [y ->]; [apply list_elem_of_here|]. simpl.
    destruct IH as [ys ->].
    { intros x' Hx'. apply H. by apply list_elem_of_further. }
    simpl. by eexists.
Qed.

Lemma map_outcome_raise {A B : Type} (f : A -> outcome B) (l : list A) (x : A) :
  x ∈ l -> f x = Raise -> Analyzer.map_outcome f l = Raise.
Proof.
  induction l as [|x' l IH]; intros Hin Hx; simpl.
  - by apply elem_of_nil in Hin.
  - apply elem_of_cons in Hin as [<-|Hin].
    + by rewrite Hx.
    + destruct (f x'); simpl; [|done]. by rewrite IH.
Qed.

Lemma value_entry_built (set_order : gset (option string) -> list (option string))
    (kv : string * Analyzer.value_data) (ve : Analyzer.ValueEntry) :
  Analyzer.value_entry_of set_order kv = Return ve -> entry_built kv ve.
Proof.
  destruct kv as [v vd]. unfold Analyzer.value_entry_of.
  destruct (Analyzer.py_sorted (Analyzer.vd_dates vd)); simpl; [|done].
  destruct (Analyzer.py_sorted (set_order (Analyzer.vd_authors vd))); simpl; [|done].
  by intros [= <-].
Qed.

Lemma secret_of_data_built (set_order : gset (option string) -> list (option string))
    (sd : Analyzer.secret_data) (s : Analyzer.Secret) :
  Analyzer.secret_of_data set_order sd = Return s -> secret_built sd s.
Proof.
  unfold Analyzer.secret_of_data.
  destruct (Analyzer.py_sorted (set_order (Analyzer.sd_authors sd))); simpl; [|done].
  destruct (Analyzer.py_sorted (Analyzer.sd_dates sd)); simpl; [|done].
  destruct (Analyzer.map_outcome _ (Analyzer.sd_values sd)) as [ves|] eqn:E;
    simpl; [|done].
  intros [= <-]. unfold secret_built. simpl. split_and!; try done.
  - apply sorted_by_count_sorted.
  - exists ves. split; [apply sorted_by_count_perm|].
    apply map_outcome_return in E.
    eapply Forall2_impl; [exact E|]. intros kv ve H. exact (value_entry_built set_order kv ve H).
Qed.

Lemma entries_built_sum (values : list (string * Analyzer.value_data))
    (ves : list Analyzer.ValueEntry) :
  Forall2 entry_built values ves ->
  sum_list (map Analyzer.ve_occurrences ves)
  = sum_list (map (fun kv => Analyzer.vd_occurrences (snd kv)) values)
  /\ map Analyzer.ve_value ves = map fst values.
Proof.
  induction 1 as [|kv ve values ves (H1 & H2 & H3) _ [IH1 IH2]]; simpl; [done|].
  rewrite IH1, IH2, H1, H2. done.
Qed.

Lemma Forall2_elem_r {A B : Type} (P : A -> B -> Prop) (l : list A) (l' : list B)
    (y : B) :
  Forall2 P l l' -> y ∈ l' -> exists x, x ∈ l /\ P x y.
Proof.
  induction 1 as [|x y' l l' Hxy _ IH]; intros Hy.
  - by apply elem_of_nil in Hy.
  - apply elem_of_cons in Hy as [->|Hy].
    + exists x. split; [apply list_elem_of_here | done].
    + destruct (IH Hy) as (x' & ? & ?). exists x'. split; [by apply list_elem_of_further | done].
Qed.

Lemma built_accounts (entries : list Analyzer.entry) (k : string)
    (sd : Analyzer.secret_data) (s : Analyzer.Secret) :
  secret_acc entries k sd -> 1 <= Analyzer.sd_change_count sd ->
  secret_built sd s ->
  analysis_key s = k /\ secret_accounts entries s
  /\ length (Analyzer.history s) = length (Analyzer.sd_values sd).
Proof.
  intros (H1 & H2 & H3 & H4 & H5 & H6 & H7 & H8) Hpos
         (B1 & B2 & B3 & B4 & B5 & B6 & ves & Bp & Bf).
  destruct (entries_built_sum _ _ Bf) as [Hsum Hvals].
  assert (analysis_key s = k) as Hk.
  { unfold analysis_key. by rewrite B1, B2. }
  assert (Analyzer.total_occurrences s = Analyzer.change_count s) as Htot.
  { rewrite B5, (sum_list_perm _ _ _ Bp), Hsum, H6, B4. done. }
  split; [done|]. split.
  - unfold secret_accounts. rewrite Hk. split_and!.
    + by rewrite B4.
    + by rewrite B4.
    + done.
    + intros Hnil. rewrite B5, Hnil, B4 in Htot. simpl in Htot. lia.
    + rewrite (Permutation_map Analyzer.ve_value Bp), Hvals. done.
    + intros ve Hve. rewrite Bp in Hve.
      destruct (Forall2_elem_r _ _ _ ve Bf Hve) as ([v vd] & Hin & E1 & E2 & E3).
      simpl in E1, E2, E3. destruct (H7 v vd Hin) as [(V1 & _) ?].
      rewrite E1, E2, E3. by split_and!.
    + done.
  - rewrite Bp. symmetry. by eapply Forall2_length.
Qed.

(** *** The statistics *)

Lemma count_up_sum {K : Type} `{EqDecision K} (d : list (K * nat)) (k : K) :
  sum_list (map snd (Analyzer.count_up d k)) = sum_list (map snd d) + 1.
Proof.
  induction d as [|[k' n] d IH]; simpl; [done|].
  destruct (decide (k' = k)); simpl; lia.
Qed.

Lemma count_up_keys {K : Type} `{EqDecision K} (d : list (K * nat)) (k k' : K) :
  k' ∈ map fst (Analyzer.count_up d k) <-> k' = k \/ k' ∈ map fst d.
Proof.
  induction d as [|[k0 n] d IH]; simpl.
  - rewrite list_elem_of_singleton. split; [auto | intros [?|?%elem_of_nil]; done].
  - destruct (decide (k0 = k)) as [->|Hne]; simpl.
    + rewrite elem_of_cons. tauto.
    + rewrite !elem_of_cons, IH. tauto.
Qed.

Lemma count_up_nodup {K : Type} `{EqDecision K} (d : list (K * nat)) (k : K) :
  NoDup (map fst d) -> NoDup (map fst (Analyzer.count_up d k)).
Proof.
  induction d as [|[k0 n] d IH]; simpl; intros Hnd.
  - apply NoDup_singleton.
  - apply NoDup_cons in Hnd as [Hk Hnd].
    destruct (decide (k0 = k)) as [->|Hne]; simpl.
    + by apply NoDup_cons.
    + apply NoDup_cons. split; [|by apply IH].
      rewrite count_up_keys. intros [?|?]; done.
Qed.

Lemma count_ups_nodup {K : Type} `{EqDecision K} (ks : list K) (d : list (K * nat)) :
  NoDup (map fst d) -> NoDup (map fst (foldl Analyzer.count_up d ks)).
Proof.
  revert d. induction ks as [|k ks IH]; intros d H; simpl; [done|].
  by apply IH, count_up_nodup.
Qed.

Lemma sum_list_snoc (l : list nat) (x : nat) : sum_list (l ++ [x]) = sum_list l + x.
Proof. induction l as [|y l IH]; simpl; lia. Qed.

Lemma take_elem {A : Type} (n : nat) (l : list A) (x : A) : x ∈ take n l -> x ∈ l.
Proof.
  revert n. induction l as [|y l IH]; intros [|n]; simpl; try by intros ?%elem_of_nil.
  intros [->|H]%elem_of_cons; [apply list_elem_of_here|].
  apply list_elem_of_further. by eapply IH.
Qed.

Lemma nodup_map_take {A B : Type} (f : A -> B) (n : nat) (l : list A) :
  NoDup (map f l) -> NoDup (map f (take n l)).
Proof.
  revert n. induction l as [|y l IH]; intros [|n] H; simpl; try constructor.
  - simpl in H. apply NoDup_cons in H as [Hy H]. intros Hin. apply Hy.
    apply list_elem_of_In, in_map_iff in Hin as (z & Hz & Hin).
    apply list_elem_of_In, in_map_iff. exists z. split; [done|].
    apply list_elem_of_In. eapply take_elem. by apply list_elem_of_In.
  - simpl in H. apply NoDup_cons in H as [_ H]. by apply IH.
Qed.

Lemma stats_step_inv (set_order : gset (option string) -> list (option string))
    (done : list (string * Analyzer.secret_data))
    (acc : list (option string * nat) * list (string * nat) * list (string * nat) * nat)
    (kv : string * Analyzer.secret_data) :
  stats_inv done acc -> stats_inv (done ++ [kv]) (Analyzer.stats_step set_order acc kv).
Proof.
  destruct acc as [[[ac fc] tc] uv]. intros (H1 & H2 & H3 & H4 & H5 & H6).
  unfold Analyzer.stats_step, stats_inv. split_and!.
  - by apply count_ups_nodup.
  - by apply count_up_nodup.
  - by apply count_up_nodup.
  - rewrite count_up_sum, length_app, H4. done.
  - rewrite count_up_sum, length_app, H5. done.
  - rewrite map_app. simpl. rewrite sum_list_snoc, H6. done.
Qed.

Lemma stats_fold_inv (set_order : gset (option string) -> list (option string))
    (rest done : list (string * Analyzer.secret_data))
    (acc : list (option string * nat) * list (string * nat) * list (string * nat) * nat) :
  stats_inv done acc ->
  stats_inv (done ++ rest) (foldl (Analyzer.stats_step set_order) acc rest).
Proof.
  revert done acc. induction rest as [|kv rest IH]; intros done acc H; simpl.
  - by rewrite app_nil_r.
  - replace (done ++ kv :: rest) with ((done ++ [kv]) ++ rest)
      by (by rewrite <- app_assoc).
    apply IH. by apply stats_step_inv.
Qed.

Lemma largest_first_take {A : Type} (count : A -> nat) (n : nat) (l : list A) :
  largest_first count l -> largest_first count (take n l).
Proof.
  unfold largest_first. revert n. induction l as [|x l IH]; intros n Hs.
  - by rewrite take_nil.
  - destruct n as [|n]; simpl; [constructor|].
    apply StronglySorted_inv in Hs as [Hs Hx].
    constructor; [by apply IH | by apply Forall_take].
Qed.

Lemma sum_take_le {A : Type} (f : A -> nat) (n : nat) (l : list A) :
  sum_list (map f (take n l)) <= sum_list (map f l).
Proof.
  revert n. induction l as [|x l IH]; intros n.
  - by rewrite take_nil.
  - destruct n as [|n]; simpl; [lia|]. specialize (IH n). lia.
Qed.

Lemma build_stats_fields (set_order : gset (option string) -> list (option string))
    (index : list (string * Analyzer.secret_data)) (n : nat) :
  let st := Analyzer._build_stats set_order index n in
  Analyzer.total_entries st = n
  /\ Analyzer.unique_secrets st = length index
  /\ Analyzer.unique_values st
     = sum_list (map (fun kv => length (Analyzer.sd_values (snd kv))) index)
  /\ length (Analyzer.top_authors st) <= 10
  /\ length (Analyzer.top_files st) <= 10
  /\ largest_first Analyzer.as_count (Analyzer.top_authors st)
  /\ largest_first Analyzer.fs_count (Analyzer.top_files st)
  /\ largest_first Analyzer.ts_count (Analyzer.type_breakdown st)
  /\ sum_list (map Analyzer.ts_count (Analyzer.type_breakdown st)) = length index
  /\ sum_list (map Analyzer.fs_count (Analyzer.top_files st)) <= length index
  /\ NoDup (map Analyzer.ts_type (Analyzer.type_breakdown st))
  /\ NoDup (map Analyzer.fs_file (Analyzer.top_files st))
  /\ NoDup (map Analyzer.as_author (Analyzer.top_authors st)).
Proof.
  unfold Analyzer._build_stats.
  pose proof (stats_fold_inv set_order index [] ([], [], [], 0)) as Hinv.
  destruct (foldl (Analyzer.stats_step set_order) ([], [], [], 0) index)
    as [[[ac fc] tc] uv].
  destruct Hinv as (H1 & H2 & H3 & H4 & H5 & H6).
  { unfold stats_inv. simpl. split_and!; try done; constructor. }
  simpl in H4, H5, H6. cbv zeta. cbn [Analyzer.total_entries Analyzer.unique_secrets
    Analyzer.unique_values Analyzer.top_authors Analyzer.top_files
    Analyzer.type_breakdown].
  split_and!; try done.
  - rewrite length_take. lia.
  - rewrite length_take. lia.
  - apply largest_first_take, sorted_by_count_sorted.
  - apply largest_first_take, sorted_by_count_sorted.
  - apply sorted_by_count_sorted.
  - rewrite (sum_list_perm _ _ _ (sorted_by_count_perm _ _)), map_map, <- H5.
    f_equal. apply map_ext. by intros [??].
  - etrans; [apply sum_take_le|].
    rewrite (sum_list_perm _ _ _ (sorted_by_count_perm _ _)), map_map, <- H4.
    apply Nat.eq_le_incl. f_equal. apply map_ext. by intros [??].
  - rewrite (Permutation_map _ (sorted_by_count_perm _ _)), map_map.
    erewrite map_ext; [exact H3|]. by intros [??].
  - apply nodup_map_take.
    rewrite (Permutation_map _ (sorted_by_count_perm _ _)), map_map.
    erewrite map_ext; [exact H2|]. by intros [??].
  - apply nodup_map_take.
    rewrite (Permutation_map _ (sorted_by_count_perm _ _)), map_map.
    erewrite map_ext; [exact H1|]. by intros [??].
Qed.

(** *** The analysis *)

Lemma analyze_return (set_order : gset (option string) -> list (option string))
    (entries : list Analyzer.entry) (A : Analyzer.Analysis) :
  Analyzer.analyze_jsonl set_order entries = Return A ->
  exists secrets0,
    Forall2 (fun kv s => secret_built (snd kv) s)
      (foldl Analyzer.index_entry [] entries) secrets0
    /\ Analyzer.secrets A = Analyzer.sorted_by_count Analyzer.change_count secrets0
    /\ Analyzer.stats A
       = Analyzer._build_stats set_order (foldl Analyzer.index_entry [] entries)
           (length entries).
Proof.
  unfold Analyzer.analyze_jsonl, Analyzer._build_analysis. cbv zeta.
  destruct (Analyzer.map_outcome _ (foldl Analyzer.index_entry [] entries))
    as [secrets0|] eqn:E; simpl; [|done].
  intros [= <-]. exists secrets0. split_and!; try done.
  apply map_outcome_return in E.
  eapply Forall2_impl; [exact E|]. intros kv s H.
  exact (secret_of_data_built set_order (snd kv) s H).
Qed.

Lemma built_all (entries : list Analyzer.entry)
    (index : list (string * Analyzer.secret_data)) (secrets0 : list Analyzer.Secret) :
  Forall2 (fun kv s => secret_built (snd kv) s) index secrets0 ->
  (forall k sd, (k, sd) ∈ index ->
                secret_acc entries k sd /\ 1 <= Analyzer.sd_change_count sd) ->
  map analysis_key secrets0 = map fst index
  /\ sum_list (map Analyzer.change_count secrets0)
     = sum_list (map (fun kv => Analyzer.sd_change_count (snd kv)) index)
  /\ sum_list (map (fun s => length (Analyzer.history s)) secrets0)
     = sum_list (map (fun kv => length (Analyzer.sd_values (snd kv))) index)
  /\ (forall s, s ∈ secrets0 -> secret_accounts entries s).
Proof.
  induction 1 as [|[k sd] s index secrets0 Hb _ IH]; intros Hall.
  - split_and!; try done. by intros s ?%elem_of_nil.
  - destruct (Hall k sd) as [Hacc Hpos]; [apply list_elem_of_here|].
    destruct (built_accounts entries k sd s Hacc Hpos Hb) as (Hk & Hs & Hl).
    destruct IH as (I1 & I2 & I3 & I4).
    { intros k' sd' Hin. apply Hall. by apply list_elem_of_further. }
    simpl. destruct Hb as (_ & _ & _ & Hcc & _).
    rewrite I1, I2, I3, Hk, Hcc, Hl. split_and!; try done.
    intros s' [->|Hs']%elem_of_cons; auto.
Qed.

(** X27. When the analysis of a file returns, it accounts for every
    entry: [total_entries] is their number; the secrets are the distinct
    [file|key] strings of the entries, [unique_secrets] many; the change
    count of a secret is the number of entries with its string, it equals
    its total of occurrences, and the change counts add up to the number
    of entries; the history of a secret lists each of its values once,
    with the number of entries that have it, and [unique_values] is the
    number of history values over all secrets. *)
Theorem analysis_accounts_for_every_entry
    (set_order : gset (option string) -> list (option string))
    (entries : list Analyzer.entry) (A : Analyzer.Analysis) :
  Analyzer.analyze_jsonl set_order entries = Return A ->
  Analyzer.total_entries (Analyzer.stats A) = length entries
  /\ Analyzer.unique_secrets (Analyzer.stats A) = length (Analyzer.secrets A)
  /\ sum_list (map Analyzer.change_count (Analyzer.secrets A)) = length entries
  /\ Analyzer.unique_values (Analyzer.stats A)
     = sum_list (map (fun s => length (Analyzer.history s)) (Analyzer.secrets A))
  /\ NoDup (map analysis_key (Analyzer.secrets A))
  /\ (forall e, e ∈ entries ->
        exists s, s ∈ Analyzer.secrets A /\ analysis_key s = Analyzer.secret_key e)
  /\ (forall s, s ∈ Analyzer.secrets A -> secret_accounts entries s).
Proof.
  intros (secrets0 & Hf & Hs & Hst)%analyze_return.
  destruct (analyzer_index entries) as (Hnd & Hall & Hsum & Hcomp).
  destruct (built_all entries _ _ Hf Hall) as (B1 & B2 & B3 & B4).
  pose proof (build_stats_fields set_order (foldl Analyzer.index_entry [] entries)
                (length entries)) as Hfields.
  cbv zeta in Hfields. rewrite <- Hst in Hfields.
  destruct Hfields as (F1 & F2 & F3 & _).
  pose proof (sorted_by_count_perm Analyzer.change_count secrets0) as Hp.
  rewrite <- Hs in Hp.
  split_and!.
  - done.
  - rewrite F2, Hp. by eapply Forall2_length.
  - by rewrite (sum_list_perm _ _ _ Hp), B2.
  - by rewrite F3, (sum_list_perm _ _ _ Hp), B3.
  - by rewrite (Permutation_map _ Hp), B1.
  - intros e He. specialize (Hcomp e He). rewrite <- B1 in Hcomp.
    apply list_elem_of_In, in_map_iff in Hcomp as (s & Hk & Hin).
    exists s. split; [|done]. rewrite Hp. by apply list_elem_of_In.
  - intros s Hin. rewrite Hp in Hin. by apply B4.
Qed.

Lemma authors_in_order_enumerates : enumerates_authors authors_in_order.
Proof. intros X. split; [apply NoDup_elements | intros x; apply elem_of_elements]. Qed.

Lemma analysis_accounts_for_every_entry_witness :
  exists A, Analyzer.analyze_jsonl authors_in_order demo_entries = Return A
            /\ sum_list (map Analyzer.change_count (Analyzer.secrets A)) = 2.
Proof.
  destruct (Analyzer.analyze_jsonl authors_in_order demo_entries) as [A|] eqn:E.
  - exists A. split; [reflexivity|].
    pose proof (analysis_accounts_for_every_entry authors_in_order demo_entries A E)
      as (_ & _ & H & _).
    exact H.
  - vm_compute in E. discriminate E.
Defined.

Lemma all_strings_some (l : list (option string)) :
  Forall is_Some l -> exists xs, Analyzer.all_strings l = Some xs.
Proof.
  induction 1 as [|x l [s ->] _ [xs IH]]; simpl; [by eexists|].
  rewrite IH. by eexists.
Qed.

Lemma all_strings_none (l : list (option string)) :
  None ∈ l -> Analyzer.all_strings l = None.
Proof.
  induction l as [|x l IH]; intros H; [by apply elem_of_nil in H|].
  simpl. destruct x as [s|]; [|done].
  apply elem_of_cons in H as [?|H]; [done|]. by rewrite IH.
Qed.

Lemma py_sorted_total (l : list (option string)) :
  Forall is_Some l -> exists r, Analyzer.py_sorted l = Return r.
Proof.
  intros H. unfold Analyzer.py_sorted. destruct l as [|x [|y l]]; try by eexists.
  destruct (all_strings_some _ H) as [xs ->]. by eexists.
Qed.

Lemma py_sorted_raise (l : list (option string)) :
  2 <= length l -> None ∈ l -> Analyzer.py_sorted l = Raise.
Proof.
  intros Hl H. unfold Analyzer.py_sorted.
  destruct l as [|x [|y l]]; simpl in Hl; try lia.
  by rewrite all_strings_none.
Qed.

Lemma secret_returns (set_order : gset (option string) -> list (option string))
    (entries : list Analyzer.entry) (k : string) (sd : Analyzer.secret_data) :
  enumerates_authors set_order ->
  (forall e, e ∈ entries -> is_Some (Analyzer.a_author e) /\ is_Some (Analyzer.a_date e)) ->
  secret_acc entries k sd ->
  exists s, Analyzer.secret_of_data set_order sd = Return s.
Proof.
  intros Henum Hsome (H1 & H2 & H3 & H4 & H5 & H6 & H7 & H8).
  assert (forall (P : Analyzer.entry -> bool),
             Forall is_Some (map Analyzer.a_date (List.filter P entries))) as Hdates.
  { intros P. rewrite Forall_forall. intros x (e & <- & He)%list_elem_of_In%in_map_iff.
    apply filter_In in He as [He _]. by apply Hsome, list_elem_of_In. }
  assert (forall (P : Analyzer.entry -> bool) (X : gset (option string)),
             (forall x, x ∈ X <-> x ∈ map Analyzer.a_author (List.filter P entries)) ->
             Forall is_Some (set_order X)) as Hauthors.
  { intros P X HX. rewrite Forall_forall. intros x Hx.
    apply (Henum X), HX in Hx.
    apply list_elem_of_In, in_map_iff in Hx as (e & <- & He).
    apply filter_In in He as [He _]. by apply Hsome, list_elem_of_In. }
  unfold Analyzer.secret_of_data.
  destruct (py_sorted_total _ (Hauthors _ _ H5)) as [authors ->]. simpl.
  rewrite H4. destruct (py_sorted_total _ (Hdates (of_key k))) as [dates ->]. simpl.
  destruct (map_outcome_total (Analyzer.value_entry_of set_order)
              (Analyzer.sd_values sd)) as [ves ->].
  { intros [v vd] Hin. destruct (H7 v vd Hin) as [(V1 & V2 & V3) _].
    unfold Analyzer.value_entry_of. rewrite V2.
    destruct (py_sorted_total _ (Hdates (of_value k v))) as [vdates ->]. simpl.
    destruct (py_sorted_total _ (Hauthors _ _ V3)) as [vauthors ->]. simpl.
    by eexists. }
  simpl. by eexists.
Qed.

Lemma secret_raises (set_order : gset (option string) -> list (option string))
    (sd : Analyzer.secret_data) :
  2 <= length (Analyzer.sd_dates sd) -> None ∈ Analyzer.sd_dates sd ->
  Analyzer.secret_of_data set_order sd = Raise.
Proof.
  intros Hl Hn. unfold Analyzer.secret_of_data.
  destruct (Analyzer.py_sorted (set_order (Analyzer.sd_authors sd))); simpl; [|done].
  by rewrite py_sorted_raise.
Qed.

(** X28. The analysis of a file returns when every entry has an author
    and a date; it raises when two entries of one [file|key] string are
    there of which one has no date ([null]), the dates of a secret being
    sorted. A file whose object has no field [results] is analysed as a
    file without entries. *)
Theorem analysis_returns_unless_null_is_compared
    (set_order : gset (option string) -> list (option string))
    (entries : list Analyzer.entry) :
  enumerates_authors set_order ->
  ((forall e, e ∈ entries ->
              is_Some (Analyzer.a_author e) /\ is_Some (Analyzer.a_date e)) ->
   exists A, Analyzer.analyze_jsonl set_order entries = Return A)
  /\ (forall pre e1 mid e2 post,
        entries = pre ++ e1 :: mid ++ e2 :: post ->
        Analyzer.secret_key e1 = Analyzer.secret_key e2 ->
        Analyzer.a_date e1 = None \/ Analyzer.a_date e2 = None ->
        Analyzer.analyze_jsonl set_order entries = Raise)
  /\ (exists A, Analyzer.analyze_json set_order (Analyzer.Object None) = Return A
                /\ Analyzer.secrets A = []
                /\ Analyzer.total_entries (Analyzer.stats A) = 0)
  /\ Analyzer.analyze_json set_order (Analyzer.Object (Some entries))
     = Analyzer.analyze_jsonl set_order entries
  /\ Analyzer.analyze_json set_order (Analyzer.Array entries)
     = Analyzer.analyze_jsonl set_order entries.
Proof.
  intros Henum.
  destruct (analyzer_index entries) as (Hnd & Hall & Hsum & Hcomp).
  split_and!; try done.
  - intros Hsome. unfold Analyzer.analyze_jsonl, Analyzer._build_analysis. cbv zeta.
    destruct (map_outcome_total (fun kv => Analyzer.secret_of_data set_order (snd kv))
                (foldl Analyzer.index_entry [] entries)) as [secrets0 ->].
    { intros [k sd] Hin. destruct (Hall k sd Hin) as [Hacc _]. simpl.
      by eapply secret_returns. }
    simpl. by eexists.
  - intros pre e1 mid e2 post Hent Hk Hnone.
    assert (e1 ∈ entries) as He1.
    { rewrite Hent. apply elem_of_app. right. apply list_elem_of_here. }
    specialize (Hcomp e1 He1).
    apply list_elem_of_In, in_map_iff in Hcomp as ([k sd] & Hk1 & Hin).
    simpl in Hk1. subst k. apply list_elem_of_In in Hin.
    destruct (Hall _ sd Hin) as [(H1 & H2 & H3 & H4 & _) _].
    assert (List.filter (of_key (Analyzer.secret_key e1)) entries
            = List.filter (of_key (Analyzer.secret_key e1)) pre
              ++ e1 :: List.filter (of_key (Analyzer.secret_key e1)) mid
              ++ e2 :: List.filter (of_key (Analyzer.secret_key e1)) post) as Ef.
    { rewrite Hent, List.filter_app. simpl. rewrite of_key_self.
      rewrite List.filter_app. simpl. rewrite Hk, of_key_self. done. }
    unfold Analyzer.analyze_jsonl, Analyzer._build_analysis. cbv zeta.
    rewrite (map_outcome_raise _ _ (Analyzer.secret_key e1, sd) Hin); [done|].
    simpl. apply secret_raises; rewrite H4, Ef.
    + rewrite map_app, length_app. simpl. rewrite map_app, length_app. simpl. lia.
    + rewrite map_app, elem_of_app. right. simpl. rewrite elem_of_cons.
      destruct Hnone as [Hn|Hn]; [left; by rewrite Hn|]. right.
      rewrite map_app, elem_of_app. right. simpl. rewrite Hn. apply list_elem_of_here.
  - vm_compute. eexists. split_and!; reflexivity.
Qed.

Lemma analysis_returns_unless_null_is_compared_witness :
  enumerates_authors authors_in_order
  /\ exists A, Analyzer.analyze_jsonl authors_in_order demo_entries = Return A.
Proof.
  split; [exact authors_in_order_enumerates|].
  apply (analysis_returns_unless_null_is_compared authors_in_order demo_entries
           authors_in_order_enumerates).
  intros e He. repeat (apply elem_of_cons in He as [->|He]; [split; by eexists|]).
  by apply elem_of_nil in He.
Defined.

Lemma count_up_get (d : list (string * nat)) (k k' : string) :
  default 0 (Scanner.dict_get (Analyzer.count_up d k) k')
  = default 0 (Scanner.dict_get d k') + (if String.eqb k k' then 1 else 0).
Proof.
  induction d as [|[k0 n] d IH]; cbn [Analyzer.count_up Scanner.dict_get].
  - destruct (String.eqb k k'); simpl; lia.
  - destruct (decide (k0 = k)) as [->|Hne]; cbn [Scanner.dict_get].
    + destruct (String.eqb k k'); simpl; lia.
    + destruct (String.eqb_spec k0 k') as [->|Hne']; simpl.
      * destruct (String.eqb_spec k k'); [congruence | lia].
      * apply IH.
Qed.

Lemma types_counted_step (set_order : gset (option string) -> list (option string))
    (done : list (string * Analyzer.secret_data))
    (acc : list (option string * nat) * list (string * nat) * list (string * nat) * nat)
    (kv : string * Analyzer.secret_data) :
  types_counted done acc.1.2 ->
  types_counted (done ++ [kv]) (Analyzer.stats_step set_order acc kv).1.2.
Proof.
  destruct acc as [[[ac fc] tc] uv]. intros [Hk Hn].
  unfold Analyzer.stats_step. cbn [fst snd] in *. split.
  - intros t. rewrite count_up_keys, Hk. split.
    + intros [->|(kv' & Hin & Ht)].
      * exists kv. split; [apply elem_of_app; right; apply list_elem_of_here | done].
      * exists kv'. split; [apply elem_of_app; by left | done].
    + intros (kv' & [Hin|Hx%list_elem_of_singleton]%elem_of_app & Ht); subst;
        [right|left]; eauto.
  - intros t. rewrite count_up_get, Hn, List.filter_app, length_app. simpl.
    by destruct (String.eqb (Analyzer.sd_type kv.2) t).
Qed.

Lemma types_counted_fold (set_order : gset (option string) -> list (option string))
    (rest done : list (string * Analyzer.secret_data))
    (acc : list (option string * nat) * list (string * nat) * list (string * nat) * nat) :
  types_counted done acc.1.2 ->
  types_counted (done ++ rest) (foldl (Analyzer.stats_step set_order) acc rest).1.2.
Proof.
  revert done acc. induction rest as [|kv rest IH]; intros done acc H; simpl.
  - by rewrite app_nil_r.
  - replace (done ++ kv :: rest) with ((done ++ [kv]) ++ rest)
      by (by rewrite <- app_assoc).
    apply IH. by apply types_counted_step.
Qed.

Lemma types_counted_start : types_counted [] [].
Proof.
  split; [|done]. intros t. split; [by intros ?%elem_of_nil|].
  by intros (? & ?%elem_of_nil & _).
Qed.

Lemma build_stats_types (set_order : gset (option string) -> list (option string))
    (index : list (string * Analyzer.secret_data)) (n : nat) :
  let st := Analyzer._build_stats set_order index n in
  (forall t, t ∈ map Analyzer.ts_type (Analyzer.type_breakdown st)
             <-> exists kv, kv ∈ index /\ Analyzer.sd_type (snd kv) = t)
  /\ (forall ts, ts ∈ Analyzer.type_breakdown st ->
        Analyzer.ts_count ts
        = length (List.filter
                    (fun kv => String.eqb (Analyzer.sd_type (snd kv)) (Analyzer.ts_type ts))
                    index)).
Proof.
  unfold Analyzer._build_stats.
  pose proof (stats_fold_inv set_order index [] ([], [], [], 0)) as Hinv.
  pose proof (types_counted_fold set_order index [] ([], [], [], 0)
                types_counted_start) as [Hk Hn].
  rewrite app_nil_l in Hk, Hn.
  destruct (foldl (Analyzer.stats_step set_order) ([], [], [], 0) index)
    as [[[ac fc] tc] uv].
  destruct Hinv as (_ & _ & Hnd & _).
  { unfold stats_inv. simpl. split_and!; try done; constructor. }
  cbn [fst snd] in Hk, Hn. cbv zeta. cbn [Analyzer.type_breakdown].
  assert (map Analyzer.ts_type
            (map (fun '(type_, count) =>
                    {| Analyzer.ts_type := type_; Analyzer.ts_count := count |}) tc)
          = map fst tc) as Hkeys.
  { rewrite map_map. apply map_ext. by intros [??]. }
  split.
  - intros t. rewrite (Permutation_map _ (sorted_by_count_perm _ _)), Hkeys. apply Hk.
  - intros ts Hin. rewrite sorted_by_count_perm in Hin.
    apply list_elem_of_In, in_map_iff in Hin as ([t c] & <- & Hin%list_elem_of_In).
    cbn [Analyzer.ts_count Analyzer.ts_type].
    rewrite <- Hn, (dict_get_of_elem tc t c Hnd Hin). done.
Qed.

Lemma built_types (index : list (string * Analyzer.secret_data))
    (secrets0 : list Analyzer.Secret) (t : string) :
  Forall2 (fun kv s => secret_built (snd kv) s) index secrets0 ->
  length (List.filter (fun kv => String.eqb (Analyzer.sd_type (snd kv)) t) index)
  = length (secrets_of_type t secrets0).
Proof.
  unfold secrets_of_type.
  induction 1 as [|kv s index secrets0 (_ & _ & Ht & _) _ IH]; simpl; [done|].
  rewrite Ht. destruct (String.eqb (Analyzer.sd_type kv.2) t); simpl; by rewrite IH.
Qed.

Lemma secrets_of_type_perm (t : string) (l l' : list Analyzer.Secret) :
  l ≡ₚ l' -> length (secrets_of_type t l) = length (secrets_of_type t l').
Proof.
  unfold secrets_of_type.
  induction 1 as [|x l l' _ IH|x y l|l l' l'' _ IH1 _ IH2]; simpl; try done.
  - destruct (String.eqb (Analyzer.type x) t); simpl; by rewrite IH.
  - by destruct (String.eqb (Analyzer.type x) t), (String.eqb (Analyzer.type y) t).
  - by rewrite IH1.
Qed.

Lemma Forall2_elem_l {A B : Type} (P : A -> B -> Prop) (l : list A) (l' : list B)
    (x : A) :
  Forall2 P l l' -> x ∈ l -> exists y, y ∈ l' /\ P x y.
Proof.
  induction 1 as [|x' y l l' Hxy _ IH]; intros Hx.
  - by apply elem_of_nil in Hx.
  - apply elem_of_cons in Hx as [->|Hx].
    + exists y. split; [apply list_elem_of_here | done].
    + destruct (IH Hx) as (y' & ? & ?). exists y'.
      split; [by apply list_elem_of_further | done].
Qed.

Lemma analysis_types (set_order : gset (option string) -> list (option string))
    (entries : list Analyzer.entry) (A : Analyzer.Analysis) :
  Analyzer.analyze_jsonl set_order entries = Return A ->
  (forall t, t ∈ map Analyzer.ts_type (Analyzer.type_breakdown (Analyzer.stats A))
             <-> exists s, s ∈ Analyzer.secrets A /\ Analyzer.type s = t)
  /\ (forall ts, ts ∈ Analyzer.type_breakdown (Analyzer.stats A) ->
        Analyzer.ts_count ts
        = length (secrets_of_type (Analyzer.ts_type ts) (Analyzer.secrets A))).
Proof.
  intros (secrets0 & Hf & Hs & Hst)%analyze_return.
  pose proof (build_stats_types set_order (foldl Analyzer.index_entry [] entries)
                (length entries)) as Ht.
  cbv zeta in Ht. rewrite <- Hst in Ht. destruct Ht as [Hk Hn].
  split.
  - intros t. rewrite Hk. split.
    + intros (kv & Hin & Hty).
      destruct (Forall2_elem_l _ _ _ kv Hf Hin) as (s & Hs0 & Hb).
      exists s. split; [by rewrite Hs, sorted_by_count_perm|].
      destruct Hb as (_ & _ & Hb & _). by rewrite Hb.
    + intros (s & Hin & Hty). rewrite Hs, sorted_by_count_perm in Hin.
      destruct (Forall2_elem_r _ _ _ s Hf Hin) as (kv & Hkv & Hb).
      exists kv. split; [done|]. destruct Hb as (_ & _ & Hb & _). by rewrite <- Hb.
  - intros ts Hin. rewrite (Hn ts Hin), (built_types _ secrets0 _ Hf), Hs.
    symmetry. apply secrets_of_type_perm, sorted_by_count_perm.
Qed.

(** X29. In an analysis the secrets come with the largest change count
    first and the values of a history with the most occurrences first;
    the statistics list at most ten authors and ten files, each once and
    the largest count first, and every type once, the counts of the
    types adding up to the number of secrets: the types listed are those
    of the secrets, each with the number of secrets that have it. *)
Theorem analysis_lists_largest_first
    (set_order : gset (option string) -> list (option string))
    (entries : list Analyzer.entry) (A : Analyzer.Analysis) :
  Analyzer.analyze_jsonl set_order entries = Return A ->
  largest_first Analyzer.change_count (Analyzer.secrets A)
  /\ (forall s, s ∈ Analyzer.secrets A ->
                largest_first Analyzer.ve_occurrences (Analyzer.history s))
  /\ length (Analyzer.top_authors (Analyzer.stats A)) <= 10
  /\ length (Analyzer.top_files (Analyzer.stats A)) <= 10
  /\ largest_first Analyzer.as_count (Analyzer.top_authors (Analyzer.stats A))
  /\ largest_first Analyzer.fs_count (Analyzer.top_files (Analyzer.stats A))
  /\ largest_first Analyzer.ts_count (Analyzer.type_breakdown (Analyzer.stats A))
  /\ sum_list (map Analyzer.ts_count (Analyzer.type_breakdown (Analyzer.stats A)))
     = Analyzer.unique_secrets (Analyzer.stats A)
  /\ sum_list (map Analyzer.fs_count (Analyzer.top_files (Analyzer.stats A)))
     <= Analyzer.unique_secrets (Analyzer.stats A)
  /\ NoDup (map Analyzer.ts_type (Analyzer.type_breakdown (Analyzer.stats A)))
  /\ NoDup (map Analyzer.fs_file (Analyzer.top_files (Analyzer.stats A)))
  /\ NoDup (map Analyzer.as_author (Analyzer.top_authors (Analyzer.stats A)))
  /\ (forall t, t ∈ map Analyzer.ts_type (Analyzer.type_breakdown (Analyzer.stats A))
                <-> exists s, s ∈ Analyzer.secrets A /\ Analyzer.type s = t)
  /\ (forall ts, ts ∈ Analyzer.type_breakdown (Analyzer.stats A) ->
        Analyzer.ts_count ts
        = length (secrets_of_type (Analyzer.ts_type ts) (Analyzer.secrets A))).
Proof.
  intros HA. destruct (analysis_types set_order entries A HA) as [T1 T2].
  apply analyze_return in HA as (secrets0 & Hf & Hs & Hst).
  pose proof (build_stats_fields set_order (foldl Analyzer.index_entry [] entries)
                (length entries)) as Hfields.
  cbv zeta in Hfields. rewrite <- Hst in Hfields.
  destruct Hfields as (F1 & F2 & F3 & F4 & F5 & F6 & F7 & F8 & F9 & F10 & F11 & F12
                       & F13).
  split_and!; try done.
  - rewrite Hs. apply sorted_by_count_sorted.
  - intros s Hin. rewrite Hs, sorted_by_count_perm in Hin.
    destruct (Forall2_elem_r _ _ _ s Hf Hin) as (kv & _ & Hb).
    apply Hb.
  - by rewrite F2.
  - by rewrite F2.
Qed.

Lemma analysis_lists_largest_first_witness :
  exists A, Analyzer.analyze_jsonl authors_in_order demo_entries = Return A
            /\ largest_first Analyzer.change_count (Analyzer.secrets A).
Proof.
  destruct (Analyzer.analyze_jsonl authors_in_order demo_entries) as [A|] eqn:E.
  - exists A. split; [reflexivity|].
    exact (proj1 (analysis_lists_largest_first authors_in_order demo_entries A E)).
  - vm_compute in E. discriminate E.
Defined.

(** *** The analysis of a stream of the scanner *)

Lemma analysis_accounting (set_order : gset (option string) -> list (option string))
    (entries : list Analyzer.entry) (A : Analyzer.Analysis) :
  Analyzer.analyze_jsonl set_order entries = Return A ->
  Analyzer.total_entries (Analyzer.stats A) = length entries
  /\ sum_list (map Analyzer.change_count (Analyzer.secrets A)) = length entries
  /\ Analyzer.unique_values (Analyzer.stats A)
     = sum_list (map (fun s => length (Analyzer.history s)) (Analyzer.secrets A))
  /\ (forall s, s ∈ Analyzer.secrets A -> secret_accounts entries s).
Proof.
  intros (secrets0 & Hf & Hs & Hst)%analyze_return.
  destruct (analyzer_index entries) as (Hnd & Hall & Hsum & Hcomp).
  destruct (built_all entries _ _ Hf Hall) as (B1 & B2 & B3 & B4).
  pose proof (build_stats_fields set_order (foldl Analyzer.index_entry [] entries)
                (length entries)) as Hfields.
  cbv zeta in Hfields. rewrite <- Hst in Hfields.
  destruct Hfields as (F1 & F2 & F3 & _).
  pose proof (sorted_by_count_perm Analyzer.change_count secrets0) as Hp.
  rewrite <- Hs in Hp.
  split_and!.
  - done.
  - by rewrite (sum_list_perm _ _ _ Hp), B2.
  - by rewrite F3, (sum_list_perm _ _ _ Hp), B3.
  - intros s Hin. rewrite Hp in Hin. by apply B4.
Qed.

Lemma analysis_returns (set_order : gset (option string) -> list (option string))
    (entries : list Analyzer.entry) :
  enumerates_authors set_order ->
  (forall e, e ∈ entries ->
             is_Some (Analyzer.a_author e) /\ is_Some (Analyzer.a_date e)) ->
  exists A, Analyzer.analyze_jsonl set_order entries = Return A.
Proof.
  intros Henum Hsome.
  destruct (analyzer_index entries) as (Hnd & Hall & Hsum & Hcomp).
  unfold Analyzer.analyze_jsonl, Analyzer._build_analysis. cbv zeta.
  destruct (map_outcome_total (fun kv => Analyzer.secret_of_data set_order (snd kv))
              (foldl Analyzer.index_entry [] entries)) as [secrets0 ->].
  { intros [k sd] Hin. destruct (Hall k sd Hin) as [Hacc _]. simpl.
    by eapply secret_returns. }
  simpl. by eexists.
Qed.

Lemma filter_unique {A B : Type} (g : A -> B) (c : B) (P : A -> bool) (l : list A) :
  NoDup (map g l) ->
  (forall x, x ∈ l -> P x = true -> g x = c) ->
  length (List.filter P l) <= 1.
Proof.
  induction l as [|x l IH]; intros Hnd Hc; simpl; [lia|].
  apply NoDup_cons in Hnd as [Hx Hnd].
  destruct (P x) eqn:Ex.
  - rewrite filter_none; [simpl; lia|].
    intros y Hy. destruct (P y) eqn:Ey; [|done]. destruct Hx.
    rewrite (Hc x) by (done || apply list_elem_of_here).
    rewrite <- (Hc y) by (done || by apply list_elem_of_further).
    apply list_elem_of_In, in_map, list_elem_of_In, Hy.
  - apply IH; [done|]. intros y Hy. apply Hc. by apply list_elem_of_further.
Qed.

Lemma value_key_of_stream (x : Scanner.StreamEntry) :
  value_key (entry_of_stream x) = rendering x.
Proof.
  unfold value_key, Analyzer.secret_key, rendering, Scanner.dedup_key. simpl.
  by rewrite !append_assoc.
Qed.

Lemma occurrences_once (entries : list Analyzer.entry) (k v : string) :
  NoDup (map value_key entries) -> length (List.filter (of_value k v) entries) <= 1.
Proof.
  intros Hnd. apply (filter_unique value_key (k +:+ "|" +:+ v)); [done|].
  intros x _ [Hk Hv]%andb_prop. unfold value_key.
  apply String.eqb_eq in Hk, Hv. by rewrite Hk, Hv.
Qed.

Lemma sum_of_ones {A : Type} (f : A -> nat) (l : list A) :
  (forall x, x ∈ l -> f x = 1) -> sum_list (map f l) = length l.
Proof.
  induction l as [|x l IH]; intros H; simpl; [done|].
  rewrite (H x) by apply list_elem_of_here.
  rewrite IH; [done|]. intros y Hy. apply H. by apply list_elem_of_further.
Qed.

Lemma stream_value_keys (self : Scanner.t) (driver : string -> option (list string))
    (tree : list Scanner.tree_file) (now : string) (stream : list Scanner.StreamEntry) :
  stream = Scanner.scan_stream self driver
  \/ stream = Scanner.scan_current_stream self tree now
  \/ stream = Scanner.scan_both_stream self driver tree now ->
  NoDup (map value_key (map entry_of_stream stream)).
Proof.
  intros H. rewrite map_map.
  erewrite map_ext; [|intros x; apply value_key_of_stream].
  destruct H as [->|[->| ->]].
  - rewrite scan_stream_written. apply written_renderings.
  - rewrite scan_current_stream_written. apply written_renderings.
  - rewrite scan_both_stream_written. apply written_renderings.
Qed.

(** X30. In the analysis of a file that a streaming scan wrote, every
    value of a history has exactly one occurrence, the file holding each
    [file|key|value] string once; so the change count and the total of
    occurrences of a secret are the number of its values, and
    [unique_values] is the number of entries. The analysis of a file of
    [scan_current_stream] always returns. *)
Theorem stream_analysis_counts_each_value_once (self : Scanner.t)
    (driver : string -> option (list string)) (tree : list Scanner.tree_file)
    (now : string) (set_order : gset (option string) -> list (option string)) :
  enumerates_authors set_order ->
  (exists A,
      Analyzer.analyze_jsonl set_order
        (map entry_of_stream (Scanner.scan_current_stream self tree now)) = Return A)
  /\ (forall stream A,
        stream = Scanner.scan_stream self driver
        \/ stream = Scanner.scan_current_stream self tree now
        \/ stream = Scanner.scan_both_stream self driver tree now ->
        Analyzer.analyze_jsonl set_order (map entry_of_stream stream) = Return A ->
        Analyzer.total_entries (Analyzer.stats A) = length stream
        /\ Analyzer.unique_values (Analyzer.stats A) = length stream
        /\ (forall s, s ∈ Analyzer.secrets A ->
              Analyzer.change_count s = length (Analyzer.history s)
              /\ Analyzer.total_occurrences s = length (Analyzer.history s)
              /\ forall ve, ve ∈ Analyzer.history s -> Analyzer.ve_occurrences ve = 1)).
Proof.
  intros Henum. split.
  - apply analysis_returns; [done|].
    intros e (x & <- & Hx)%list_elem_of_In%in_map_iff.
    apply list_elem_of_In in Hx. rewrite scan_current_stream_written in Hx.
    apply written_sub, current_candidates_good in Hx
      as (rel & key & value & _ & _ & _ & _ & ->).
    simpl. split; by eexists.
  - intros stream A Hstream HA.
    pose proof (stream_value_keys self driver tree now stream Hstream) as Hnd.
    destruct (analysis_accounting _ _ _ HA) as (T1 & T2 & T3 & T4).
    rewrite length_map in T1, T2.
    assert (forall s, s ∈ Analyzer.secrets A ->
              Analyzer.change_count s = length (Analyzer.history s)
              /\ Analyzer.total_occurrences s = length (Analyzer.history s)
              /\ forall ve, ve ∈ Analyzer.history s -> Analyzer.ve_occurrences ve = 1)
      as Hone.
    { intros s Hs. destruct (T4 s Hs) as (S1 & S2 & S3 & S4 & S5 & S6 & S7).
      assert (forall ve, ve ∈ Analyzer.history s -> Analyzer.ve_occurrences ve = 1)
        as Hve.
      { intros ve Hin. destruct (S6 ve Hin) as (V1 & V2 & _).
        pose proof (occurrences_once _ (analysis_key s) (Analyzer.ve_value ve) Hnd).
        lia. }
      assert (Analyzer.total_occurrences s = length (Analyzer.history s)) as Htot.
      { rewrite S7. by apply sum_of_ones. }
      split_and!; [congruence | done | done]. }
    split_and!; [done| |done].
    rewrite T3, <- T2. f_equal. apply map_ext_in. intros s Hs%list_elem_of_In.
    symmetry. by apply Hone.
Qed.

Lemma stream_analysis_counts_each_value_once_witness :
  enumerates_authors authors_in_order
  /\ exists A,
      Analyzer.analyze_jsonl authors_in_order
        (map entry_of_stream
           (Scanner.scan_current_stream demo_scanner one_file_tree
              "2026-01-01T00:00:00")) = Return A.
Proof.
  split; [exact authors_in_order_enumerates|].
  exact (proj1 (stream_analysis_counts_each_value_once demo_scanner one_commit_driver
                  one_file_tree "2026-01-01T00:00:00" authors_in_order
                  authors_in_order_enumerates)).
Defined.
